(** * Dr_chatbot: classification, prompting and multi-agent orchestration

    A shallow embedding of [advanced_prompts.py] and [multi_agent_system.py],
    and of the data scripts [final_load.py], [check_chunks.py],
    [advanced_setup.py] and [setup_and_run.py].

    Python [str] values are modelled as [string] holding the UTF-8 bytes of
    the text.  Substring ([in]), prefix ([startswith]) and [split] on an
    ASCII separator agree on code points and on UTF-8 bytes.  The two
    Unicode-aware methods [str.lower] and [str.strip] are taken as
    parameters of the development; [ascii_lower] and [ascii_strip] are
    the instances that agree with them on ASCII text.

    Python floats are IEEE 754 binary64 numbers.  A finite float is
    modelled by the rational ([Q]) it denotes, and every arithmetic
    operation rounds its exact result to the nearest float, ties to even
    (module [Float]).  Comparisons of floats are comparisons of the
    rationals. *)

From Stdlib Require Import List String Ascii Bool Arith Lia ZArith QArith Lqa.
From Stdlib Require Import Qround Qpower.
From Stdlib Require Import DecimalString DecimalNat.
Import ListNotations.

Open Scope string_scope.

(** ** Strings *)

Module Str.

(** The double quote character, which the prompts contain. *)
Definition dq : string := String (ascii_of_nat 34) EmptyString.

Definition newline : string := String (ascii_of_nat 10) EmptyString.

(** [str.startswith] *)
Fixpoint startswith (p s : string) : bool :=
  match p, s with
  | EmptyString, _ => true
  | String a p', String b s' => if Ascii.eqb a b then startswith p' s' else false
  | String _ _, EmptyString => false
  end.

(** [needle in hay] *)
Fixpoint contains (needle hay : string) : bool :=
  if startswith needle hay then true
  else match hay with
       | EmptyString => false
       | String _ hay' => contains needle hay'
       end.

(** The mathematical reading of "occurs as a substring". *)
Definition Substring (k s : string) : Prop :=
  exists a b, s = a ++ k ++ b.

(** [sep.join(items)] *)
Fixpoint join (sep : string) (items : list string) : string :=
  match items with
  | [] => EmptyString
  | [x] => x
  | x :: rest => x ++ sep ++ join sep rest
  end.

(** [s.split(c)] for a one-character separator: always at least one piece. *)
Fixpoint split (c : ascii) (s : string) : list string :=
  match s with
  | EmptyString => [EmptyString]
  | String a s' =>
      if Ascii.eqb a c then EmptyString :: split c s'
      else match split c s' with
           | [] => [String a EmptyString]
           | w :: ws => String a w :: ws
           end
  end.

Definition lower_char (a : ascii) : ascii :=
  let n := nat_of_ascii a in
  if (65 <=? n)%nat && (n <=? 90)%nat then ascii_of_nat (n + 32) else a.

(** [str.lower] on ASCII text. *)
Fixpoint ascii_lower (s : string) : string :=
  match s with
  | EmptyString => EmptyString
  | String a s' => String (lower_char a) (ascii_lower s')
  end.

(** The ASCII characters for which [str.isspace] holds. *)
Definition is_space (a : ascii) : bool :=
  let n := nat_of_ascii a in
  ((9 <=? n)%nat && (n <=? 13)%nat) || ((28 <=? n)%nat && (n <=? 32)%nat).

Fixpoint lstrip (s : string) : string :=
  match s with
  | EmptyString => EmptyString
  | String a s' => if is_space a then lstrip s' else s
  end.

Fixpoint rstrip (s : string) : string :=
  match s with
  | EmptyString => EmptyString
  | String a s' =>
      match rstrip s' with
      | EmptyString => if is_space a then EmptyString else String a EmptyString
      | r => String a r
      end
  end.

(** [str.strip] on ASCII text. *)
Definition ascii_strip (s : string) : string := rstrip (lstrip s).

End Str.

(** ** advanced_prompts.py *)

Module QueryType.

Inductive t : Type :=
| DIAGNOSIS | TREATMENT | PREVENTION | EMERGENCY | GENERAL | PROCEDURE.

Definition eqb (a b : t) : bool :=
  match a, b with
  | DIAGNOSIS, DIAGNOSIS | TREATMENT, TREATMENT | PREVENTION, PREVENTION
  | EMERGENCY, EMERGENCY | GENERAL, GENERAL | PROCEDURE, PROCEDURE => true
  | _, _ => false
  end.

End QueryType.

Module QueryClassifier.

(** [self.classification_keywords]: a dict, iterated in insertion order. *)
Definition classification_keywords : list (QueryType.t * list string) :=
  [ (QueryType.DIAGNOSIS,
     ["pain"; "hurt"; "ache"; "swollen"; "bleeding"; "sensitive"; "symptoms";
      "what's wrong"; "diagnosis"; "problem"; "issue"; "concern"; "feels like"]);
    (QueryType.TREATMENT,
     ["treatment"; "fix"; "repair"; "cure"; "heal"; "options"; "what can be done";
      "how to treat"; "therapy"; "medication"; "surgery"]);
    (QueryType.PREVENTION,
     ["prevent"; "avoid"; "stop"; "care"; "maintenance"; "hygiene"; "brush";
      "floss"; "diet"; "habits"; "routine"; "protect"]);
    (QueryType.EMERGENCY,
     ["emergency"; "urgent"; "severe"; "unbearable"; "can't sleep"; "swelling";
      "infection"; "trauma"; "accident"; "broken"; "knocked out"]);
    (QueryType.PROCEDURE,
     ["procedure"; "surgery"; "operation"; "implant"; "crown"; "filling";
      "root canal"; "extraction"; "cleaning"; "whitening"; "braces"]) ].

(** [self.classification_keywords[query_type]] *)
Fixpoint lookup (t : QueryType.t) (d : list (QueryType.t * list string)) : list string :=
  match d with
  | [] => []
  | (t', ks) :: d' => if QueryType.eqb t t' then ks else lookup t d'
  end.

Definition keywords_of (t : QueryType.t) : list string :=
  lookup t classification_keywords.

(** [sum(1 for keyword in keywords if keyword in question_lower)] *)
Definition keyword_score (keywords : list string) (question_lower : string) : nat :=
  List.length (filter (fun keyword => Str.contains keyword question_lower) keywords).

(** The [scores] dict built by the scoring loop, in insertion order. *)
Definition scores (question_lower : string) : list (QueryType.t * nat) :=
  map (fun '(query_type, keywords) => (query_type, keyword_score keywords question_lower))
      classification_keywords.

(** [max(values)] over naturals; Python raises on an empty sequence, the
    dict here is never empty. *)
Definition max_value (vs : list nat) : nat := fold_right Nat.max 0%nat vs.

(** [max(scores, key=scores.get)]: the first key, in iteration order,
    whose score no later key strictly exceeds. *)
Fixpoint argmax_from (best : QueryType.t) (best_score : nat)
         (rest : list (QueryType.t * nat)) : QueryType.t :=
  match rest with
  | [] => best
  | (t, s) :: rest' =>
      if (best_score <? s)%nat then argmax_from t s rest'
      else argmax_from best best_score rest'
  end.

Definition argmax (d : list (QueryType.t * nat)) : QueryType.t :=
  match d with
  | [] => QueryType.GENERAL
  | (t, s) :: rest => argmax_from t s rest
  end.

Section Classify.

(** [str.lower] *)
Variable lower : string -> string.

Definition classify_query (user_question : string) : QueryType.t :=
  let question_lower := lower user_question in
  if existsb (fun keyword => Str.contains keyword question_lower)
             (keywords_of QueryType.EMERGENCY)
  then QueryType.EMERGENCY
  else
    let scores := scores question_lower in
    if (0 <? max_value (map snd scores))%nat
    then argmax scores
    else QueryType.GENERAL.

End Classify.

End QueryClassifier.

Module ChainOfThoughtPrompts.

Definition _get_base_persona : string :=
  "You are Dr. Meenakshi Tomar, DDS - a highly experienced dental professional with over 30 years of practice.

CORE IDENTITY:
- Graduated from NYU School of Dentistry in 2000
- Practicing since 1989 with extensive experience
- Specializes in full mouth reconstruction, smile makeovers, laser surgery
- WCLI certified for advanced laser procedures
- Located at Edmonds Bay Dental in Edmonds, WA
- Phone: (425) 775-5162

COMMUNICATION STYLE:
- Warm, empathetic, and professional
- Uses " ++ Str.dq ++ "I" ++ Str.dq ++ " statements naturally (I recommend, I've seen, I do)
- Explains complex concepts in simple terms
- Shows genuine concern for patient wellbeing
- Asks follow-up questions to better understand patient needs
".

Definition base_persona : string := _get_base_persona.

Definition _get_reasoning_templates (query_type : QueryType.t) : string :=
  match query_type with
  | QueryType.DIAGNOSIS =>
    "
RESPONSE FORMAT - DETAILED BUT ORGANIZED:
1. Direct answer about the condition
2. Key symptoms/causes (use bullet points)
3. Immediate recommendations
4. Follow-up question

Example: " ++ Str.dq ++ "Based on your symptoms, this sounds like gingivitis by Dr Menakshi Tomar's assessment.

Common signs include:
• Red, swollen gums
• Bleeding during brushing
• Bad breath
• Tender gums

I recommend improving your oral hygiene routine and scheduling a professional cleaning. How long have you been experiencing these symptoms? 🦷" ++ Str.dq ++ "
"
  | QueryType.TREATMENT =>
    "
RESPONSE FORMAT - BRIEF AND CLEAR (2-3 sentences max):
1. Answer the treatment question directly
2. Mention one key benefit
3. Suggest next step

Example: " ++ Str.dq ++ "Yes, I do [treatment] at my  best practice by Dr Menakshi Tomar. This treatment [key benefit]. Would you like to schedule a consultation?" ++ Str.dq ++ "
"
  | QueryType.PREVENTION =>
    "
RESPONSE FORMAT - DETAILED PREVENTION GUIDANCE:
1. Answer the prevention question directly
2. Key prevention strategies (use bullet points)
3. Lifestyle recommendations
4. Regular care importance
5. Follow-up question

Example: " ++ Str.dq ++ "To prevent gum disease, I recommend a comprehensive approach by Dr Menakshi Tomar.

Key prevention strategies:
• Brush twice daily with fluoride toothpaste
• Floss daily to remove plaque between teeth
• Use antimicrobial mouthwash
• Avoid sugary snacks and drinks
• Schedule regular cleanings every 6 months

These steps significantly reduce your risk of dental problems. When was your last professional cleaning? 💡" ++ Str.dq ++ "
"
  | QueryType.EMERGENCY =>
    "
EMERGENCY ASSESSMENT PROTOCOL:
1. IMMEDIATE CONCERN: Is this a dental emergency requiring urgent care?
2. PAIN MANAGEMENT: Immediate steps to manage discomfort
3. RISK EVALUATION: Potential complications if left untreated
4. URGENT ACTIONS: What needs to be done right now
5. FOLLOW-UP CARE: Next steps after immediate treatment

This requires immediate attention - here's my assessment:
"
  | QueryType.PROCEDURE =>
    "
RESPONSE FORMAT - DETAILED PROCEDURE EXPLANATION:
1. Brief overview of procedure
2. Key steps/process (use bullet points)
3. Benefits and outcomes
4. Recovery/aftercare tips
5. Consultation offer

Example: " ++ Str.dq ++ "Dental implants replace missing teeth with titanium posts by Dr Menakshi Tomar.

The process includes:
• Initial consultation and X-rays
• Surgical placement of implant
• Healing period (3-6 months)
• Crown attachment

Benefits include natural feel and permanent solution. Recovery involves soft foods for a few days.

Would you like to schedule a consultation to discuss your specific case? 🦷" ++ Str.dq ++ "
"
  | QueryType.GENERAL =>
    "
KEEP ANSWERS SHORT AND HELPFUL:
1. Answer the question directly
2. Give practical advice
3. Ask follow-up if needed

Provide a brief, professional response:
"
  end.

(** [self.reasoning_templates.get(query_type, ...)]: every member of the
    enumeration is a key, so the default is never used. *)
Definition reasoning_templates : QueryType.t -> string := _get_reasoning_templates.

(** The literal text that closes the prompt, after the reasoning template. *)
Definition response_requirements : string :=
  "

CRITICAL RESPONSE REQUIREMENTS:
- For SIMPLE questions: 2-3 sentences maximum
- For DISEASES/PROCEDURES/PROCESSES: Detailed but organized response with bullet points
- Answer the question directly in first sentence
- Use bullet points for key information when explaining diseases/procedures
- PROPER FORMATTING: Use line breaks and spacing for readability
- CONTEXTUAL EMOJIS: Choose emoji based on topic (🦷 dental, 😊 friendly, 🚨 emergency, 💡 tips, 📅 appointment)
- Keep it conversational and warm like talking to a friend
- Use " ++ Str.dq ++ "I" ++ Str.dq ++ " statements naturally (I do, I recommend, I've seen)
- Always mention " ++ Str.dq ++ "by Dr Menakshi Tomar" ++ Str.dq ++ " when referring to practice/treatment

FORMATTING EXAMPLES:

SIMPLE QUESTION - GOOD FORMAT:
" ++ Str.dq ++ "Yes, I do dental implants at my practice by Dr Menakshi Tomar. They're an excellent way to replace missing teeth and feel just like your natural teeth.

Would you like to schedule a consultation to discuss your specific needs? 🦷" ++ Str.dq ++ "

DETAILED QUESTION - GOOD FORMAT:
" ++ Str.dq ++ "Yes, we have dental X-ray facilities at my practice by Dr Menakshi Tomar. X-rays help me diagnose hidden issues that aren't visible during regular exams.

Key benefits include:
• Detecting decay between teeth
• Identifying bone loss
• Finding abscesses or cysts
• Checking for developmental issues

The radiation exposure is very low and completely safe. When was your last X-ray taken? 📸" ++ Str.dq ++ "

BAD FORMAT (Poor spacing):
" ++ Str.dq ++ "Yes, we do have the facility for dental X-rays at Edmonds Bay Dental, by Dr. Meenakshi Tomar. Dental X-rays are essential for accurately diagnosing hidden issues that may not be visible during a regular exam. They help me identify: Abscesses or cysts Bone loss Decay between teeth..." ++ Str.dq ++ "

Now provide your WELL-FORMATTED response with proper spacing and contextual emoji:
".

Definition is_empty (s : string) : bool :=
  match s with EmptyString => true | String _ _ => false end.

Definition get_chain_of_thought_prompt
  (query_type : QueryType.t) (user_question context : string) : string :=
  let reasoning_template := reasoning_templates query_type in
  base_persona ++ "

PATIENT QUESTION: " ++ user_question ++ "

"
  ++ (if is_empty context then EmptyString
      else "RELEVANT CONTEXT FROM KNOWLEDGE BASE: " ++ context)
  ++ "

" ++ reasoning_template ++ response_requirements.

Definition reprompt_opening : string :=
  "The previous response had some quality issues that need improvement:

".

Definition reprompt_response_heading : string :=
  "

ORIGINAL RESPONSE:
".

Definition reprompt_instructions : string :=
  "

Please provide an improved response that:
1. Has PROPER FORMATTING with line breaks and spacing
2. Answers the question directly in first sentence
3. Maintains Dr. Meenakshi Tomar's warm, caring persona
4. Uses conversational language like talking to a friend
5. Uses bullet points for lists with proper spacing
6. Uses CONTEXTUAL emoji based on topic:
   🦷 for dental procedures/treatments
   😊 for general friendly responses
   🚨 for emergencies
   💡 for tips/advice
   📅 for appointments
   � for X-rays/diagnostics
7. Ends with a thoughtful follow-up question
8. Is well-spaced and easy to read

IMPROVED RESPONSE:
".

Definition get_reprompt_template
  (original_response : string) (quality_issues : list string) : string :=
  let issues_text :=
    Str.join Str.newline (map (fun issue => "- " ++ issue) quality_issues) in
  reprompt_opening ++ issues_text ++ reprompt_response_heading
  ++ original_response ++ reprompt_instructions.

End ChainOfThoughtPrompts.

(** ** Python floats *)

Module Float.

(** Binary64: 53 significant bits; the least subnormal is [2 ^ -1074]. *)
Definition precision : Z := 53.
Definition least_exponent : Z := -1074.

(** For [0 < x], the [k] with [2 ^ k <= x < 2 ^ (k + 1)]. *)
Definition floor_log2 (x : Q) : Z :=
  let k := (Z.log2 (Qnum x) - Z.log2 (Zpos (Qden x)))%Z in
  if Qle_bool (2 ^ k) x then k else (k - 1)%Z.

(** The exponent of the last place of the floats around [x]. *)
Definition exponent (x : Q) : Z :=
  Z.max least_exponent (floor_log2 x - (precision - 1)).

(** The nearest integer, the even one of two that are equally near. *)
Definition round_half_even (x : Q) : Z :=
  let f := Qfloor x in
  match Qcompare (x - inject_Z f) (1 # 2) with
  | Lt => f
  | Eq => if Z.even f then f else (f + 1)%Z
  | Gt => (f + 1)%Z
  end.

Definition round_positive (x : Q) : Q :=
  let e := exponent x in
  (inject_Z (round_half_even (x / 2 ^ e)) * 2 ^ e)%Q.

(** The float nearest to [x].  No operation of this development reaches
    the overflow threshold [2 ^ 1024] on finite floats: a score is divided
    by 100, a count of attempts is multiplied by 0.1, and a score is
    multiplied by a confidence of at most 1. *)
Definition round (x : Q) : Q :=
  Qred match Qcompare x 0 with
       | Eq => 0
       | Gt => round_positive x
       | Lt => - round_positive (- x)
       end.

(** [float(n)] for a Python [int], as the mixed operations apply it. *)
Definition of_int (n : Z) : Q := round (inject_Z n).

Definition sub (x y : Q) : Q := round (x - y).
Definition mul (x y : Q) : Q := round (x * y).
Definition div (x y : Q) : Q := round (x / y).

(** The literal [0.1]. *)
Definition tenth : Q := round (1 # 10).

End Float.

(** ** multi_agent_system.py *)

Module AgentType.

Inductive t : Type :=
| DIAGNOSTIC | TREATMENT | PREVENTION | EMERGENCY | GENERAL.

Definition eqb (a b : t) : bool :=
  match a, b with
  | DIAGNOSTIC, DIAGNOSTIC | TREATMENT, TREATMENT | PREVENTION, PREVENTION
  | EMERGENCY, EMERGENCY | GENERAL, GENERAL => true
  | _, _ => false
  end.

End AgentType.

Record AgentResponse : Type := mkAgentResponse {
  content : string;
  confidence : Q;
  agent_type : AgentType.t;
  reasoning_steps : list string;
  quality_score : Q;
  attempts_used : nat
}.

(** *** Collaborators and effects

    The completion provider, the retrieval pipeline and the quality
    checker live outside these two modules.  Calls to them are recorded in
    an event log, and a call that raises is a [Raise] result. *)

Inductive ProviderError : Type := transient | rate_limited | invalid_request.

Inductive Event : Type :=
| Retrieved (question : string)
| Completion (prompt : string)
| AgentRun (agent : AgentType.t) (question context : string).

Inductive Result (A : Type) : Type :=
| Ok (a : A)
| Raise (e : ProviderError).

Arguments Ok {A} a.
Arguments Raise {A} e.

Definition M (A : Type) : Type := list Event -> Result A * list Event.

Definition ret {A} (a : A) : M A := fun log => (Ok a, log).

Definition bind {A B} (c : M A) (k : A -> M B) : M B :=
  fun log =>
    match c log with
    | (Ok a, log') => k a log'
    | (Raise e, log') => (Raise e, log')
    end.

(** [try: body except Exception: handler] *)
Definition try_except {A} (body : M A) (handler : ProviderError -> M A) : M A :=
  fun log =>
    match body log with
    | (Ok a, log') => (Ok a, log')
    | (Raise e, log') => handler e log'
    end.

Definition raise {A} (e : ProviderError) : M A := fun log => (Raise e, log).

Definition emit (e : Event) : M unit := fun log => (Ok tt, (log ++ [e])%list).

Declare Scope monad_scope.
Delimit Scope monad_scope with monad.
Notation "x <- c ;; k" := (bind c (fun x => k))
  (at level 61, c at next level, right associativity) : monad_scope.
Notation "' p <- c ;; k" := (bind c (fun x => match x with p => k end))
  (at level 61, p pattern, c at next level, right associativity) : monad_scope.

Definition is_completion (e : Event) : bool :=
  match e with Completion _ => true | _ => false end.

Definition is_agent_run (e : Event) : bool :=
  match e with AgentRun _ _ _ => true | _ => false end.

(** The number of completion-provider calls recorded in a log. *)
Definition completion_calls (log : list Event) : nat :=
  List.length (filter is_completion log).

(** The agent invocations recorded in a log, in order. *)
Definition agent_runs (log : list Event) : list Event := filter is_agent_run log.

(** *** Python's [min] and [max] on two floats: the first argument is kept
    unless the second is strictly better. *)

Definition Qlt_bool (x y : Q) : bool := negb (Qle_bool y x).

Definition py_min (a b : Q) : Q := if Qlt_bool b a then b else a.
Definition py_max (a b : Q) : Q := if Qlt_bool a b then b else a.

(** [max(items, key=key)] on a list whose first element is [first]: the
    first element that no later one strictly exceeds. *)
Fixpoint max_by {A} (key : A -> Q) (first : A) (rest : list A) : A :=
  match rest with
  | [] => first
  | x :: rest' =>
      if Qlt_bool (key first) (key x) then max_by key x rest'
      else max_by key first rest'
  end.

(** *** quality_checker: reports and attempts *)

(** Modelled from the spec: the quality report of [quality_checker]
    (section 3), an overall score and the ordered list of named defects.
    [process_query] reads its [overall_score]. *)
Record QualityReport : Type := mkQualityReport {
  overall_score : Q;
  defects : list string
}.

(** Modelled from the spec: one round of the refinement loop (section 3):
    1-based round index, generated text and its report. *)
Record RefinementAttempt : Type := mkAttempt {
  round_index : nat;
  generated_text : string;
  report : QualityReport
}.

(** Modelled from the spec: the terminal states of the refinement loop
    (section 4.4); [Aborted] is the loop whose budget ran out in a round
    that failed. *)
Inductive LoopState : Type := Accepted | Exhausted | Aborted.

Definition attempt_score (a : RefinementAttempt) : Q := overall_score (report a).

(** Modelled from the spec: [composeRepromptPrompt] (section 4.2), which
    the loop of [quality_checker] uses for the prompt of a later round:
    the original prompt, unchanged, followed by the prior answer and the
    itemized defect list as [get_reprompt_template] lays them out. *)
Definition compose_reprompt_prompt
  (original_prompt previous_answer : string) (defects : list string) : string :=
  original_prompt
  ++ ChainOfThoughtPrompts.get_reprompt_template previous_answer defects.

Module BaseAgent.

(** [specializations.get(self.agent_type, ...)]: every agent type is a key,
    so the empty default is never used. *)
Definition specializations (agent : AgentType.t) : string :=
  match agent with
  | AgentType.DIAGNOSTIC => "
DIAGNOSTIC SPECIALIZATION:
- Expert in symptom analysis and differential diagnosis
- Skilled in identifying urgent vs non-urgent conditions
- Experienced in pain assessment and oral pathology
- Focuses on thorough symptom evaluation and risk assessment
"
  | AgentType.TREATMENT => "
TREATMENT SPECIALIZATION:
- Expert in comprehensive treatment planning
- Skilled in explaining complex procedures clearly
- Experienced in treatment options and alternatives
- Focuses on patient education and informed consent
"
  | AgentType.PREVENTION => "
PREVENTION SPECIALIZATION:
- Expert in preventive dentistry and oral hygiene
- Skilled in patient education and behavior modification
- Experienced in risk factor assessment and management
- Focuses on long-term oral health maintenance
"
  | AgentType.EMERGENCY => "
EMERGENCY SPECIALIZATION:
- Expert in dental emergency assessment and triage
- Skilled in pain management and urgent care protocols
- Experienced in trauma and acute condition management
- Focuses on immediate care and stabilization
"
  | AgentType.GENERAL => "
GENERAL CONSULTATION SPECIALIZATION:
- Expert in comprehensive dental care coordination
- Skilled in patient communication and education
- Experienced in holistic oral health assessment
- Focuses on overall patient wellbeing and care continuity
"
  end.

Definition get_specialist_persona (self : AgentType.t) : string :=
  let base_persona := ChainOfThoughtPrompts._get_base_persona in
  base_persona ++ specializations self.

(** The text returned when the [try] block of [process_query] raises. *)
Definition fallback_content : string :=
  "I apologize, but I'm having difficulty processing your question right now. Please try again or consider scheduling an in-person consultation.".

Definition fallback_response (self : AgentType.t) : AgentResponse :=
  {| content := fallback_content;
     confidence := 0;
     agent_type := self;
     reasoning_steps := [];
     quality_score := 0;
     attempts_used := 1 |}.

Definition numbered_markers : list string := ["1."; "2."; "3."; "4."; "5."].
Definition bullet_markers : list string := ["•"; "-"; "*"].

Definition starts_with_any (markers : list string) (line : string) : bool :=
  existsb (fun m => Str.startswith m line) markers.

(** [quality_scores[-1]]; the caller tests for emptiness first. *)
Definition last_report (quality_scores : list QualityReport) : option QualityReport :=
  match quality_scores with
  | [] => None
  | q :: qs => Some (last qs q)
  end.

Definition _calculate_confidence (quality_scores : list QualityReport) : Q :=
  match last_report quality_scores with
  | None => 1 # 2
  | Some final =>
      let final_score := overall_score final in
      let attempts := List.length quality_scores in
      let base_confidence := Float.div final_score 100 in
      let attempt_penalty :=
        Float.mul (Float.of_int (Z.of_nat attempts - 1)) Float.tenth in
      py_max Float.tenth (py_min 1 (Float.sub base_confidence attempt_penalty))
  end.

Section Text.

(** [str.strip] and [str.lower] *)
Variable strip : string -> string.
Variable lower : string -> string.

Definition is_reasoning_line (line : string) : bool :=
  starts_with_any numbered_markers line
  || starts_with_any bullet_markers line
  || Str.contains "step" (lower line).

Definition _extract_reasoning_steps (response : string) : list string :=
  let lines := Str.split (ascii_of_nat 10) response in
  let reasoning_steps := filter is_reasoning_line (map strip lines) in
  firstn 5 reasoning_steps.

End Text.

End BaseAgent.

Section Engine.

Local Open Scope monad_scope.

(** [str.lower] and [str.strip] *)
Variable lower : string -> string.
Variable strip : string -> string.

(** The completion provider: what the [n]-th call ([n] counted from 0)
    returns for a prompt, or the error it raises. *)
Variable completion : nat -> string -> Result string.

(** [AdvancedRAGPipeline.retrieve_and_rank]: the context text and the
    chunks that a retrieval which returns gives for a question.  The two
    callers call it outside every [try], so what it raises is not caught;
    the consultations of this development are those whose retrieval
    returned. *)
Variable retrieve_and_rank : string -> string * list string.

(** [ResponseQualityChecker], which is outside these modules: a pure
    function of the answer and the question. *)
Variable score : string -> string -> QualityReport.

(** The attempt budget and the accept threshold of the [RepromptingSystem]
    that each specialist agent owns. *)
Variable max_attempts : AgentType.t -> nat.
Variable accept_threshold : AgentType.t -> Q.

(** [self.client.chat.completions.create(...)] followed by
    [response.choices[0].message.content] *)
Definition create_completion (prompt : string) : M string :=
  fun log =>
    (completion (completion_calls log) prompt, (log ++ [Completion prompt])%list).

(** Modelled from the spec: the completion call of a later round of the
    refinement loop (sections 4.4 and 7), whose code
    ([quality_checker.RepromptingSystem]) is not part of the modules
    embedded here.  A transient or rate-limit error ends the round without
    text; an invalid request is not retried and propagates. *)
Definition attempt_completion (prompt : string) : M (option string) :=
  try_except (text <- create_completion prompt ;; ret (Some text))
             (fun e =>
                match e with
                | transient | rate_limited => ret None
                | invalid_request => raise e
                end).

Definition retrieve (user_question : string) : M (string * list string) :=
  _ <- emit (Retrieved user_question) ;;
  ret (retrieve_and_rank user_question).

(** Modelled from the spec: the best-scoring attempt seen (section 4.4),
    the earliest one among equals. *)
Definition best_attempt (first : RefinementAttempt) (rest : list RefinementAttempt)
  : RefinementAttempt :=
  max_by attempt_score first rest.

(** Modelled from the spec: the rounds of [RefinementLoop] after the first
    (sections 4.4 and 7).  [current] is the last attempt of [history],
    which scored below the threshold; [budget] is the number of completion
    calls the attempt budget still allows, and [failed] tells whether the
    last call failed.  While budget remains, a reprompt is built from the
    current answer and its defects and a new answer is generated.  The new
    answer is scored and appended to the history, and a score at or above
    the threshold is accepted at once.  A round that fails with a
    transient error adds no attempt and re-enters the budget, of which it
    has taken one call (section 8: at most [maxAttempts] calls).  With no
    budget left the loop is exhausted, or aborted when its last call
    failed. *)
Fixpoint refinement_rounds (threshold : Q) (original_prompt user_question : string)
         (budget : nat) (failed : bool)
         (history : list RefinementAttempt) (current : RefinementAttempt)
  : M (LoopState * list RefinementAttempt) :=
  match budget with
  | O => ret (if failed then Aborted else Exhausted, history)
  | S budget' =>
      generated <- attempt_completion
                     (compose_reprompt_prompt
                        original_prompt (generated_text current)
                        (defects (report current))) ;;
      match generated with
      | Some text =>
          let attempt :=
            mkAttempt (S (List.length history)) text (score text user_question) in
          let history' := (history ++ [attempt])%list in
          if Qle_bool threshold (attempt_score attempt) then ret (Accepted, history')
          else refinement_rounds threshold original_prompt user_question
                                 budget' false history' attempt
      | None =>
          refinement_rounds threshold original_prompt user_question
                            budget' true history current
      end
  end.

(** Modelled from the spec: the answer [RefinementLoop] hands back
    (section 4.4).  An accepted answer is the one of the last round; an
    exhausted loop returns the best-scoring attempt of its history; an
    aborted loop surfaces its last successful attempt. *)
Definition final_attempt (state : LoopState) (history : list RefinementAttempt)
  : option RefinementAttempt :=
  match history with
  | [] => None
  | a :: rest =>
      match state with
      | Accepted | Aborted => Some (last rest a)
      | Exhausted => Some (best_attempt a rest)
      end
  end.

(** Modelled from the spec: the loop of an agent (sections 4.4 and 7),
    run on the answer of the first round, which [process_query] has
    generated, with the agent's own threshold and attempt budget; the
    first round has used one call of the budget. *)
Definition refinement_loop
  (self : AgentType.t) (original_prompt user_question initial_response : string)
  : M (LoopState * list RefinementAttempt) :=
  let first := mkAttempt 1 initial_response (score initial_response user_question) in
  if Qle_bool (accept_threshold self) (attempt_score first) then ret (Accepted, [first])
  else refinement_rounds (accept_threshold self) original_prompt user_question
                         (max_attempts self - 1) false [first] first.

(** Modelled from the spec: the quality reports handed to the caller.  The
    returned attempt comes "with its own QualityReport" (section 4.4), and
    [process_query] reads the final quality score at [quality_scores[-1]]:
    the reports of the other attempts, in the order of their rounds, are
    followed by the report of the returned attempt. *)
Definition reports_closed_by
  (final : RefinementAttempt) (history : list RefinementAttempt) : list QualityReport :=
  (map report
       (filter (fun a => negb (Nat.eqb (round_index a) (round_index final))) history)
   ++ [report final])%list.

(** Modelled from the spec: what the loop hands to [process_query]: the
    final answer, the number of attempts used and the quality reports. *)
Definition loop_outcome
  (initial_response : string) (state : LoopState) (history : list RefinementAttempt)
  : string * nat * list QualityReport :=
  match final_attempt state history with
  | Some final =>
      (generated_text final, List.length history, reports_closed_by final history)
  | None => (initial_response, 0%nat, [])
  end.

(** Modelled from the spec: [RepromptingSystem.improve_response_with_reprompting],
    as [process_query] calls it: the first answer is already generated. *)
Definition improve_response_with_reprompting
  (self : AgentType.t) (original_prompt user_question initial_response context : string)
  : M (string * nat * list QualityReport) :=
  '(state, history) <-
    refinement_loop self original_prompt user_question initial_response ;;
  ret (loop_outcome initial_response state history).

(** The [full_prompt] that [process_query] sends in its first round. *)
Definition full_prompt_of
  (self : AgentType.t) (user_question context : string)
  (query_type : option QueryType.t) : string :=
  let agent_query_type :=
    match query_type with
    | Some t => t
    | None => QueryClassifier.classify_query lower user_question
    end in
  let specialist_persona := BaseAgent.get_specialist_persona self in
  let cot_prompt :=
    ChainOfThoughtPrompts.get_chain_of_thought_prompt
      agent_query_type user_question context in
  specialist_persona ++ Str.newline ++ Str.newline ++ cot_prompt.

Definition process_query
  (self : AgentType.t) (user_question context : string)
  (query_type : option QueryType.t) : M AgentResponse :=
  let full_prompt := full_prompt_of self user_question context query_type in
  _ <- emit (AgentRun self user_question context) ;;
  try_except
    (initial_response <- create_completion full_prompt ;;
     '(final_response, attempts, quality_scores) <-
       improve_response_with_reprompting
         self full_prompt user_question initial_response context ;;
     let reasoning_steps :=
       BaseAgent._extract_reasoning_steps strip lower final_response in
     let confidence := BaseAgent._calculate_confidence quality_scores in
     ret {| content := final_response;
            confidence := confidence;
            agent_type := self;
            reasoning_steps := reasoning_steps;
            quality_score :=
              match BaseAgent.last_report quality_scores with
              | Some q => overall_score q
              | None => 0
              end;
            attempts_used := attempts |})
    (fun _ => ret (BaseAgent.fallback_response self)).

(** The response built by the [try] block of [process_query] from the
    outcome of the loop. *)
Definition response_of (self : AgentType.t) (initial : string)
           (state : LoopState) (history : list RefinementAttempt) : AgentResponse :=
  let '(final_response, attempts, quality_scores) :=
    loop_outcome initial state history in
  {| content := final_response;
     confidence := BaseAgent._calculate_confidence quality_scores;
     agent_type := self;
     reasoning_steps := BaseAgent._extract_reasoning_steps strip lower final_response;
     quality_score :=
       match BaseAgent.last_report quality_scores with
       | Some q => overall_score q
       | None => 0
       end;
     attempts_used := attempts |}.

(** [routing_map.get(query_type, AgentType.GENERAL)] *)
Definition routing_map (query_type : QueryType.t) : AgentType.t :=
  match query_type with
  | QueryType.DIAGNOSIS => AgentType.DIAGNOSTIC
  | QueryType.TREATMENT => AgentType.TREATMENT
  | QueryType.PREVENTION => AgentType.PREVENTION
  | QueryType.EMERGENCY => AgentType.EMERGENCY
  | QueryType.PROCEDURE => AgentType.TREATMENT
  | QueryType.GENERAL => AgentType.GENERAL
  end.

Definition route_query (user_question : string) : AgentType.t :=
  let query_type := QueryClassifier.classify_query lower user_question in
  routing_map query_type.

Definition process_consultation (user_question : string) : M AgentResponse :=
  '(context, retrieved_chunks) <- retrieve user_question ;;
  let selected_agent_type := route_query user_question in
  response <- process_query selected_agent_type user_question context None ;;
  ret response.

(** The key of the consensus selection: [r.quality_score * r.confidence]. *)
Definition consensus_key (r : AgentResponse) : Q :=
  Float.mul (quality_score r) (confidence r).

Definition get_multi_agent_consensus (user_question : string) : M AgentResponse :=
  '(context, _) <- retrieve user_question ;;
  let primary_agent_type := route_query user_question in
  primary_response <- process_query primary_agent_type user_question context None ;;
  secondary <-
    (if AgentType.eqb primary_agent_type AgentType.GENERAL then ret []
     else
       secondary_response <-
         process_query AgentType.GENERAL user_question context None ;;
       ret [secondary_response]) ;;
  let best_response := max_by consensus_key primary_response secondary in
  ret best_response.

End Engine.

(** ** Concrete collaborators, for evaluating the engine *)

Module Demo.

(** A provider that answers every call, differently from the second call on. *)
Definition completion (n : nat) (prompt : string) : Result string :=
  match n with
  | O => Ok "first answer"
  | S _ => Ok "second answer"
  end.

(** A provider that rejects every request. *)
Definition failing_completion (n : nat) (prompt : string) : Result string :=
  Raise invalid_request.

Definition retrieve_and_rank (question : string) : string * list string :=
  (EmptyString, []).

(** A checker that rates the first answer above the second. *)
Definition score (answer question : string) : QualityReport :=
  if String.eqb answer "first answer"
  then mkQualityReport 70 ["missing follow-up question"]
  else mkQualityReport 50 ["missing follow-up question"; "no bullet formatting"].

(** A checker that rates every answer the same. *)
Definition flat_score (answer question : string) : QualityReport :=
  mkQualityReport 90 [].

Definition max_attempts (agent : AgentType.t) : nat := 2.
Definition accept_threshold (agent : AgentType.t) : Q := 80.

(** The engine on these collaborators. *)
Definition query :=
  process_query Str.ascii_lower Str.ascii_strip completion score
                max_attempts accept_threshold.

Definition loop := refinement_loop completion score max_attempts accept_threshold.

Definition failing_query :=
  process_query Str.ascii_lower Str.ascii_strip failing_completion score
                max_attempts accept_threshold.

Definition failing_consult :=
  process_consultation Str.ascii_lower Str.ascii_strip failing_completion
                       retrieve_and_rank score max_attempts accept_threshold.

Definition flat_consult :=
  process_consultation Str.ascii_lower Str.ascii_strip completion
                       retrieve_and_rank flat_score max_attempts accept_threshold.

Definition flat_query :=
  process_query Str.ascii_lower Str.ascii_strip completion flat_score
                max_attempts accept_threshold.

Definition flat_consensus :=
  get_multi_agent_consensus Str.ascii_lower Str.ascii_strip completion
                            retrieve_and_rank flat_score max_attempts accept_threshold.

End Demo.

(** ** Providers that fail, for evaluating the consensus *)

Module Scenario.

(** A provider whose first call raises and whose later calls answer. *)
Definition fail_first (n : nat) (prompt : string) : Result string :=
  match n with
  | O => Raise transient
  | S _ => Ok "second answer"
  end.

(** A provider whose first call answers and whose later calls raise. *)
Definition fail_later (n : nat) (prompt : string) : Result string :=
  match n with
  | O => Ok "first answer"
  | S _ => Raise rate_limited
  end.

Definition query (completion : nat -> string -> Result string) :=
  process_query Str.ascii_lower Str.ascii_strip completion Demo.flat_score
                Demo.max_attempts Demo.accept_threshold.

Definition consensus (completion : nat -> string -> Result string) :=
  get_multi_agent_consensus Str.ascii_lower Str.ascii_strip completion
                            Demo.retrieve_and_rank Demo.flat_score
                            Demo.max_attempts Demo.accept_threshold.

(** A provider whose first three answers are drafts, a checker that grades
    the drafts 10, 20 and 36 and any other answer 24, a budget of three
    attempts, and a General agent that accepts from 20 on. *)
Definition drafting (n : nat) (prompt : string) : Result string :=
  match n with
  | 0%nat => Ok "draft one"
  | 1%nat => Ok "draft two"
  | 2%nat => Ok "draft three"
  | _ => Ok "general answer"
  end.

Definition grade (answer question : string) : QualityReport :=
  if String.eqb answer "draft one" then mkQualityReport 10 ["too short"]
  else if String.eqb answer "draft two" then mkQualityReport 20 ["too short"]
  else if String.eqb answer "draft three" then mkQualityReport 36 ["too short"]
  else mkQualityReport 24 [].

Definition three_attempts (agent : AgentType.t) : nat := 3.

Definition lenient_general (agent : AgentType.t) : Q :=
  match agent with
  | AgentType.GENERAL => 20
  | _ => 80
  end.

Definition graded_query :=
  process_query Str.ascii_lower Str.ascii_strip drafting grade
                three_attempts lenient_general.

Definition graded_consensus :=
  get_multi_agent_consensus Str.ascii_lower Str.ascii_strip drafting
                            Demo.retrieve_and_rank grade
                            three_attempts lenient_general.

(** A two-word file and an index that is not listed. *)
Definition two_words (text : string) : list string := ["clean"; "teeth"].

End Scenario.

(** ** final_load.py, check_chunks.py and advanced_setup.py: the data scripts

    The scripts talk to the file system, to the embedding endpoint and to
    the vector index.  Every such call is recorded in a trace, and what it
    returns, or that it raises, is read from an oracle at the call's
    position in the trace.  [None] as the outcome of a computation is an
    exception that propagates. *)

Module DataScripts.

Definition Embedding : Type := list Q.

Inductive Call : Type :=
| NewOpenAI
| NewPinecone
| ListIndexes
| CreateIndex (name : string)
| OpenIndex (name : string)
| FileExists (path : string)
| ReadFile (path : string)
| Embed (input : string)
| Upsert (id : string) (values : Embedding) (text : string) (chunk_id : nat)
| DescribeStats
| TestCompletion
| SetupLogging
| MakeDir (name : string)
| StartServer.

Definition Run (A : Type) : Type := list Call -> option A * list Call.

Definition ret {A} (a : A) : Run A := fun trace => (Some a, trace).

Definition bind {A B} (c : Run A) (k : A -> Run B) : Run B :=
  fun trace =>
    match c trace with
    | (Some a, trace') => k a trace'
    | (None, trace') => (None, trace')
    end.

(** [try: body except Exception: handler] *)
Definition try_except {A} (body : Run A) (handler : Run A) : Run A :=
  fun trace =>
    match body trace with
    | (Some a, trace') => (Some a, trace')
    | (None, trace') => handler trace'
    end.

(** A call whose outcome is the oracle's answer at this position. *)
Definition call {A} (c : Call) (oracle : nat -> option A) : Run A :=
  fun trace => (oracle (List.length trace), (trace ++ [c])%list).

Definition check (c : Call) (oracle : nat -> bool) : Run unit :=
  call c (fun n => if oracle n then Some tt else None).

Declare Scope run_scope.
Delimit Scope run_scope with run.
Notation "x <- c ;; k" := (bind c (fun x => k))
  (at level 61, c at next level, right associativity) : run_scope.

Definition index_name : string := "rag-index".
Definition data_file : string := "plain_text_crawled_data (1) (1).txt".
Definition chunk_size : nat := 300.

(** [name in names] *)
Definition mem (name : string) (names : list string) : bool :=
  existsb (String.eqb name) names.

(** [range(start, stop, step)] for a positive step; [fuel] bounds the
    number of elements, [stop - start] is enough. *)
Fixpoint range_from (fuel start stop step : nat) : list nat :=
  match fuel with
  | O => []
  | S fuel' =>
      if (start <? stop)%nat then start :: range_from fuel' (start + step) stop step
      else []
  end.

Definition py_range (start stop step : nat) : list nat :=
  range_from (stop - start) start stop step.

(** [l[lo:hi]] for [lo <= hi] *)
Definition slice {A} (l : list A) (lo hi : nat) : list A :=
  firstn (hi - lo) (skipn lo l).

(** The chunking loop of [load_data_properly]:
    [for i in range(0, len(words), chunk_size):
       chunks.append(' '.join(words[i:i + chunk_size]))] *)
Definition make_chunks (words : list string) : list string :=
  map (fun i => Str.join " " (slice words i (i + chunk_size)))
      (py_range 0 (List.length words) chunk_size).

(** [check_data_chunks]:
    [len(words) // chunk_size + (1 if len(words) % chunk_size > 0 else 0)] *)
Definition total_chunks (words : list string) : nat :=
  (List.length words / chunk_size
   + (if (0 <? List.length words mod chunk_size) then 1 else 0))%nat.

(** [str(n)] for a natural number *)
Definition decimal (n : nat) : string := NilEmpty.string_of_uint (Nat.to_uint n).

(** How [asyncio.run(start_advanced_server())] ends: it returns, or
    raises [KeyboardInterrupt], or raises another exception. *)
Inductive ServeOutcome : Type := Stopped | Interrupted | Crashed.

Inductive ExitStatus : Type := Finished | Exit (code : nat).

Definition required_vars : list string :=
  ["OPENAI_API_KEY"; "PINECONE_API_KEY"; "PINECONE_ENVIRONMENT"].

Definition required_packages : list string :=
  ["openai"; "pinecone"; "fastapi"; "uvicorn"; "tiktoken"; "loguru"].

Section Scripts.

Local Open Scope run_scope.

(** [str.split()] and the built-in [hash] *)
Variable split_words : string -> list string.
Variable hash : string -> Z.

(** The outcomes of the external calls, by position in the trace. *)
Variable new_openai : nat -> bool.
Variable new_pinecone : nat -> bool.
Variable list_indexes : nat -> option (list string).
Variable create_index : nat -> bool.
Variable open_index : nat -> bool.
Variable file_exists : nat -> bool.
Variable read_file : nat -> option string.
Variable embed : nat -> option Embedding.
Variable upsert : nat -> bool.
Variable total_vector_count : nat -> option nat.

(** [f"dental_chunk_{i}_{hash(chunk) % 10000}"] *)
Definition unique_id (i : nat) (chunk : string) : string :=
  "dental_chunk_" ++ decimal i ++ "_" ++ decimal (Z.to_nat (hash chunk mod 10000)).

(** The body of the embedding loop for one chunk, inside its [try]. *)
Definition store_chunk (i : nat) (chunk : string) : Run unit :=
  embedding <- call (Embed chunk) embed ;;
  let unique_id := unique_id i chunk in
  check (Upsert unique_id embedding chunk i) upsert.

(** [for i, chunk in enumerate(chunks): try: ... except Exception: continue] *)
Fixpoint store_chunks (i : nat) (chunks : list string) : Run unit :=
  match chunks with
  | [] => ret tt
  | chunk :: rest =>
      _ <- try_except (store_chunk i chunk) (ret tt) ;;
      store_chunks (S i) rest
  end.

Definition load_data_properly : Run bool :=
  try_except
    (_ <- check NewOpenAI new_openai ;;
     _ <- check NewPinecone new_pinecone ;;
     existing_indexes <- call ListIndexes list_indexes ;;
     _ <- (if negb (mem index_name existing_indexes)
           then check (CreateIndex index_name) create_index
           else ret tt) ;;
     _ <- check (OpenIndex index_name) open_index ;;
     text <- call (ReadFile data_file) read_file ;;
     let words := split_words text in
     let chunks := make_chunks words in
     _ <- store_chunks 0 chunks ;;
     stats <- call DescribeStats total_vector_count ;;
     ret true)
    (ret false).

Definition load_data_to_pinecone : Run nat :=
  success <- load_data_properly ;;
  if success
  then try_except
         (_ <- check NewPinecone new_pinecone ;;
          _ <- check (OpenIndex index_name) open_index ;;
          call DescribeStats total_vector_count)
         (ret 872%nat)
  else ret 0%nat.

(** [check_data_chunks]: the pair it returns, [None] standing for Python's
    [None]. *)
Definition check_data_chunks : Run (option nat * option nat) :=
  read <- try_except (text <- call (ReadFile data_file) read_file ;; ret (Some text))
                     (ret None) ;;
  match read with
  | None => ret (None, None)
  | Some text =>
      let words := split_words text in
      try_except
        (_ <- check NewPinecone new_pinecone ;;
         indexes <- call ListIndexes list_indexes ;;
         if mem index_name indexes
         then
           _ <- check (OpenIndex index_name) open_index ;;
           stored_chunks <- call DescribeStats total_vector_count ;;
           ret (Some (List.length words), Some stored_chunks)
         else ret (Some (List.length words), Some 0%nat))
        (ret (Some (List.length words), Some 0%nat))
  end.

(** Python's truth value of an optional count: [None] and 0 are false. *)
Definition truthy (n : option nat) : bool :=
  match n with
  | Some (S _) => true
  | _ => false
  end.

(** [setup_data] of [advanced_setup.py] *)
Definition setup_data : Run bool :=
  exists_ <- call (FileExists data_file) (fun n => Some (file_exists n)) ;;
  if negb exists_ then ret false
  else
    try_except
      (counts <- check_data_chunks ;;
       let '(word_count, chunk_count) := counts in
       if truthy word_count && truthy chunk_count
       then
         match chunk_count with
         | Some stored =>
             if (stored <? 100)%nat
             then vector_count <- load_data_to_pinecone ;; ret true
             else ret true
         | None => ret true
         end
       else ret false)
      (ret false).

(** *** advanced_setup.py: the checks and [main] *)

(** [os.getenv] after [load_dotenv], and whether a package can be imported. *)
Variable getenv : string -> option string.
Variable importable : string -> bool.

(** The outcomes of the test completion, of the logging setup, of
    [mkdir(exist_ok=True)] and of running the server. *)
Variable test_completion : nat -> bool.
Variable setup_logging : nat -> bool.
Variable mkdir : nat -> bool.
Variable serve : nat -> ServeOutcome.

(** [not os.getenv(var)]: unset and empty both count as missing. *)
Definition is_missing (var : string) : bool :=
  match getenv var with
  | None | Some EmptyString => true
  | Some (String _ _) => false
  end.

Definition check_environment : Run bool :=
  let missing_vars := filter is_missing required_vars in
  match missing_vars with
  | _ :: _ => ret false
  | [] =>
      openai_ok <- try_except
                     (_ <- check NewOpenAI new_openai ;;
                      _ <- check TestCompletion test_completion ;;
                      ret true)
                     (ret false) ;;
      if negb openai_ok then ret false
      else
        try_except
          (_ <- check NewPinecone new_pinecone ;;
           indexes <- call ListIndexes list_indexes ;;
           ret true)
          (ret false)
  end.

Definition check_advanced_dependencies : bool :=
  let missing_packages := filter (fun package => negb (importable package))
                                 required_packages in
  match missing_packages with
  | _ :: _ => false
  | [] => true
  end.

(** [for directory in directories: dir_path.mkdir(exist_ok=True)] *)
Fixpoint make_directories (directories : list string) : Run unit :=
  match directories with
  | [] => ret tt
  | directory :: rest =>
      _ <- check (MakeDir directory) mkdir ;;
      make_directories rest
  end.

Definition create_directories : Run unit :=
  make_directories ["logs"; "conversation_memory"; "temp"].

(** [main]: [sys.exit(1)] ends it with [Exit 1]; an exception that nothing
    catches is a [None] outcome. *)
Definition main : Run ExitStatus :=
  _ <- check SetupLogging setup_logging ;;
  _ <- create_directories ;;
  if negb check_advanced_dependencies then ret (Exit 1)
  else
    env_ok <- check_environment ;;
    if negb env_ok then ret (Exit 1)
    else
      data_ok <- setup_data ;;
      if negb data_ok then ret (Exit 1)
      else
        outcome <- call StartServer (fun n => Some (serve n)) ;;
        match outcome with
        | Stopped | Interrupted => ret Finished
        | Crashed => ret (Exit 1)
        end.

(** *** setup_and_run.py: the body of the script *)

(** An exception that nothing catches here. *)
Definition raise {A} : Run A := fun trace => (None, trace).

Definition setup_and_run : Run unit :=
  _ <- check_data_chunks ;;
  _ <- try_except
         (_ <- check NewPinecone new_pinecone ;;
          names <- call ListIndexes list_indexes ;;
          if mem index_name names
          then
            _ <- check (OpenIndex index_name) open_index ;;
            vector_count <- call DescribeStats total_vector_count ;;
            if (0 <? vector_count)%nat then ret tt
            else (loaded <- load_data_properly ;; ret tt)
          else (loaded <- load_data_properly ;; ret tt))
         (loaded <- load_data_properly ;; ret tt) ;;
  outcome <- call StartServer (fun n => Some (serve n)) ;;
  match outcome with
  | Stopped => ret tt
  | Interrupted | Crashed => raise
  end.

End Scripts.

(** The calls of a trace that load data: embedding, storing, creating an
    index. *)
Definition is_load_call (c : Call) : bool :=
  match c with
  | Embed _ | Upsert _ _ _ _ | CreateIndex _ => true
  | _ => false
  end.

Definition is_embed (c : Call) : bool :=
  match c with Embed _ => true | _ => false end.

Definition is_upsert (c : Call) : bool :=
  match c with Upsert _ _ _ _ => true | _ => false end.

(** A computation that never touches the trace it is given, only extends
    it, and only by calls that satisfy [P]. *)
Definition Emits {A} (P : Call -> Prop) (c : Run A) : Prop :=
  forall trace, exists r calls, c trace = (r, (trace ++ calls)%list) /\ Forall P calls.

Definition not_start (c : Call) : Prop := c <> StartServer.

(** The word lists of the chunks. *)
Definition chunk_slices (words : list string) : list (list string) :=
  map (fun i => slice words i (i + chunk_size))
      (py_range 0 (List.length words) chunk_size).

End DataScripts.

(** ** Vocabulary of the statements *)

(** [n] of the elements of a list satisfy [P]. *)
Inductive Counts {A} (P : A -> Prop) : list A -> nat -> Prop :=
| Counts_nil : Counts P [] 0
| Counts_hit x l n : P x -> Counts P l n -> Counts P (x :: l) (S n)
| Counts_miss x l n : ~ P x -> Counts P l n -> Counts P (x :: l) n.

(** The tie-breaking order among the scored categories. *)
Definition tie_priority : list QueryType.t :=
  [QueryType.DIAGNOSIS; QueryType.TREATMENT; QueryType.PREVENTION; QueryType.PROCEDURE].

(** The keyword count of a category in a lowered question. *)
Definition category_count (question_lower : string) (c : QueryType.t) : nat :=
  QueryClassifier.keyword_score (QueryClassifier.keywords_of c) question_lower.

(** The counts of the four scored categories, as a function of the category. *)
Definition count_of (d t p r : nat) (c : QueryType.t) : nat :=
  match c with
  | QueryType.DIAGNOSIS => d
  | QueryType.TREATMENT => t
  | QueryType.PREVENTION => p
  | QueryType.PROCEDURE => r
  | _ => 0%nat
  end.

(** The numbered instructions that close every reprompt. *)
Definition reprompt_instruction_lines : list string :=
  ["1. Has PROPER FORMATTING with line breaks and spacing";
   "2. Answers the question directly in first sentence";
   "3. Maintains Dr. Meenakshi Tomar's warm, caring persona";
   "4. Uses conversational language like talking to a friend";
   "5. Uses bullet points for lists with proper spacing";
   "6. Uses CONTEXTUAL emoji based on topic:";
   "7. Ends with a thoughtful follow-up question";
   "8. Is well-spaced and easy to read"].

(** The penalty for the attempts used, and the confidence before it is
    clamped. *)
Definition attempt_penalty (attempts : nat) : Q :=
  Float.mul (Float.of_int (Z.of_nat attempts - 1)) Float.tenth.

Definition unclamped_confidence (final_score : Q) (attempts : nat) : Q :=
  Float.sub (Float.div final_score 100) (attempt_penalty attempts).

Definition clamp (x : Q) : Q := py_max Float.tenth (py_min 1 x).



(** * Properties *)

(** ** Strings *)

Lemma startswith_spec (p s : string) :
  Str.startswith p s = true <-> exists b, s = p ++ b.
Proof.
  revert s; induction p as [|a p IH]; intros s; simpl.
  - split; [intros _; now exists s | reflexivity].
  - destruct s as [|b s]; simpl.
    + split; [discriminate | intros [t Ht]; discriminate].
    + destruct (Ascii.eqb_spec a b) as [->|Hne].
      * rewrite IH. split; intros [t Ht]; exists t; [now rewrite Ht | now inversion Ht].
      * split; [discriminate | intros [t Ht]; inversion Ht; congruence].
Qed.

Lemma contains_spec (k s : string) :
  Str.contains k s = true <-> Str.Substring k s.
Proof.
  unfold Str.Substring. induction s as [|c s IH]; simpl.
  - destruct (Str.startswith k EmptyString) eqn:E.
    + split; [intros _ | reflexivity].
      apply startswith_spec in E. destruct E as [b Hb].
      exists EmptyString, b. exact Hb.
    + split; [discriminate|]. intros (a & b & H).
      destruct a; [|discriminate]. simpl in H.
      assert (Str.startswith k EmptyString = true) by (apply startswith_spec; now exists b).
      congruence.
  - destruct (Str.startswith k (String c s)) eqn:E.
    + split; [intros _ | reflexivity].
      apply startswith_spec in E. destruct E as [b Hb].
      exists EmptyString, b. exact Hb.
    + rewrite IH. split.
      * intros (a & b & H). exists (String c a), b. simpl. now rewrite H.
      * intros (a & b & H). destruct a as [|c' a]; simpl in H.
        -- assert (Str.startswith k (String c s) = true)
             by (apply startswith_spec; now exists b).
           congruence.
        -- inversion H; subst. now exists a, b.
Qed.

Lemma contains_false (k s : string) :
  Str.contains k s = false <-> ~ Str.Substring k s.
Proof.
  rewrite <- contains_spec. destruct (Str.contains k s); split; congruence.
Qed.

(** ** QueryClassifier *)

(** The score of a category is the number of its keywords that occur in
    the lowered question. *)
Lemma keyword_score_counts (keywords : list string) (question_lower : string) :
  Counts (fun k => Str.Substring k question_lower) keywords
         (QueryClassifier.keyword_score keywords question_lower).
Proof.
  unfold QueryClassifier.keyword_score.
  induction keywords as [|k ks IH]; simpl.
  - constructor.
  - destruct (Str.contains k question_lower) eqn:E; simpl.
    + apply Counts_hit; [now apply contains_spec | exact IH].
    + apply Counts_miss; [now apply contains_false | exact IH].
Qed.

Lemma keyword_score_zero (keywords : list string) (question_lower : string) :
  (forall k, In k keywords -> ~ Str.Substring k question_lower) ->
  QueryClassifier.keyword_score keywords question_lower = 0%nat.
Proof.
  unfold QueryClassifier.keyword_score.
  induction keywords as [|k ks IH]; simpl; intros H; [reflexivity|].
  assert (E : Str.contains k question_lower = false)
    by (apply contains_false, H; now left).
  rewrite E. apply IH. intros k' Hk'. apply H. now right.
Qed.

Lemma emergency_check_spec (question_lower : string) :
  existsb (fun keyword => Str.contains keyword question_lower)
          (QueryClassifier.keywords_of QueryType.EMERGENCY) = true
  <-> exists k, In k (QueryClassifier.keywords_of QueryType.EMERGENCY)
                /\ Str.Substring k question_lower.
Proof.
  rewrite existsb_exists.
  split; intros (k & Hin & Hk); exists k; split; auto; now apply contains_spec.
Qed.

(** The scoring stage on the five scores, in dict order. *)
Lemma scores_unfold (s : string) :
  QueryClassifier.scores s =
  [ (QueryType.DIAGNOSIS,
     QueryClassifier.keyword_score (QueryClassifier.keywords_of QueryType.DIAGNOSIS) s);
    (QueryType.TREATMENT,
     QueryClassifier.keyword_score (QueryClassifier.keywords_of QueryType.TREATMENT) s);
    (QueryType.PREVENTION,
     QueryClassifier.keyword_score (QueryClassifier.keywords_of QueryType.PREVENTION) s);
    (QueryType.EMERGENCY,
     QueryClassifier.keyword_score (QueryClassifier.keywords_of QueryType.EMERGENCY) s);
    (QueryType.PROCEDURE,
     QueryClassifier.keyword_score (QueryClassifier.keywords_of QueryType.PROCEDURE) s) ].
Proof. reflexivity. Qed.

Ltac split_priority_at l1 l2 :=
  exists l1, l2; split; [reflexivity|];
  split; intros c Hc; simpl in Hc;
  repeat (destruct Hc as [<-|Hc]; [simpl; lia|]); contradiction.

Ltac split_priority :=
  first
    [ solve [split_priority_at (@nil QueryType.t)
               [QueryType.TREATMENT; QueryType.PREVENTION; QueryType.PROCEDURE]]
    | solve [split_priority_at [QueryType.DIAGNOSIS]
               [QueryType.PREVENTION; QueryType.PROCEDURE]]
    | solve [split_priority_at [QueryType.DIAGNOSIS; QueryType.TREATMENT]
               [QueryType.PROCEDURE]]
    | solve [split_priority_at
               [QueryType.DIAGNOSIS; QueryType.TREATMENT; QueryType.PREVENTION]
               (@nil QueryType.t)] ].

Lemma scoring_stage (d t p r : nat) :
  let sc := [ (QueryType.DIAGNOSIS, d); (QueryType.TREATMENT, t);
              (QueryType.PREVENTION, p); (QueryType.EMERGENCY, 0%nat);
              (QueryType.PROCEDURE, r) ] in
  let res := if (0 <? QueryClassifier.max_value (map snd sc))%nat
             then QueryClassifier.argmax sc else QueryType.GENERAL in
  ((d + t + p + r = 0)%nat -> res = QueryType.GENERAL) /\
  ((0 < d + t + p + r)%nat ->
   exists l1 l2, tie_priority = (l1 ++ res :: l2)%list
     /\ (forall c, In c l1 -> (count_of d t p r c < count_of d t p r res)%nat)
     /\ (forall c, In c l2 -> (count_of d t p r c <= count_of d t p r res)%nat)).
Proof.
  cbv zeta. unfold QueryClassifier.argmax, QueryClassifier.max_value.
  cbn [map snd fold_right QueryClassifier.argmax_from].
  split.
  - intros H.
    assert (d = 0 /\ t = 0 /\ p = 0 /\ r = 0)%nat as (-> & -> & -> & ->) by lia.
    reflexivity.
  - intros H.
    destruct (Nat.ltb_spec 0 (Nat.max d (Nat.max t (Nat.max p (Nat.max 0 (Nat.max r 0))))))
      as [_|Hm]; [|lia].
    destruct (Nat.ltb_spec d t); destruct (Nat.ltb_spec d p); destruct (Nat.ltb_spec t p);
    repeat match goal with
           | |- context [(?a <? ?b)%nat] => destruct (Nat.ltb_spec a b)
           end; try lia; split_priority.
Qed.

Section ClassifierFacts.

Variable lower : string -> string.

(** C1: a question whose lowered text contains an Emergency keyword is
    classified Emergency, whatever else it contains. *)
Theorem emergency_keyword_preempts (user_question : string) :
  (exists k, In k (QueryClassifier.keywords_of QueryType.EMERGENCY)
             /\ Str.Substring k (lower user_question)) ->
  QueryClassifier.classify_query lower user_question = QueryType.EMERGENCY.
Proof.
  intros H. unfold QueryClassifier.classify_query.
  apply emergency_check_spec in H. now rewrite H.
Qed.

Lemma no_emergency_check (user_question : string) :
  (forall k, In k (QueryClassifier.keywords_of QueryType.EMERGENCY) ->
             ~ Str.Substring k (lower user_question)) ->
  existsb (fun keyword => Str.contains keyword (lower user_question))
          (QueryClassifier.keywords_of QueryType.EMERGENCY) = false.
Proof.
  intros H.
  destruct (existsb _ _) eqn:E; [|reflexivity].
  apply emergency_check_spec in E. destruct E as (k & Hin & Hk).
  now apply H in Hk.
Qed.

(** Without an Emergency keyword, the classifier is the scoring stage on
    the four remaining counts. *)
Lemma classify_without_emergency (user_question : string) :
  (forall k, In k (QueryClassifier.keywords_of QueryType.EMERGENCY) ->
             ~ Str.Substring k (lower user_question)) ->
  let count := category_count (lower user_question) in
  let d := count QueryType.DIAGNOSIS in
  let t := count QueryType.TREATMENT in
  let p := count QueryType.PREVENTION in
  let r := count QueryType.PROCEDURE in
  let sc := [ (QueryType.DIAGNOSIS, d); (QueryType.TREATMENT, t);
              (QueryType.PREVENTION, p); (QueryType.EMERGENCY, 0%nat);
              (QueryType.PROCEDURE, r) ] in
  QueryClassifier.classify_query lower user_question =
  if (0 <? QueryClassifier.max_value (map snd sc))%nat
  then QueryClassifier.argmax sc else QueryType.GENERAL.
Proof.
  intros H. cbv zeta. unfold QueryClassifier.classify_query.
  rewrite (no_emergency_check _ H). rewrite scores_unfold.
  rewrite (keyword_score_zero _ _ H). reflexivity.
Qed.

Lemma count_of_category_count (s : string) (c : QueryType.t) :
  In c tie_priority ->
  count_of (category_count s QueryType.DIAGNOSIS) (category_count s QueryType.TREATMENT)
           (category_count s QueryType.PREVENTION) (category_count s QueryType.PROCEDURE) c
  = category_count s c.
Proof.
  simpl. intros [<-|[<-|[<-|[<-|[]]]]]; reflexivity.
Qed.

(** C5: without an Emergency keyword the classifier returns General when
    every count is zero, and otherwise the first category, in the order
    Diagnosis, Treatment, Prevention, Procedure, whose keyword count is
    greatest; a category with the strictly greatest count is the result. *)
Theorem classify_by_keyword_counts (user_question : string) :
  (forall k, In k (QueryClassifier.keywords_of QueryType.EMERGENCY) ->
             ~ Str.Substring k (lower user_question)) ->
  let count := category_count (lower user_question) in
  let result := QueryClassifier.classify_query lower user_question in
  ((forall c, In c tie_priority -> count c = 0%nat) -> result = QueryType.GENERAL)
  /\ ((exists c, In c tie_priority /\ (0 < count c)%nat) ->
      exists higher lower_priority,
        tie_priority = (higher ++ result :: lower_priority)%list
        /\ (forall c, In c higher -> (count c < count result)%nat)
        /\ (forall c, In c lower_priority -> (count c <= count result)%nat))
  /\ (forall c, In c tie_priority ->
       (forall c', In c' tie_priority -> c' <> c -> (count c' < count c)%nat) ->
       result = c).
Proof.
  intros H count result.
  pose proof (classify_without_emergency _ H) as E. cbv zeta in E.
  fold result in E. fold count in E.
  pose proof (scoring_stage (count QueryType.DIAGNOSIS) (count QueryType.TREATMENT)
                (count QueryType.PREVENTION) (count QueryType.PROCEDURE)) as S.
  cbv zeta in S. rewrite <- E in S. destruct S as [S0 S1].
  assert (Hpos : (exists c, In c tie_priority /\ (0 < count c)%nat) ->
      exists higher lower_priority,
        tie_priority = (higher ++ result :: lower_priority)%list
        /\ (forall c, In c higher -> (count c < count result)%nat)
        /\ (forall c, In c lower_priority -> (count c <= count result)%nat)).
  { intros (c & Hc & Hpos).
    destruct S1 as (l1 & l2 & Hsplit & Hl1 & Hl2).
    - simpl in Hc. destruct Hc as [<-|[<-|[<-|[<-|[]]]]]; lia.
    - assert (Hres : In result tie_priority)
        by (rewrite Hsplit; apply in_or_app; right; now left).
      exists l1, l2. split; [exact Hsplit|]. split; intros c' Hc'.
      + specialize (Hl1 c' Hc').
        unfold count in *. rewrite !count_of_category_count in Hl1; auto.
        rewrite Hsplit. apply in_or_app. now left.
      + specialize (Hl2 c' Hc').
        unfold count in *. rewrite !count_of_category_count in Hl2; auto.
        rewrite Hsplit. apply in_or_app. right. now right. }
  split; [|split].
  - intros Hz. apply S0.
    rewrite !Hz; simpl; auto 6.
  - exact Hpos.
  - intros c Hc Hmax.
    destruct Hpos as (l1 & l2 & Hsplit & Hl1 & Hl2).
    + exists c. split; [exact Hc|].
      simpl in Hc. destruct Hc as [<-|[<-|[<-|[<-|[]]]]].
      * specialize (Hmax QueryType.TREATMENT). simpl in Hmax.
        assert (count QueryType.TREATMENT < count QueryType.DIAGNOSIS)%nat
          by (apply Hmax; [auto|discriminate]). lia.
      * specialize (Hmax QueryType.DIAGNOSIS). simpl in Hmax.
        assert (count QueryType.DIAGNOSIS < count QueryType.TREATMENT)%nat
          by (apply Hmax; [auto|discriminate]). lia.
      * specialize (Hmax QueryType.DIAGNOSIS). simpl in Hmax.
        assert (count QueryType.DIAGNOSIS < count QueryType.PREVENTION)%nat
          by (apply Hmax; [auto|discriminate]). lia.
      * specialize (Hmax QueryType.DIAGNOSIS). simpl in Hmax.
        assert (count QueryType.DIAGNOSIS < count QueryType.PROCEDURE)%nat
          by (apply Hmax; [auto|discriminate]). lia.
    + assert (Hres : In result tie_priority)
        by (rewrite Hsplit; apply in_or_app; right; now left).
      destruct (QueryType.eqb result c) eqn:Eq.
      * destruct result, c; simpl in Eq; congruence.
      * assert (Hne : result <> c) by (intros ->; destruct c; discriminate).
        specialize (Hmax result Hres Hne).
        rewrite Hsplit in Hc. apply in_app_or in Hc. destruct Hc as [Hc|[Hc|Hc]].
        -- specialize (Hl1 c Hc). lia.
        -- congruence.
        -- specialize (Hl2 c Hc). lia.
Qed.

(** C10: without an Emergency keyword the classifier never answers
    Emergency: that category's count is zero in the scoring stage. *)
Theorem no_emergency_keyword_never_emergency (user_question : string) :
  (forall k, In k (QueryClassifier.keywords_of QueryType.EMERGENCY) ->
             ~ Str.Substring k (lower user_question)) ->
  category_count (lower user_question) QueryType.EMERGENCY = 0%nat
  /\ QueryClassifier.classify_query lower user_question <> QueryType.EMERGENCY.
Proof.
  intros H. split.
  - apply keyword_score_zero, H.
  - pose proof (classify_without_emergency _ H) as E. cbv zeta in E. rewrite E.
    set (d := category_count _ QueryType.DIAGNOSIS).
    set (t := category_count _ QueryType.TREATMENT).
    set (p := category_count _ QueryType.PREVENTION).
    set (r := category_count _ QueryType.PROCEDURE).
    destruct (Nat.eq_dec (d + t + p + r) 0) as [Hz|Hnz].
    + rewrite (proj1 (scoring_stage d t p r) Hz). discriminate.
    + destruct (proj2 (scoring_stage d t p r)) as (l1 & l2 & Hsplit & _); [lia|].
      cbv zeta in Hsplit. intros Habs. rewrite Habs in Hsplit.
      assert (Hin : In QueryType.EMERGENCY tie_priority)
        by (rewrite Hsplit; apply in_or_app; right; now left).
      simpl in Hin. intuition discriminate.
Qed.

End ClassifierFacts.

(** ** Comparisons of floats *)

Lemma Qlt_bool_true (x y : Q) : Qlt_bool x y = true <-> x < y.
Proof.
  unfold Qlt_bool. rewrite negb_true_iff.
  destruct (Qle_bool y x) eqn:E.
  - apply Qle_bool_iff in E. split; [discriminate|]. intros H.
    exfalso. exact (Qlt_not_le _ _ H E).
  - split; [intros _ | reflexivity].
    apply Qnot_le_lt. intros H. apply Qle_bool_iff in H. congruence.
Qed.

Lemma Qlt_bool_false (x y : Q) : Qlt_bool x y = false <-> y <= x.
Proof.
  destruct (Qlt_bool x y) eqn:E.
  - apply Qlt_bool_true in E. split; [discriminate|].
    intros H. exfalso. exact (Qlt_not_le _ _ E H).
  - split; [intros _ | reflexivity].
    apply Qnot_lt_le. intros H. apply Qlt_bool_true in H. congruence.
Qed.

Lemma py_min_cases (a b : Q) :
  (b < a /\ py_min a b = b) \/ (a <= b /\ py_min a b = a).
Proof.
  unfold py_min. destruct (Qlt_bool b a) eqn:E.
  - left. split; [now apply Qlt_bool_true | reflexivity].
  - right. split; [now apply Qlt_bool_false | reflexivity].
Qed.

Lemma py_max_cases (a b : Q) :
  (a < b /\ py_max a b = b) \/ (b <= a /\ py_max a b = a).
Proof.
  unfold py_max. destruct (Qlt_bool a b) eqn:E.
  - left. split; [now apply Qlt_bool_true | reflexivity].
  - right. split; [now apply Qlt_bool_false | reflexivity].
Qed.




(** ** Floats *)

Module FloatFacts.
Import Float.

Lemma two_power_pos (e : Z) : 0 < 2 ^ e.
Proof. apply Qpower_0_lt. reflexivity. Qed.

Lemma two_power_add (a b : Z) : 2 ^ (a + b) == 2 ^ a * 2 ^ b.
Proof. apply Qpower_plus. discriminate. Qed.

Lemma two_power_le (a b : Z) : (a <= b)%Z -> 2 ^ a <= 2 ^ b.
Proof. intros H. apply Qpower_le_compat_l; [exact H | discriminate]. Qed.

Lemma two_power_Z (n : Z) : (0 <= n)%Z -> 2 ^ n == inject_Z (2 ^ n).
Proof. intros H. symmetry. apply (Zpower_Qpower 2 n H). Qed.

Lemma two_power_quotient (a b : Z) : 2 ^ a / 2 ^ b == 2 ^ (a - b).
Proof.
  unfold Zminus. rewrite two_power_add, Qpower_opp. reflexivity.
Qed.

Lemma floor_log2_spec (x : Q) :
  0 < x -> 2 ^ floor_log2 x <= x /\ x < 2 ^ (floor_log2 x + 1).
Proof.
  intros Hx. unfold floor_log2.
  set (p := Qnum x). set (q := Zpos (Qden x)).
  assert (Hp : (0 < p)%Z).
  { unfold p. destruct x as [n d]. unfold Qlt in Hx. simpl in *. lia. }
  assert (Hq : (0 < q)%Z) by reflexivity.
  assert (Hxq : x * inject_Z q == inject_Z p).
  { unfold p, q. destruct x as [n d]. unfold Qeq. simpl.
    rewrite Pos.mul_1_r. ring. }
  assert (Hq' : 0 < inject_Z q) by (change 0 with (inject_Z 0); now rewrite <- Zlt_Qlt).
  destruct (Z.log2_spec p Hp) as [Hp1 Hp2].
  destruct (Z.log2_spec q Hq) as [Hq1 Hq2].
  pose proof (Z.log2_nonneg p) as Hlp. pose proof (Z.log2_nonneg q) as Hlq.
  set (lp := Z.log2 p) in *. set (lq := Z.log2 q) in *.
  assert (Hp1' : 2 ^ lp <= inject_Z p)
    by (rewrite two_power_Z by exact Hlp; now rewrite <- Zle_Qle).
  assert (Hp2' : inject_Z p < 2 ^ (lp + 1)).
  { rewrite two_power_Z by lia. rewrite <- Zlt_Qlt. exact Hp2. }
  assert (Hq1' : 2 ^ lq <= inject_Z q)
    by (rewrite two_power_Z by exact Hlq; now rewrite <- Zle_Qle).
  assert (Hq2' : inject_Z q < 2 ^ (lq + 1)).
  { rewrite two_power_Z by lia. rewrite <- Zlt_Qlt. exact Hq2. }
  assert (Hup : x < 2 ^ (lp - lq + 1)).
  { apply (Qmult_lt_r _ _ (inject_Z q) Hq'). rewrite Hxq.
    eapply Qlt_le_trans; [exact Hp2'|].
    replace (lp + 1)%Z with ((lp - lq + 1) + lq)%Z by ring.
    rewrite two_power_add.
    apply Qmult_le_l; [apply two_power_pos | exact Hq1']. }
  assert (Hlow : 2 ^ (lp - lq - 1) < x).
  { apply (Qmult_lt_r _ _ (inject_Z q) Hq'). rewrite Hxq.
    eapply Qlt_le_trans; [|exact Hp1'].
    replace lp with ((lp - lq - 1) + (lq + 1))%Z at 2 by ring.
    rewrite two_power_add.
    apply Qmult_lt_l; [apply two_power_pos | exact Hq2']. }
  destruct (Qle_bool (2 ^ (lp - lq)) x) eqn:E.
  - apply Qle_bool_iff in E. split; assumption.
  - split; [now apply Qlt_le_weak|].
    replace (lp - lq - 1 + 1)%Z with (lp - lq)%Z by ring.
    apply Qnot_le_lt. intros H. apply Qle_bool_iff in H. congruence.
Qed.


Lemma floor_log2_monotone (x y : Q) :
  0 < x -> x <= y -> (floor_log2 x <= floor_log2 y)%Z.
Proof.
  intros Hx Hxy.
  assert (Hy : 0 < y) by (eapply Qlt_le_trans; eassumption).
  destruct (floor_log2_spec x Hx) as [Hlo _].
  destruct (floor_log2_spec y Hy) as [_ Hhi].
  assert (H : (floor_log2 x < floor_log2 y + 1)%Z).
  { apply (Qpower_lt_compat_l_inv 2); [|reflexivity].
    eapply Qle_lt_trans; [exact Hlo|]. eapply Qle_lt_trans; [exact Hxy | exact Hhi]. }
  lia.
Qed.

Lemma round_half_even_bounds (x : Q) :
  (Qfloor x <= round_half_even x <= Qfloor x + 1)%Z.
Proof.
  unfold round_half_even.
  destruct (Qcompare _ _); [destruct (Z.even _)| |]; lia.
Qed.

Lemma round_half_even_monotone (x y : Q) :
  x <= y -> (round_half_even x <= round_half_even y)%Z.
Proof.
  intros Hxy.
  pose proof (Qfloor_resp_le x y Hxy) as Hf.
  destruct (Z.eq_dec (Qfloor x) (Qfloor y)) as [E|E].
  - unfold round_half_even. rewrite <- E.
    destruct (Qcompare_spec (x - inject_Z (Qfloor x)) (1 # 2)) as [H1|H1|H1];
      destruct (Qcompare_spec (y - inject_Z (Qfloor x)) (1 # 2)) as [H2|H2|H2];
      try (destruct (Z.even (Qfloor x))); try lia; exfalso; lra.
  - pose proof (round_half_even_bounds x). pose proof (round_half_even_bounds y). lia.
Qed.

Lemma round_half_even_Z (n : Z) : round_half_even (inject_Z n) = n.
Proof.
  unfold round_half_even. rewrite Qfloor_Z.
  destruct (Qcompare_spec (inject_Z n - inject_Z n) (1 # 2)) as [H|H|H];
    [exfalso; lra | reflexivity | exfalso; lra].
Qed.

Lemma round_half_even_le (x : Q) (n : Z) :
  x <= inject_Z n -> (round_half_even x <= n)%Z.
Proof.
  intros H. rewrite <- (round_half_even_Z n). now apply round_half_even_monotone.
Qed.

Lemma round_half_even_ge (x : Q) (n : Z) :
  inject_Z n <= x -> (n <= round_half_even x)%Z.
Proof.
  intros H. rewrite <- (round_half_even_Z n) at 1. now apply round_half_even_monotone.
Qed.


Lemma scaled_le (x y : Q) (e : Z) : x <= y -> x / 2 ^ e <= y / 2 ^ e.
Proof.
  intros H. unfold Qdiv. apply Qmult_le_compat_r; [exact H|].
  apply Qinv_le_0_compat, Qlt_le_weak, two_power_pos.
Qed.

Lemma exponent_monotone (x y : Q) :
  0 < x -> x <= y -> (exponent x <= exponent y)%Z.
Proof.
  intros Hx Hxy. unfold exponent.
  pose proof (floor_log2_monotone x y Hx Hxy). lia.
Qed.

Lemma round_positive_nonneg (x : Q) : 0 < x -> 0 <= round_positive x.
Proof.
  intros Hx. unfold round_positive.
  apply Qmult_le_0_compat; [|apply Qlt_le_weak, two_power_pos].
  change 0 with (inject_Z 0). rewrite <- Zle_Qle.
  apply round_half_even_ge. apply Qle_shift_div_l; [apply two_power_pos|].
  change (inject_Z 0) with 0. rewrite Qmult_0_l. apply Qlt_le_weak, Hx.
Qed.

Lemma round_positive_monotone (x y : Q) :
  0 < x -> x <= y -> round_positive x <= round_positive y.
Proof.
  intros Hx Hxy.
  assert (Hy : 0 < y) by (eapply Qlt_le_trans; eassumption).
  pose proof (exponent_monotone x y Hx Hxy) as He.
  destruct (Z.eq_dec (exponent x) (exponent y)) as [E|E].
  - unfold round_positive. rewrite E.
    apply Qmult_le_compat_r; [|apply Qlt_le_weak, two_power_pos].
    rewrite <- Zle_Qle. apply round_half_even_monotone, scaled_le, Hxy.
  - assert (Hey : exponent y = (floor_log2 y - (precision - 1))%Z)
      by (unfold exponent in *; lia).
    assert (Hfl : (floor_log2 x < floor_log2 y)%Z) by (unfold exponent in *; lia).
    destruct (floor_log2_spec x Hx) as [_ Hxhi].
    destruct (floor_log2_spec y Hy) as [Hylo _].
    apply Qle_trans with (2 ^ floor_log2 y).
    + unfold round_positive. set (ex := exponent x) in *.
      assert (Hn : (0 <= floor_log2 y - ex)%Z) by (unfold precision in *; lia).
      assert (HK : 2 ^ floor_log2 y == inject_Z (2 ^ (floor_log2 y - ex)) * 2 ^ ex).
      { rewrite <- two_power_Z by exact Hn. rewrite <- two_power_add.
        replace (floor_log2 y - ex + ex)%Z with (floor_log2 y) by ring. reflexivity. }
      rewrite HK.
      apply Qmult_le_compat_r; [|apply Qlt_le_weak, two_power_pos].
      rewrite <- Zle_Qle. apply round_half_even_le.
      rewrite <- two_power_Z by exact Hn. rewrite <- two_power_quotient.
      apply scaled_le. apply Qlt_le_weak.
      eapply Qlt_le_trans; [exact Hxhi|]. apply two_power_le. lia.
    + unfold round_positive. rewrite Hey.
      set (ey := (floor_log2 y - (precision - 1))%Z).
      assert (HK : 2 ^ floor_log2 y == inject_Z (2 ^ (precision - 1)) * 2 ^ ey).
      { rewrite <- two_power_Z by (unfold precision; lia). rewrite <- two_power_add.
        replace (precision - 1 + ey)%Z with (floor_log2 y) by (unfold ey; ring).
        reflexivity. }
      rewrite HK.
      apply Qmult_le_compat_r; [|apply Qlt_le_weak, two_power_pos].
      rewrite <- Zle_Qle. apply round_half_even_ge.
      rewrite <- two_power_Z by (unfold precision; lia).
      replace (precision - 1)%Z with (floor_log2 y - ey)%Z by (unfold ey; ring).
      rewrite <- two_power_quotient. apply scaled_le, Hylo.
Qed.

(** Rounding is monotone. *)
Lemma round_monotone (x y : Q) : x <= y -> round x <= round y.
Proof.
  intros Hxy. unfold round. rewrite !Qred_correct.
  destruct (Qcompare_spec x 0) as [Hx|Hx|Hx];
    destruct (Qcompare_spec y 0) as [Hy|Hy|Hy]; try (exfalso; lra).
  - apply Qle_refl.
  - now apply round_positive_nonneg.
  - assert (H : 0 <= round_positive (- x)) by (apply round_positive_nonneg; lra). lra.
  - assert (H : round_positive (- y) <= round_positive (- x))
      by (apply round_positive_monotone; lra).
    lra.
  - assert (H1 : 0 <= round_positive (- x)) by (apply round_positive_nonneg; lra).
    assert (H2 : 0 <= round_positive y) by now apply round_positive_nonneg.
    lra.
  - now apply round_positive_monotone.
Qed.

Lemma round_compat (x y : Q) : x == y -> round x == round y.
Proof.
  intros H. apply Qle_antisym; apply round_monotone; rewrite H; apply Qle_refl.
Qed.





End FloatFacts.

(** ** The confidence formula *)

Import FloatFacts.

Lemma round_one : Float.round 1 = 1.
Proof. vm_compute. reflexivity. Qed.


Lemma tenth_value : Float.tenth = 3602879701896397 # 36028797018963968.
Proof. vm_compute. reflexivity. Qed.

Lemma tenth_bounds : 1 # 10 < Float.tenth /\ Float.tenth < 1 # 8.
Proof. rewrite tenth_value. split; reflexivity. Qed.


Lemma of_int_monotone (a b : Z) : (a <= b)%Z -> Float.of_int a <= Float.of_int b.
Proof. intros H. apply round_monotone. now rewrite <- Zle_Qle. Qed.

Lemma attempt_penalty_monotone (n m : nat) :
  (n <= m)%nat -> attempt_penalty n <= attempt_penalty m.
Proof.
  intros H. unfold attempt_penalty, Float.mul. apply round_monotone.
  apply Qmult_le_compat_r; [apply of_int_monotone; lia|].
  rewrite tenth_value. discriminate.
Qed.




Lemma base_confidence_le_one (s : Q) : s <= 100 -> Float.div s 100 <= 1.
Proof.
  intros H. unfold Float.div.
  apply Qle_trans with (Float.round 1); [|rewrite round_one; apply Qle_refl].
  apply round_monotone. apply Qle_shift_div_r; [reflexivity | lra].
Qed.






Lemma confidence_nonempty (qs : list QualityReport) (final : QualityReport) :
  BaseAgent.last_report qs = Some final ->
  BaseAgent._calculate_confidence qs
  = clamp (unclamped_confidence (overall_score final) (List.length qs)).
Proof.
  intros H. unfold BaseAgent._calculate_confidence. now rewrite H.
Qed.








(** ** The event log *)

Lemma completion_calls_app (l1 l2 : list Event) :
  completion_calls (l1 ++ l2) = (completion_calls l1 + completion_calls l2)%nat.
Proof.
  unfold completion_calls. now rewrite filter_app, length_app.
Qed.

Lemma completion_calls_map (prompts : list string) :
  completion_calls (map Completion prompts) = List.length prompts.
Proof.
  unfold completion_calls. induction prompts; simpl; auto.
Qed.

Lemma agent_runs_app (l1 l2 : list Event) :
  agent_runs (l1 ++ l2) = (agent_runs l1 ++ agent_runs l2)%list.
Proof. unfold agent_runs. apply filter_app. Qed.

Lemma agent_runs_completions (prompts : list string) :
  agent_runs (map Completion prompts) = [].
Proof. unfold agent_runs. induction prompts; simpl; auto. Qed.

(** ** The refinement loop and the agents *)

Section EngineFacts.

Variable lower : string -> string.
Variable strip : string -> string.
Variable completion : nat -> string -> Result string.
Variable retrieve_and_rank : string -> string * list string.
Variable score : string -> string -> QualityReport.
Variable max_attempts : AgentType.t -> nat.
Variable accept_threshold : AgentType.t -> Q.

Local Notation "'rounds'" := (refinement_rounds completion score).
Local Notation "'loop'" := (refinement_loop completion score max_attempts accept_threshold).
Local Notation "'query'" :=
  (process_query lower strip completion score max_attempts accept_threshold).
Local Notation "'prompt_of'" := (full_prompt_of lower).
Local Notation "'consult'" :=
  (process_consultation lower strip completion retrieve_and_rank score
                        max_attempts accept_threshold).
Local Notation "'consensus'" :=
  (get_multi_agent_consensus lower strip completion retrieve_and_rank score
                             max_attempts accept_threshold).

Lemma attempt_completion_run (prompt : string) (log : list Event) :
  attempt_completion completion prompt log =
  (match completion (completion_calls log) prompt with
   | Ok text => Ok (Some text)
   | Raise invalid_request => Raise invalid_request
   | Raise _ => Ok None
   end,
   (log ++ [Completion prompt])%list).
Proof.
  unfold attempt_completion, try_except, bind, create_completion, ret, raise.
  destruct (completion (completion_calls log) prompt) as [text|[]]; reflexivity.
Qed.

(** The later rounds only record completion calls, at most [budget] of
    them, and only append to the history. *)
Lemma refinement_rounds_run (threshold : Q) (original user_question : string)
      (budget : nat) :
  forall failed history current log,
  exists result prompts,
    rounds threshold original user_question budget failed history current log
    = (result, (log ++ map Completion prompts)%list)
    /\ (List.length prompts <= budget)%nat
    /\ forall state history',
        result = Ok (state, history') -> exists added, history' = (history ++ added)%list.
Proof.
  induction budget as [|budget IH]; intros failed history current log.
  - exists (Ok (if failed then Aborted else Exhausted, history)), [].
    simpl. unfold ret. rewrite app_nil_r.
    split; [reflexivity|]. split; [lia|].
    intros state history' H. injection H as _ <-. exists []. now rewrite app_nil_r.
  - cbn [refinement_rounds]. unfold bind at 1. rewrite attempt_completion_run.
    destruct (completion _ _) as [text|e].
    + destruct (Qle_bool threshold _).
      * eexists (Ok (Accepted, _)), [_]. unfold ret.
        split; [reflexivity|]. split; [simpl; lia|].
        intros state history' H. injection H as _ <-. now eexists.
      * edestruct IH as (result & prompts & E & Hp & Hadd).
        rewrite E. exists result. eexists (_ :: prompts).
        rewrite <- app_assoc.
        split; [reflexivity|]. split; [simpl; lia|].
        intros state history' H. destruct (Hadd _ _ H) as (added & ->).
        rewrite <- app_assoc. now eexists.
    + destruct e.
      * edestruct IH as (result & prompts & E & Hp & Hadd).
        rewrite E. exists result. eexists (_ :: prompts).
        rewrite <- app_assoc.
        split; [reflexivity|]. split; [simpl; lia|]. exact Hadd.
      * edestruct IH as (result & prompts & E & Hp & Hadd).
        rewrite E. exists result. eexists (_ :: prompts).
        rewrite <- app_assoc.
        split; [reflexivity|]. split; [simpl; lia|]. exact Hadd.
      * eexists (Raise invalid_request), [_].
        split; [reflexivity|]. split; [simpl; lia|]. discriminate.
Qed.

Lemma refinement_loop_run (self : AgentType.t) (original user_question initial : string)
      (log : list Event) :
  exists result prompts,
    loop self original user_question initial log
    = (result, (log ++ map Completion prompts)%list)
    /\ (List.length prompts <= max_attempts self - 1)%nat
    /\ forall state history,
        result = Ok (state, history) ->
        exists rest,
          history = mkAttempt 1 initial (score initial user_question) :: rest.
Proof.
  unfold refinement_loop.
  destruct (Qle_bool _ _).
  - eexists (Ok (Accepted, _)), []. unfold ret. simpl. rewrite app_nil_r.
    split; [reflexivity|]. split; [lia|].
    intros state history H. injection H as _ <-. now exists [].
  - edestruct refinement_rounds_run as (result & prompts & E & Hp & Hadd).
    rewrite E. exists result, prompts.
    split; [reflexivity|]. split; [exact Hp|].
    intros state history H. destruct (Hadd _ _ H) as (added & ->). now exists added.
Qed.

Lemma process_query_run (self : AgentType.t) (user_question context : string)
      (query_type : option QueryType.t) (log : list Event) :
  let prompt := prompt_of self user_question context query_type in
  let log1 := (log ++ [AgentRun self user_question context])%list in
  let log2 := (log1 ++ [Completion prompt])%list in
  query self user_question context query_type log =
  match completion (completion_calls log) prompt with
  | Raise _ => (Ok (BaseAgent.fallback_response self), log2)
  | Ok initial =>
      match loop self prompt user_question initial log2 with
      | (Ok (state, history), log3) =>
          (Ok (response_of lower strip self initial state history), log3)
      | (Raise _, log3) => (Ok (BaseAgent.fallback_response self), log3)
      end
  end.
Proof.
  cbv zeta. unfold process_query, bind at 1, emit, try_except.
  unfold bind at 1, create_completion.
  rewrite completion_calls_app. simpl. rewrite Nat.add_0_r.
  destruct (completion (completion_calls log) _) as [initial|e]; [|reflexivity].
  unfold improve_response_with_reprompting, bind.
  destruct (refinement_loop _ _ _ _ _ _ _ _ _) as [[[state history]|e] log3];
    [|reflexivity].
  unfold ret, response_of.
  destruct (loop_outcome initial state history) as [[final_response attempts] qs].
  reflexivity.
Qed.

(** An agent never raises: it answers, records its own run first and then
    only completion calls, at most one per attempt of its budget. *)
Lemma process_query_log (self : AgentType.t) (user_question context : string)
      (query_type : option QueryType.t) (log : list Event) :
  exists resp prompts,
    query self user_question context query_type log
    = (Ok resp,
       (log ++ AgentRun self user_question context
            :: map Completion
                 (prompt_of self user_question context query_type :: prompts))%list)
    /\ agent_type resp = self
    /\ (List.length prompts <= max_attempts self - 1)%nat.
Proof.
  pose proof (process_query_run self user_question context query_type log) as E.
  cbv zeta in E. rewrite E. clear E.
  destruct (completion _ _) as [initial|e].
  - destruct (refinement_loop_run self
                (prompt_of self user_question context query_type)
                user_question initial
                ((log ++ [AgentRun self user_question context])
                   ++ [Completion (prompt_of self user_question context query_type)])%list)
      as (result & prompts & E & Hp & _).
    rewrite E. destruct result as [[state history]|e].
    + eexists _, prompts. rewrite <- !app_assoc. simpl.
      split; [reflexivity|]. split; [|exact Hp].
      unfold response_of. destruct (loop_outcome _ _ _) as [[? ?] ?]. reflexivity.
    + eexists _, prompts. rewrite <- !app_assoc. simpl.
      split; [reflexivity|]. split; [reflexivity|exact Hp].
  - eexists _, []. rewrite <- !app_assoc. simpl.
    split; [reflexivity|]. split; [reflexivity|lia].
Qed.





Lemma consult_run (user_question : string) (log : list Event) :
  consult user_question log
  = query (route_query lower user_question) user_question
          (fst (retrieve_and_rank user_question)) None
          (log ++ [Retrieved user_question])%list.
Proof.
  unfold process_consultation, retrieve, bind, emit, ret.
  destruct (retrieve_and_rank user_question) as [ctx chunks]. simpl fst.
  destruct (process_query _ _ _ _ _ _ _ _ _ _ _) as [[resp|e] log']; reflexivity.
Qed.

Lemma consensus_run (user_question : string) (log : list Event) :
  consensus user_question log =
  match query (route_query lower user_question) user_question
              (fst (retrieve_and_rank user_question)) None
              (log ++ [Retrieved user_question])%list with
  | (Ok p, log2) =>
      if AgentType.eqb (route_query lower user_question) AgentType.GENERAL
      then (Ok p, log2)
      else match query AgentType.GENERAL user_question
                       (fst (retrieve_and_rank user_question)) None log2 with
           | (Ok s, log3) => (Ok (max_by consensus_key p [s]), log3)
           | (Raise e, log3) => (Raise e, log3)
           end
  | (Raise e, log2) => (Raise e, log2)
  end.
Proof.
  unfold get_multi_agent_consensus, retrieve, bind, emit, ret.
  destruct (retrieve_and_rank user_question) as [ctx chunks]. simpl fst.
  destruct (process_query _ _ _ _ _ _ _ _ _ _ _) as [[p|e] log2]; [|reflexivity].
  destruct (AgentType.eqb _ _); [reflexivity|].
  destruct (process_query _ _ _ _ _ _ _ _ _ _ _) as [[s|e] log3]; reflexivity.
Qed.

Lemma agent_runs_of_query (log : list Event) (self : AgentType.t)
      (user_question context : string) (prompts : list string) :
  agent_runs (log ++ AgentRun self user_question context :: map Completion prompts)
  = (agent_runs log ++ [AgentRun self user_question context])%list.
Proof.
  rewrite agent_runs_app. f_equal.
  unfold agent_runs at 1. simpl. f_equal. apply agent_runs_completions.
Qed.

Lemma AgentType_eqb_eq (a b : AgentType.t) : AgentType.eqb a b = true <-> a = b.
Proof.
  split; [destruct a, b; simpl; congruence | intros ->; destruct b; reflexivity].
Qed.

Lemma fallback_product_zero (self : AgentType.t) :
  Float.mul (quality_score (BaseAgent.fallback_response self))
            (confidence (BaseAgent.fallback_response self)) == 0.
Proof. reflexivity. Qed.

(** C3: when the first completion call of an agent raises, the agent
    returns the fixed fallback message with confidence 0, marked with the
    agent's own type; a consultation routed to that agent returns the same
    response; a consensus then still runs the General agent and returns
    its response when the product of its quality score and confidence is
    positive, and the fallback of the routed agent otherwise.  No call of
    an agent raises, whatever the provider does. *)
Theorem first_round_failure_returns_fallback
        (self : AgentType.t) (user_question context : string)
        (query_type : option QueryType.t) (log : list Event) (e : ProviderError) :
  let prompt := prompt_of self user_question context query_type in
  let fallback := BaseAgent.fallback_response self in
  let log' := (log ++ [AgentRun self user_question context; Completion prompt])%list in
  completion (completion_calls log) prompt = Raise e ->
  query self user_question context query_type log = (Ok fallback, log')
  /\ content fallback = BaseAgent.fallback_content
  /\ confidence fallback = 0
  /\ agent_type fallback = self
  /\ reasoning_steps fallback = []
  /\ quality_score fallback = 0
  /\ attempts_used fallback = 1%nat
  /\ (forall log0,
        self = route_query lower user_question ->
        context = fst (retrieve_and_rank user_question) ->
        query_type = None ->
        log = (log0 ++ [Retrieved user_question])%list ->
        consult user_question log0 = (Ok fallback, log')
        /\ (self = AgentType.GENERAL ->
            consensus user_question log0 = (Ok fallback, log'))
        /\ (self <> AgentType.GENERAL ->
            exists s best log3,
              query AgentType.GENERAL user_question context None log' = (Ok s, log3)
              /\ consensus user_question log0 = (Ok best, log3)
              /\ (0 < Float.mul (quality_score s) (confidence s) -> best = s)
              /\ (Float.mul (quality_score s) (confidence s) <= 0 -> best = fallback)))
  /\ (forall agent question context' query_type' log0,
        exists resp log1,
          query agent question context' query_type' log0 = (Ok resp, log1)).
Proof.
  intros prompt fallback log' Hfail.
  pose proof (process_query_run self user_question context query_type log) as E.
  cbv zeta in E. fold prompt in E. rewrite Hfail in E.
  rewrite <- app_assoc in E. simpl in E. fold log' in E.
  split; [exact E|]. do 6 (split; [reflexivity|]).
  split.
  - intros log0 Hself Hctx Hqt Hlog.
    assert (Ep : query (route_query lower user_question) user_question
                       (fst (retrieve_and_rank user_question)) None
                       (log0 ++ [Retrieved user_question])%list
                 = (Ok fallback, log'))
      by (rewrite <- Hself, <- Hctx, <- Hlog, <- Hqt; exact E).
    split; [rewrite consult_run; exact Ep|].
    split.
    + intros Hgeneral. rewrite consensus_run, Ep, <- Hself.
      apply AgentType_eqb_eq in Hgeneral. now rewrite Hgeneral.
    + intros Hother.
      destruct (process_query_log AgentType.GENERAL user_question context None log')
        as (s & calls & Es & _ & _).
      exists s, (max_by consensus_key fallback [s]). eexists.
      split; [exact Es|]. split.
      * rewrite consensus_run, Ep, <- Hself.
        destruct (AgentType.eqb self AgentType.GENERAL) eqn:Eg;
          [apply AgentType_eqb_eq in Eg; contradiction|].
        rewrite <- Hctx, Es. reflexivity.
      * pose proof (fallback_product_zero self) as Hz. fold fallback in Hz.
        cbn [max_by]. unfold consensus_key at 1 2.
        destruct (Qlt_bool _ _) eqn:Ek.
        -- apply Qlt_bool_true in Ek. rewrite Hz in Ek.
           split; [reflexivity | intros H; exfalso; exact (Qlt_not_le _ _ Ek H)].
        -- apply Qlt_bool_false in Ek. rewrite Hz in Ek.
           split; [intros H; exfalso; exact (Qlt_not_le _ _ H Ek) | reflexivity].
  - intros agent question context' query_type' log0.
    destruct (process_query_log agent question context' query_type' log0)
      as (resp & prompts & E0 & _).
    eauto.
Qed.


(** C4: consensus runs the routed agent and, exactly when that agent is not
    the General one, the General agent too, on the same retrieved context;
    it returns the response whose product of quality score and confidence,
    as the float multiplication computes it, is the greater one, and the
    primary response when the two products are equal. *)
Theorem consensus_selects_best_primary_on_tie
        (user_question : string) (log : list Event) :
  let context := fst (retrieve_and_rank user_question) in
  let primary := route_query lower user_question in
  let log1 := (log ++ [Retrieved user_question])%list in
  let product := fun r : AgentResponse => Float.mul (quality_score r) (confidence r) in
  exists p log2,
    query primary user_question context None log1 = (Ok p, log2)
    /\ (primary = AgentType.GENERAL ->
        consensus user_question log = (Ok p, log2)
        /\ agent_runs log2
           = (agent_runs log ++ [AgentRun primary user_question context])%list)
    /\ (primary <> AgentType.GENERAL ->
        exists s log3 best,
          query AgentType.GENERAL user_question context None log2 = (Ok s, log3)
          /\ consensus user_question log = (Ok best, log3)
          /\ agent_runs log3
             = (agent_runs log
                ++ [AgentRun primary user_question context;
                    AgentRun AgentType.GENERAL user_question context])%list
          /\ (best = p \/ best = s)
          /\ product p <= product best
          /\ product s <= product best
          /\ (product s == product p -> best = p)
          /\ (product s < product p -> best = p)
          /\ (product p < product s -> best = s)).
Proof.
  intros context primary log1 product.
  destruct (process_query_log primary user_question context None log1)
    as (p & prompts & Ep & _ & _).
  exists p. eexists. split; [exact Ep|].
  assert (Hruns1 : agent_runs log1 = agent_runs log)
    by (unfold log1; rewrite agent_runs_app; simpl; apply app_nil_r).
  rewrite consensus_run. fold context primary log1. rewrite Ep.
  split.
  - intros Hgeneral. apply AgentType_eqb_eq in Hgeneral. rewrite Hgeneral.
    split; [reflexivity|]. now rewrite agent_runs_of_query, Hruns1.
  - intros Hother.
    destruct (AgentType.eqb primary AgentType.GENERAL) eqn:Eg;
      [apply AgentType_eqb_eq in Eg; contradiction|].
    match type of Ep with
    | _ = (_, ?l) =>
        destruct (process_query_log AgentType.GENERAL user_question context None l)
          as (s & prompts' & Es & _ & _)
    end.
    exists s. eexists. exists (max_by consensus_key p [s]).
    split; [exact Es|].
    split; [now rewrite Es|].
    split.
    { rewrite !agent_runs_of_query, Hruns1, <- app_assoc. reflexivity. }
    cbn [max_by]. change (consensus_key p) with (product p).
    change (consensus_key s) with (product s).
    destruct (Qlt_bool (product p) (product s)) eqn:Ek.
    + apply Qlt_bool_true in Ek.
      split; [now right|]. split; [now apply Qlt_le_weak|]. split; [apply Qle_refl|].
      split; [intros H; exfalso; rewrite H in Ek; exact (Qlt_irrefl _ Ek)|].
      split; [intros H; exfalso; exact (Qlt_irrefl _ (Qlt_trans _ _ _ Ek H)) | reflexivity].
    + apply Qlt_bool_false in Ek.
      split; [now left|]. split; [apply Qle_refl|]. split; [exact Ek|].
      split; [reflexivity|]. split; [reflexivity|].
      intros H; exfalso; exact (Qlt_not_le _ _ H Ek).
Qed.


(** C8: the five agent types carry five different personas; Diagnosis,
    Treatment, Prevention, Emergency and General questions go to the
    agent of the same name and Procedure questions go to the Treatment
    agent; a consultation runs the routed agent, whose prompt opens with
    that agent's persona. *)
Theorem routing_and_specialist_personas (user_question : string) (log : list Event) :
  let category := QueryClassifier.classify_query lower user_question in
  let agent := route_query lower user_question in
  let context := fst (retrieve_and_rank user_question) in
  (forall a b,
      BaseAgent.get_specialist_persona a = BaseAgent.get_specialist_persona b -> a = b)
  /\ (agent = AgentType.DIAGNOSTIC <-> category = QueryType.DIAGNOSIS)
  /\ (agent = AgentType.TREATMENT <->
      category = QueryType.TREATMENT \/ category = QueryType.PROCEDURE)
  /\ (agent = AgentType.PREVENTION <-> category = QueryType.PREVENTION)
  /\ (agent = AgentType.EMERGENCY <-> category = QueryType.EMERGENCY)
  /\ (agent = AgentType.GENERAL <-> category = QueryType.GENERAL)
  /\ exists resp prompts,
      consult user_question log
      = (Ok resp,
         (log ++ Retrieved user_question
              :: AgentRun agent user_question context
              :: map Completion
                   (prompt_of agent user_question context None :: prompts))%list)
      /\ agent_type resp = agent
      /\ Str.startswith (BaseAgent.get_specialist_persona agent)
                        (prompt_of agent user_question context None) = true.
Proof.
  intros category agent context.
  split.
  { intros a b H.
    destruct (AgentType.eqb a b) eqn:E; [destruct a, b; simpl in E; congruence|].
    exfalso.
    assert (Hneq : String.eqb (BaseAgent.get_specialist_persona a)
                              (BaseAgent.get_specialist_persona b) = false)
      by (destruct a, b; simpl in E; try discriminate; vm_compute; reflexivity).
    rewrite H, String.eqb_refl in Hneq. discriminate. }
  unfold agent, route_query. fold category.
  repeat split;
    try solve [ destruct category; simpl; intros; try discriminate; auto
              | destruct category; simpl; intros [?|?]; try discriminate; auto ].
  fold (route_query lower user_question). fold agent.
  unfold process_consultation, retrieve, bind at 1, bind at 1, emit, ret.
  destruct (retrieve_and_rank user_question) as [ctx chunks] eqn:Er.
  subst context. simpl fst. fold agent.
  destruct (process_query_log agent user_question ctx None
              (log ++ [Retrieved user_question])%list)
    as (resp & prompts & E & Ha & _).
  exists resp, prompts. unfold bind. rewrite E.
  rewrite <- app_assoc. split; [reflexivity|]. split; [exact Ha|].
  apply startswith_spec. unfold full_prompt_of. eexists. reflexivity.
Qed.

End EngineFacts.

(** ** The prompts *)

Lemma append_assoc (a b c : string) : (a ++ b) ++ c = a ++ b ++ c.
Proof. induction a; simpl; congruence. Qed.

Lemma substring_app_r (k a s : string) : Str.Substring k s -> Str.Substring k (a ++ s).
Proof.
  intros (x & y & ->). exists (a ++ x), y. apply eq_sym, append_assoc.
Qed.

Lemma substring_app_l (k s b : string) : Str.Substring k s -> Str.Substring k (s ++ b).
Proof.
  intros (x & y & ->). exists x, (y ++ b).
  now rewrite !append_assoc.
Qed.

Lemma substring_self (k : string) : Str.Substring k k.
Proof.
  exists EmptyString, EmptyString. simpl.
  induction k; simpl; congruence.
Qed.

Lemma join_substring (sep x : string) (items : list string) :
  In x items -> Str.Substring x (Str.join sep items).
Proof.
  induction items as [|y items IH]; intros Hin; [contradiction|].
  destruct Hin as [->|Hin].
  - destruct items; simpl; [apply substring_self|].
    apply substring_app_l, substring_self.
  - destruct items as [|z items]; [contradiction|].
    change (Str.join sep (y :: z :: items)) with (y ++ sep ++ Str.join sep (z :: items)).
    now apply substring_app_r, substring_app_r, IH.
Qed.

(** C7: the reprompt is built from the previous answer and the defect
    list alone: a fixed opening notice, one dashed line per defect, the
    previous answer under the heading "ORIGINAL RESPONSE:", and a fixed
    list of eight instructions that ends with "IMPROVED RESPONSE:".
    Unlike every composed prompt it does not open with the persona block,
    and with an empty answer and no defects it contains neither the
    persona block nor the formatting rules of the composed prompt. *)
Theorem reprompt_built_from_answer_and_defects
        (original_response : string) (quality_issues : list string) :
  let reprompt :=
    ChainOfThoughtPrompts.get_reprompt_template original_response quality_issues in
  let itemized :=
    Str.join Str.newline (map (fun issue => "- " ++ issue) quality_issues) in
  reprompt
  = ChainOfThoughtPrompts.reprompt_opening
    ++ itemized
    ++ (Str.newline ++ Str.newline ++ "ORIGINAL RESPONSE:" ++ Str.newline)
    ++ original_response
    ++ ChainOfThoughtPrompts.reprompt_instructions
  /\ (forall issue, In issue quality_issues -> Str.Substring ("- " ++ issue) itemized)
  /\ (forall instruction,
        In instruction reprompt_instruction_lines ->
        Str.Substring instruction ChainOfThoughtPrompts.reprompt_instructions)
  /\ (exists instructions,
        ChainOfThoughtPrompts.reprompt_instructions
        = instructions ++ "IMPROVED RESPONSE:" ++ Str.newline)
  /\ Str.Substring original_response reprompt
  /\ (forall issue, In issue quality_issues -> Str.Substring ("- " ++ issue) reprompt)
  /\ Str.startswith ChainOfThoughtPrompts.reprompt_opening reprompt = true
  /\ Str.startswith ChainOfThoughtPrompts.base_persona reprompt = false
  /\ (forall query_type user_question context,
        Str.startswith ChainOfThoughtPrompts.base_persona
          (ChainOfThoughtPrompts.get_chain_of_thought_prompt
             query_type user_question context) = true)
  /\ ~ Str.Substring ChainOfThoughtPrompts.base_persona
         (ChainOfThoughtPrompts.get_reprompt_template EmptyString [])
  /\ ~ Str.Substring ChainOfThoughtPrompts.response_requirements
         (ChainOfThoughtPrompts.get_reprompt_template EmptyString []).
Proof.
  cbv zeta. unfold ChainOfThoughtPrompts.get_reprompt_template.
  split; [reflexivity|].
  split.
  { intros issue Hin. apply join_substring.
    now apply (in_map (fun issue => "- " ++ issue)). }
  split.
  { intros instruction Hin. apply contains_spec.
    unfold reprompt_instruction_lines in Hin. simpl in Hin.
    repeat (destruct Hin as [<-|Hin]; [vm_compute; reflexivity|]).
    contradiction. }
  split.
  { exists (String.substring
              0 (String.length ChainOfThoughtPrompts.reprompt_instructions - 19)
              ChainOfThoughtPrompts.reprompt_instructions).
    vm_compute. reflexivity. }
  split.
  { do 3 apply substring_app_r. apply substring_app_l, substring_self. }
  split.
  { intros issue Hin. apply substring_app_r, substring_app_l.
    apply join_substring. now apply (in_map (fun issue => "- " ++ issue)). }
  split.
  { apply startswith_spec. eexists. reflexivity. }
  split.
  { reflexivity. }
  split.
  { intros. apply startswith_spec. eexists. reflexivity. }
  split; apply contains_false; vm_compute; reflexivity.
Qed.

(** ** The theorems at concrete inputs *)

Ltac no_emergency_keyword :=
  intros k Hk; apply contains_false; vm_compute in Hk;
  repeat (destruct Hk as [<-|Hk]; [vm_compute; reflexivity|]);
  contradiction.

Lemma emergency_keyword_preempts_witness :
  Str.Substring "severe" (Str.ascii_lower "I have severe pain and my face is swollen")
  /\ QueryClassifier.classify_query
       Str.ascii_lower "I have severe pain and my face is swollen"
     = QueryType.EMERGENCY.
Proof.
  assert (H : Str.Substring "severe"
                (Str.ascii_lower "I have severe pain and my face is swollen"))
    by (apply contains_spec; reflexivity).
  split; [exact H|].
  apply (emergency_keyword_preempts Str.ascii_lower).
  exists "severe". split; [|exact H].
  vm_compute. tauto.
Defined.

(** Diagnosis, Treatment and Prevention each count one keyword here; the
    tie goes to Diagnosis. *)
Lemma classify_by_keyword_counts_witness :
  (forall k, In k (QueryClassifier.keywords_of QueryType.EMERGENCY) ->
             ~ Str.Substring k (Str.ascii_lower "Is there a treatment to stop the pain?"))
  /\ QueryClassifier.classify_query Str.ascii_lower "How can I prevent cavities?"
     = QueryType.PREVENTION
  /\ exists higher lower_priority,
      tie_priority
      = (higher
         ++ QueryClassifier.classify_query
              Str.ascii_lower "Is there a treatment to stop the pain?"
         :: lower_priority)%list.
Proof.
  assert (H1 : forall k, In k (QueryClassifier.keywords_of QueryType.EMERGENCY) ->
                 ~ Str.Substring k (Str.ascii_lower "Is there a treatment to stop the pain?"))
    by no_emergency_keyword.
  assert (H2 : forall k, In k (QueryClassifier.keywords_of QueryType.EMERGENCY) ->
                 ~ Str.Substring k (Str.ascii_lower "How can I prevent cavities?"))
    by no_emergency_keyword.
  split; [exact H1|]. split.
  - destruct (classify_by_keyword_counts Str.ascii_lower _ H2) as (_ & _ & Hmax).
    apply Hmax.
    + simpl. tauto.
    + intros c Hc Hne. simpl in Hc.
      destruct Hc as [<-|[<-|[<-|[<-|[]]]]]; try congruence; vm_compute; lia.
  - destruct (classify_by_keyword_counts Str.ascii_lower _ H1) as (_ & Htie & _).
    destruct Htie as (higher & lower_priority & Hsplit & _).
    + exists QueryType.DIAGNOSIS. split; [simpl; tauto | vm_compute; lia].
    + now exists higher, lower_priority.
Defined.

Lemma no_emergency_keyword_never_emergency_witness :
  (forall k, In k (QueryClassifier.keywords_of QueryType.EMERGENCY) ->
             ~ Str.Substring k (Str.ascii_lower "How can I prevent cavities?"))
  /\ QueryClassifier.classify_query Str.ascii_lower "How can I prevent cavities?"
     <> QueryType.EMERGENCY.
Proof.
  assert (H : forall k, In k (QueryClassifier.keywords_of QueryType.EMERGENCY) ->
                ~ Str.Substring k (Str.ascii_lower "How can I prevent cavities?"))
    by no_emergency_keyword.
  split; [exact H|].
  exact (proj2 (no_emergency_keyword_never_emergency Str.ascii_lower _ H)).
Defined.


(** The first call of the provider fails, the later ones answer: the
    Emergency agent returns its fallback, and the consensus returns the
    answer of the General agent. *)
Lemma first_round_failure_returns_fallback_witness :
  let question := "I have severe pain and my face is swollen" in
  let prompt :=
    full_prompt_of Str.ascii_lower AgentType.EMERGENCY question EmptyString None in
  let fallback := BaseAgent.fallback_response AgentType.EMERGENCY in
  Scenario.fail_first 0 prompt = Raise transient
  /\ Scenario.query Scenario.fail_first AgentType.EMERGENCY question EmptyString None
                    [Retrieved question]
     = (Ok fallback,
        [Retrieved question; AgentRun AgentType.EMERGENCY question EmptyString;
         Completion prompt])
  /\ agent_type fallback = AgentType.EMERGENCY
  /\ confidence fallback = 0
  /\ exists s log3,
      Scenario.consensus Scenario.fail_first question [] = (Ok s, log3)
      /\ agent_type s = AgentType.GENERAL
      /\ content s = "second answer".
Proof.
  intros question prompt fallback.
  destruct (first_round_failure_returns_fallback
              Str.ascii_lower Str.ascii_strip Scenario.fail_first
              Demo.retrieve_and_rank Demo.flat_score
              Demo.max_attempts Demo.accept_threshold
              AgentType.EMERGENCY question EmptyString None [Retrieved question]
              transient eq_refl)
    as (E & _ & Hz & Ha & _ & _ & _ & Hconsult & _).
  destruct (Hconsult [] eq_refl eq_refl eq_refl eq_refl) as (_ & _ & Hcons).
  destruct (Hcons ltac:(discriminate)) as (s & best & log3 & Es & Ec & Hpos & _).
  split; [reflexivity|]. split; [exact E|]. split; [exact Ha|]. split; [exact Hz|].
  exists s, log3.
  pose proof Es as Es'. vm_compute in Es'. injection Es' as Hs _.
  assert (Hbest : best = s) by (apply Hpos; rewrite <- Hs; vm_compute; reflexivity).
  rewrite <- Hbest at 1. split; [exact Ec|].
  rewrite <- Hs. split; reflexivity.
Defined.


(** With a provider that rejects every request, an Emergency question is
    answered by the fallback of the Emergency agent, not marked General. *)
Lemma failed_emergency_consultation_counterexample :
  exists resp log',
    Demo.failing_consult "I have severe pain and my face is swollen" []
    = (Ok resp, log')
    /\ content resp = BaseAgent.fallback_content
    /\ confidence resp = 0
    /\ agent_type resp = AgentType.EMERGENCY
    /\ agent_type resp <> AgentType.GENERAL.
Proof.
  destruct (Demo.failing_consult "I have severe pain and my face is swollen" [])
    as [resp log'] eqn:E.
  vm_compute in E. injection E as <- <-.
  do 2 eexists. split; [reflexivity|].
  repeat split. discriminate.
Qed.

(** The persona block and the formatting rules of a composed prompt are
    absent from the reprompt built for an answer to it. *)
Lemma reprompt_drops_persona_counterexample :
  let original :=
    ChainOfThoughtPrompts.get_chain_of_thought_prompt
      QueryType.TREATMENT "Do you do dental implants?" EmptyString in
  let reprompt :=
    ChainOfThoughtPrompts.get_reprompt_template
      "Yes, I do implants." ["missing follow-up question"] in
  Str.Substring ChainOfThoughtPrompts.base_persona original
  /\ Str.Substring ChainOfThoughtPrompts.response_requirements original
  /\ ~ Str.Substring ChainOfThoughtPrompts.base_persona reprompt
  /\ ~ Str.Substring ChainOfThoughtPrompts.response_requirements reprompt.
Proof.
  cbv zeta.
  split; [apply contains_spec; vm_compute; reflexivity|].
  split; [apply contains_spec; vm_compute; reflexivity|].
  split; apply contains_false; vm_compute; reflexivity.
Qed.

(** A Procedure question is routed to the Treatment agent and gets the
    same persona as a Treatment question. *)
Lemma procedure_gets_treatment_persona_counterexample :
  let procedure_question := "Can you explain how a root canal works?" in
  let treatment_question := "What are my options for replacing a missing tooth?" in
  QueryClassifier.classify_query Str.ascii_lower procedure_question = QueryType.PROCEDURE
  /\ QueryClassifier.classify_query Str.ascii_lower treatment_question = QueryType.TREATMENT
  /\ route_query Str.ascii_lower procedure_question = AgentType.TREATMENT
  /\ BaseAgent.get_specialist_persona (route_query Str.ascii_lower procedure_question)
     = BaseAgent.get_specialist_persona (route_query Str.ascii_lower treatment_question)
  /\ Str.Substring "TREATMENT SPECIALIZATION"
       (BaseAgent.get_specialist_persona (route_query Str.ascii_lower procedure_question))
  /\ (forall agent : AgentType.t,
        ~ Str.Substring "PROCEDURE" (BaseAgent.get_specialist_persona agent)).
Proof.
  cbv zeta.
  split; [reflexivity|]. split; [reflexivity|]. split; [reflexivity|].
  split; [reflexivity|].
  split; [apply contains_spec; vm_compute; reflexivity|].
  intros agent. apply contains_false. destruct agent; vm_compute; reflexivity.
Qed.


(** Two candidates with equal products: the primary, Treatment, response
    is returned after both agents have run. *)
Lemma consensus_selects_best_primary_on_tie_witness :
  let question := "What are my options for replacing a missing tooth?" in
  exists p s best log2 log3,
    Demo.flat_query AgentType.TREATMENT question EmptyString None [Retrieved question]
    = (Ok p, log2)
    /\ Demo.flat_query AgentType.GENERAL question EmptyString None log2 = (Ok s, log3)
    /\ Float.mul (quality_score s) (confidence s)
       == Float.mul (quality_score p) (confidence p)
    /\ Demo.flat_consensus question [] = (Ok best, log3)
    /\ best = p
    /\ agent_type best = AgentType.TREATMENT
    /\ agent_runs log3 = [AgentRun AgentType.TREATMENT question EmptyString;
                          AgentRun AgentType.GENERAL question EmptyString].
Proof.
  intros question.
  pose proof (consensus_selects_best_primary_on_tie
                Str.ascii_lower Str.ascii_strip Demo.completion Demo.retrieve_and_rank
                Demo.flat_score Demo.max_attempts Demo.accept_threshold question [])
    as H.
  cbv zeta in H. destruct H as (p & log2 & Ep & _ & H).
  change (route_query Str.ascii_lower question) with AgentType.TREATMENT in *.
  change (fst (Demo.retrieve_and_rank question)) with EmptyString in *.
  simpl app in *.
  destruct H as (s & log3 & best & Es & Ec & Hruns & _ & _ & _ & Htie & _);
    [discriminate|].
  assert (Hkey : Float.mul (quality_score s) (confidence s)
                 == Float.mul (quality_score p) (confidence p)).
  { pose proof Ep as Ep'. vm_compute in Ep'. injection Ep' as Hp Hl.
    rewrite <- Hl in Es. vm_compute in Es. injection Es as Hs _.
    rewrite <- Hp, <- Hs. vm_compute. reflexivity. }
  exists p, s, best, log2, log3.
  split; [exact Ep|]. split; [exact Es|]. split; [exact Hkey|].
  split; [exact Ec|]. split; [exact (Htie Hkey)|].
  split; [|exact Hruns].
  rewrite (Htie Hkey).
  pose proof Ep as Ep'. vm_compute in Ep'. injection Ep' as Hp _.
  now rewrite <- Hp.
Defined.

Lemma reprompt_built_from_answer_and_defects_witness :
  In "no bullet formatting" ["missing follow-up question"; "no bullet formatting"]
  /\ Str.Substring "- no bullet formatting"
       (ChainOfThoughtPrompts.get_reprompt_template
          "Yes, I do implants."
          ["missing follow-up question"; "no bullet formatting"]).
Proof.
  assert (Hin : In "no bullet formatting"
                   ["missing follow-up question"; "no bullet formatting"])
    by (simpl; tauto).
  split; [exact Hin|].
  destruct (reprompt_built_from_answer_and_defects
              "Yes, I do implants."
              ["missing follow-up question"; "no bullet formatting"])
    as (_ & _ & _ & _ & _ & Hissues & _).
  exact (Hissues "no bullet formatting" Hin).
Defined.

Lemma routing_and_specialist_personas_witness :
  let question := "Can you explain how a root canal works?" in
  QueryClassifier.classify_query Str.ascii_lower question = QueryType.PROCEDURE
  /\ route_query Str.ascii_lower question = AgentType.TREATMENT.
Proof.
  intros question.
  assert (Hc : QueryClassifier.classify_query Str.ascii_lower question
               = QueryType.PROCEDURE) by reflexivity.
  split; [exact Hc|].
  destruct (routing_and_specialist_personas
              Str.ascii_lower Str.ascii_strip Demo.completion Demo.retrieve_and_rank
              Demo.score Demo.max_attempts Demo.accept_threshold question [])
    as (_ & _ & Htreatment & _).
  apply Htreatment. right. exact Hc.
Defined.


(** ** The test queries of [advanced_prompts.py] and more *)

(** The exhausted loop of the demonstration: the answer is the first
    text, which scored 70, and 70 is the quality score reported, although
    the last round scored 50. *)
Example exhausted_loop_reports_best_score :
  exists resp log',
    Demo.query AgentType.EMERGENCY "help" EmptyString None [] = (Ok resp, log')
    /\ content resp = "first answer"
    /\ quality_score resp = 70
    /\ attempts_used resp = 2%nat
    /\ overall_score (Demo.score "second answer" "help") = 50
    /\ completion_calls log' = 2%nat.
Proof.
  destruct (Demo.query AgentType.EMERGENCY "help" EmptyString None [])
    as [resp log'] eqn:E.
  vm_compute in E. injection E as <- <-.
  do 2 eexists. split; [reflexivity|]. repeat split.
Qed.

(** The Treatment agent ends at a score of 36 after three attempts and the
    General agent at 24 after one.  In exact arithmetic the two products
    of score and confidence are equal; the floats are
    5.759999999999999 and 5.76, and the consensus returns the answer of
    the General agent. *)
Example consensus_rounding_breaks_rational_tie :
  let question := "What are my options for replacing a missing tooth?" in
  exists p s log2 log3,
    Scenario.graded_query AgentType.TREATMENT question EmptyString None
                          [Retrieved question]
    = (Ok p, log2)
    /\ Scenario.graded_query AgentType.GENERAL question EmptyString None log2
       = (Ok s, log3)
    /\ quality_score p = 36 /\ attempts_used p = 3%nat
    /\ quality_score s = 24 /\ attempts_used s = 1%nat
    /\ 36 * (36 / 100 - 2 * (1 # 10)) == 24 * (24 / 100 - 0 * (1 # 10))
    /\ Float.mul (quality_score p) (confidence p) = 6485183463413513 # 1125899906842624
    /\ Float.mul (quality_score s) (confidence s) = 3242591731706757 # 562949953421312
    /\ Float.mul (quality_score p) (confidence p)
       < Float.mul (quality_score s) (confidence s)
    /\ Scenario.graded_consensus question [] = (Ok s, log3)
    /\ agent_type s = AgentType.GENERAL.
Proof.
  intros question.
  destruct (Scenario.graded_query AgentType.TREATMENT question EmptyString None
                                  [Retrieved question])
    as [rp log2] eqn:Ep.
  vm_compute in Ep. injection Ep as <- <-.
  match goal with
  | |- exists p s l2 l3, (Ok ?p0, ?l0) = _ /\ _ =>
      destruct (Scenario.graded_query AgentType.GENERAL question EmptyString None l0)
        as [rs log3] eqn:Es
  end.
  vm_compute in Es. injection Es as <- <-.
  do 4 eexists. split; [reflexivity|].
  split; [vm_compute; reflexivity|].
  do 4 (split; [reflexivity|]).
  split; [reflexivity|].
  split; [vm_compute; reflexivity|].
  split; [vm_compute; reflexivity|].
  split; [vm_compute; reflexivity|].
  split; [vm_compute; reflexivity | reflexivity].
Qed.

Example classify_tooth_hurts :
  QueryClassifier.classify_query Str.ascii_lower "My tooth hurts when I drink cold water"
  = QueryType.DIAGNOSIS.
Proof. reflexivity. Qed.

Example classify_options :
  QueryClassifier.classify_query
    Str.ascii_lower "What are my options for replacing a missing tooth?"
  = QueryType.TREATMENT.
Proof. reflexivity. Qed.

Example classify_uppercase_emergency :
  QueryClassifier.classify_query Str.ascii_lower "URGENT: my crown is BROKEN"
  = QueryType.EMERGENCY.
Proof. reflexivity. Qed.

Example classify_no_keyword :
  QueryClassifier.classify_query Str.ascii_lower "Where can I park?" = QueryType.GENERAL.
Proof. reflexivity. Qed.

Example extract_limits_to_five :
  BaseAgent._extract_reasoning_steps Str.ascii_strip Str.ascii_lower
    ("1. a" ++ Str.newline ++ "- b" ++ Str.newline ++ "* c" ++ Str.newline
     ++ "plain" ++ Str.newline ++ " 2. d" ++ Str.newline ++ "3. e" ++ Str.newline ++ "4. f")
  = ["1. a"; "- b"; "* c"; "2. d"; "3. e"].
Proof. reflexivity. Qed.

(** [80 / 100.0 - 1 * 0.1] is the float 0.7000000000000001, above 7/10. *)
Example confidence_of_second_attempt :
  BaseAgent._calculate_confidence [mkQualityReport 60 []; mkQualityReport 80 []]
  = 6305039478318695 # 9007199254740992
  /\ 7 # 10 < 6305039478318695 # 9007199254740992.
Proof. split; [vm_compute; reflexivity | reflexivity]. Qed.

(** [36 / 100.0 - 2 * 0.1] is the float 0.15999999999999998, below 4/25. *)
Example confidence_of_third_attempt :
  BaseAgent._calculate_confidence
    [mkQualityReport 10 []; mkQualityReport 20 []; mkQualityReport 36 []]
  = 2882303761517117 # 18014398509481984
  /\ 2882303761517117 # 18014398509481984 < 4 # 25.
Proof. split; [vm_compute; reflexivity | reflexivity]. Qed.

(** At the floor the confidence is flat: a score of 5 gives the float 0.1
    after one attempt and after two. *)
Example confidence_flat_at_the_floor :
  BaseAgent._calculate_confidence [mkQualityReport 5 []] = Float.tenth
  /\ BaseAgent._calculate_confidence [mkQualityReport 5 []; mkQualityReport 5 []]
     = Float.tenth.
Proof. split; vm_compute; reflexivity. Qed.

Example confidence_of_empty_history :
  BaseAgent._calculate_confidence [] = 1 # 2.
Proof. reflexivity. Qed.

(** * Further properties of the classifier *)

Lemma keyword_score_cons (k : string) (ks : list string) (s : string) :
  QueryClassifier.keyword_score (k :: ks) s
  = ((if Str.contains k s then 1 else 0) + QueryClassifier.keyword_score ks s)%nat.
Proof.
  unfold QueryClassifier.keyword_score. simpl.
  destruct (Str.contains k s); reflexivity.
Qed.

Lemma keyword_score_positive (ks : list string) (s : string) :
  (0 < QueryClassifier.keyword_score ks s)%nat <->
  exists k, In k ks /\ Str.Substring k s.
Proof.
  induction ks as [|k ks IH].
  - split; [intros H; inversion H | intros (k & [] & _)].
  - rewrite keyword_score_cons. split.
    + intros H. destruct (Str.contains k s) eqn:E.
      * exists k. split; [now left | now apply contains_spec].
      * simpl in H. apply IH in H. destruct H as (k' & Hin & Hk').
        exists k'. split; [now right | exact Hk'].
    + intros (k' & [->|Hin] & Hk').
      * apply contains_spec in Hk'. rewrite Hk'. lia.
      * assert (0 < QueryClassifier.keyword_score ks s)%nat
          by (apply IH; now exists k').
        lia.
Qed.

Lemma keyword_score_member (ks : list string) (s k : string) :
  In k ks -> Str.contains k s = true ->
  (1 <= QueryClassifier.keyword_score ks s)%nat.
Proof.
  intros Hin Hk. apply keyword_score_positive.
  exists k. split; [exact Hin | now apply contains_spec].
Qed.

Section ClassifierMore.

Variable lower : string -> string.

(** The outcome of the scoring stage, whether or not an Emergency keyword
    occurs: either the Emergency check fires, or every count is zero and
    the answer is General, or the answer is a scored category whose count
    is positive and strictly above the counts of the categories before it. *)
Lemma classify_cases (user_question : string) :
  let count := category_count (lower user_question) in
  let result := QueryClassifier.classify_query lower user_question in
  (result = QueryType.EMERGENCY
   /\ exists k, In k (QueryClassifier.keywords_of QueryType.EMERGENCY)
                /\ Str.Substring k (lower user_question))
  \/ ((forall k, In k (QueryClassifier.keywords_of QueryType.EMERGENCY) ->
                 ~ Str.Substring k (lower user_question))
      /\ ((result = QueryType.GENERAL
           /\ forall c, In c tie_priority -> count c = 0%nat)
          \/ (exists higher lower_priority,
                tie_priority = (higher ++ result :: lower_priority)%list
                /\ (0 < count result)%nat
                /\ (forall c, In c higher -> (count c < count result)%nat)
                /\ (forall c, In c lower_priority -> (count c <= count result)%nat)))).
Proof.
  intros count result.
  destruct (existsb (fun keyword => Str.contains keyword (lower user_question))
                    (QueryClassifier.keywords_of QueryType.EMERGENCY)) eqn:Ee.
  - left. split.
    + unfold result, QueryClassifier.classify_query. now rewrite Ee.
    + now apply emergency_check_spec.
  - right.
    assert (Hno : forall k, In k (QueryClassifier.keywords_of QueryType.EMERGENCY) ->
                            ~ Str.Substring k (lower user_question)).
    { intros k Hin Hk.
      assert (Ht : existsb (fun keyword => Str.contains keyword (lower user_question))
                           (QueryClassifier.keywords_of QueryType.EMERGENCY) = true)
        by (apply emergency_check_spec; now exists k).
      congruence. }
    split; [exact Hno|].
    pose proof (classify_without_emergency lower _ Hno) as E. cbv zeta in E.
    fold result in E. fold count in E.
    pose proof (scoring_stage (count QueryType.DIAGNOSIS) (count QueryType.TREATMENT)
                  (count QueryType.PREVENTION) (count QueryType.PROCEDURE)) as S.
    cbv zeta in S. rewrite <- E in S. destruct S as [S0 S1].
    destruct (Nat.eq_dec (count QueryType.DIAGNOSIS + count QueryType.TREATMENT
                          + count QueryType.PREVENTION + count QueryType.PROCEDURE) 0)
      as [Hz|Hnz].
    + left. split; [now apply S0|].
      intros c Hc. simpl in Hc.
      destruct Hc as [<-|[<-|[<-|[<-|[]]]]]; lia.
    + right. destruct S1 as (l1 & l2 & Hsplit & Hl1 & Hl2); [lia|].
      assert (Hres : In result tie_priority)
        by (rewrite Hsplit; apply in_or_app; right; now left).
      assert (Hin1 : forall c, In c l1 -> In c tie_priority)
        by (intros c Hc; rewrite Hsplit; apply in_or_app; now left).
      assert (Hin2 : forall c, In c l2 -> In c tie_priority)
        by (intros c Hc; rewrite Hsplit; apply in_or_app; right; now right).
      assert (Hlt : forall c, In c l1 -> (count c < count result)%nat).
      { intros c Hc. specialize (Hl1 c Hc). unfold count in *.
        rewrite !count_of_category_count in Hl1; auto. }
      assert (Hle : forall c, In c l2 -> (count c <= count result)%nat).
      { intros c Hc. specialize (Hl2 c Hc). unfold count in *.
        rewrite !count_of_category_count in Hl2; auto. }
      exists l1, l2. split; [exact Hsplit|]. split; [|split; assumption].
      assert (Hall : forall c, In c tie_priority -> (count c <= count result)%nat).
      { intros c Hc. rewrite Hsplit in Hc. apply in_app_or in Hc.
        destruct Hc as [Hc|[<-|Hc]]; [apply Nat.lt_le_incl, Hlt, Hc | lia | now apply Hle]. }
      pose proof (Hall QueryType.DIAGNOSIS ltac:(simpl; tauto)).
      pose proof (Hall QueryType.TREATMENT ltac:(simpl; tauto)).
      pose proof (Hall QueryType.PREVENTION ltac:(simpl; tauto)).
      pose proof (Hall QueryType.PROCEDURE ltac:(simpl; tauto)).
      lia.
Qed.

(** X1: the classifier answers General exactly when no keyword of any
    category occurs in the lowered question. *)
Theorem general_iff_no_keyword (user_question : string) :
  QueryClassifier.classify_query lower user_question = QueryType.GENERAL
  <-> forall c k, In k (QueryClassifier.keywords_of c) ->
                  ~ Str.Substring k (lower user_question).
Proof.
  pose proof (classify_cases user_question) as H. cbv zeta in H.
  split.
  - intros Hg. rewrite Hg in H.
    destruct H as [[Habs _]|[Hno [[_ Hz]|(l1 & l2 & Hsplit & _)]]].
    + discriminate.
    + intros c k Hin Hk.
      destruct c; try (apply (Hno k Hin Hk));
        try (assert (Hpos : (0 < category_count (lower user_question) _)%nat)
               by (apply keyword_score_positive; exists k; split; [exact Hin|exact Hk]);
             rewrite Hz in Hpos; [inversion Hpos | simpl; auto 6]).
    + assert (Hin : In QueryType.GENERAL tie_priority)
        by (rewrite Hsplit; apply in_or_app; right; now left).
      simpl in Hin. intuition discriminate.
  - intros Hnone.
    destruct H as [[_ (k & Hin & Hk)]|[_ [[Hg _]|(l1 & l2 & Hsplit & Hpos & _)]]].
    + exfalso. exact (Hnone _ _ Hin Hk).
    + exact Hg.
    + exfalso. apply keyword_score_positive in Hpos.
      destruct Hpos as (k & Hin & Hk). exact (Hnone _ _ Hin Hk).
Qed.

(** X2: a category other than General is returned only when at least one
    of its own keywords occurs in the lowered question. *)
Theorem classified_category_has_keyword (user_question : string) (c : QueryType.t) :
  QueryClassifier.classify_query lower user_question = c ->
  c <> QueryType.GENERAL ->
  exists k, In k (QueryClassifier.keywords_of c)
            /\ Str.Substring k (lower user_question).
Proof.
  intros Hc Hne.
  pose proof (classify_cases user_question) as H. cbv zeta in H. rewrite Hc in H.
  destruct H as [[-> Hk]|[_ [[Hg _]|(l1 & l2 & _ & Hpos & _)]]].
  - exact Hk.
  - contradiction.
  - now apply keyword_score_positive in Hpos.
Qed.

(** X3: the keyword "surgery" is listed under both Treatment and
    Procedure, and Treatment comes first: a question is classified
    Procedure only when a Procedure keyword other than "surgery" occurs. *)
Theorem procedure_needs_more_than_surgery (user_question : string) :
  QueryClassifier.classify_query lower user_question = QueryType.PROCEDURE ->
  exists k, In k (QueryClassifier.keywords_of QueryType.PROCEDURE)
            /\ k <> "surgery"
            /\ Str.Substring k (lower user_question).
Proof.
  intros Hc.
  pose proof (classify_cases user_question) as H. cbv zeta in H. rewrite Hc in H.
  destruct H as [[Habs _]|[_ [[Habs _]|(l1 & l2 & Hsplit & _ & Hlt & _)]]];
    try discriminate.
  assert (HT : (category_count (lower user_question) QueryType.TREATMENT
                < category_count (lower user_question) QueryType.PROCEDURE)%nat).
  { apply Hlt.
    destruct l1 as [|a [|b [|c [|d l1]]]]; simpl in Hsplit; try discriminate;
      injection Hsplit as; subst; simpl; auto. }
  set (s := lower user_question) in *.
  set (others := ["procedure"; "operation"; "implant"; "crown"; "filling";
                  "root canal"; "extraction"; "cleaning"; "whitening"; "braces"]).
  destruct (existsb (fun k => Str.contains k s) others) eqn:Eo.
  - apply existsb_exists in Eo. destruct Eo as (k & Hin & Hk).
    exists k. split; [|split].
    + subst others. simpl in Hin. vm_compute. tauto.
    + subst others. simpl in Hin.
      repeat (destruct Hin as [<-|Hin]; [discriminate|]). contradiction.
    + now apply contains_spec.
  - exfalso.
    assert (Hnone : forall k, In k others -> Str.contains k s = false).
    { intros k Hin. destruct (Str.contains k s) eqn:Ek; [|reflexivity].
      assert (existsb (fun k => Str.contains k s) others = true)
        by (apply existsb_exists; now exists k).
      congruence. }
    assert (HP : category_count s QueryType.PROCEDURE
                 = if Str.contains "surgery" s then 1%nat else 0%nat).
    { unfold category_count. change (QueryClassifier.keywords_of QueryType.PROCEDURE)
        with ("procedure" :: "surgery" :: tl others).
      rewrite !keyword_score_cons.
      rewrite (Hnone "procedure") by (subst others; simpl; auto).
      rewrite (keyword_score_zero (tl others) s); [simpl; lia|].
      intros k Hin. apply contains_false, Hnone.
      subst others. simpl in *. auto 12. }
    destruct (Str.contains "surgery" s) eqn:Es.
    + assert ((1 <= category_count s QueryType.TREATMENT)%nat).
      { apply (keyword_score_member _ _ "surgery"); [vm_compute; tauto | exact Es]. }
      lia.
    + lia.
Qed.

(** X4: text added around a question classified Emergency never demotes
    it, as long as lowering distributes over the concatenation. *)
Theorem emergency_survives_surrounding_text (before user_question after : string) :
  lower (before ++ user_question ++ after)
  = lower before ++ lower user_question ++ lower after ->
  QueryClassifier.classify_query lower user_question = QueryType.EMERGENCY ->
  QueryClassifier.classify_query lower (before ++ user_question ++ after)
  = QueryType.EMERGENCY.
Proof.
  intros Hlower Hc.
  pose proof (classify_cases user_question) as H. cbv zeta in H. rewrite Hc in H.
  destruct H as [[_ (k & Hin & Hk)]|[_ [[Habs _]|(l1 & l2 & Hsplit & _)]]].
  - unfold QueryClassifier.classify_query.
    assert (He : existsb (fun keyword => Str.contains keyword
                                           (lower (before ++ user_question ++ after)))
                         (QueryClassifier.keywords_of QueryType.EMERGENCY) = true).
    { apply emergency_check_spec. exists k. split; [exact Hin|].
      rewrite Hlower. destruct Hk as (x & y & ->).
      exists (lower before ++ x), (y ++ lower after).
      rewrite !append_assoc. reflexivity. }
    now rewrite He.
  - discriminate.
  - exfalso.
    assert (Hin : In QueryType.EMERGENCY tie_priority)
      by (rewrite Hsplit; apply in_or_app; right; now left).
    simpl in Hin. intuition discriminate.
Qed.

End ClassifierMore.

(** * Further properties of the prompts *)

Lemma append_cancel_l (a x y : string) : a ++ x = a ++ y -> x = y.
Proof.
  induction a as [|c a IH]; simpl; intros H; [exact H|].
  injection H as H. now apply IH.
Qed.

Lemma append_length (a b : string) :
  String.length (a ++ b) = (String.length a + String.length b)%nat.
Proof. induction a; simpl; congruence. Qed.

Lemma append_cancel_r (x y r : string) : x ++ r = y ++ r -> x = y.
Proof.
  revert y. induction x as [|c x IH]; intros y H.
  - destruct y as [|d y]; [reflexivity|].
    apply (f_equal String.length) in H. simpl in H.
    rewrite append_length in H. lia.
  - destruct y as [|d y].
    + apply (f_equal String.length) in H. simpl in H.
      rewrite append_length in H. lia.
    + simpl in H. injection H as -> H. f_equal. now apply IH.
Qed.

Lemma reasoning_templates_distinct (t1 t2 : QueryType.t) :
  ChainOfThoughtPrompts.reasoning_templates t1
  = ChainOfThoughtPrompts.reasoning_templates t2 ->
  t1 = t2.
Proof.
  intros H.
  destruct (QueryType.eqb t1 t2) eqn:E; [destruct t1, t2; simpl in E; congruence|].
  exfalso.
  assert (Hneq : String.eqb (ChainOfThoughtPrompts.reasoning_templates t1)
                            (ChainOfThoughtPrompts.reasoning_templates t2) = false)
    by (destruct t1, t2; simpl in E; try discriminate; vm_compute; reflexivity).
  rewrite H, String.eqb_refl in Hneq. discriminate.
Qed.

(** X5: for a fixed question and context, two different query types
    never give the same chain-of-thought prompt: each of the six types has
    a response format of its own. *)
Theorem prompt_determines_query_type
        (t1 t2 : QueryType.t) (user_question context : string) :
  t1 <> t2 ->
  ChainOfThoughtPrompts.get_chain_of_thought_prompt t1 user_question context
  <> ChainOfThoughtPrompts.get_chain_of_thought_prompt t2 user_question context.
Proof.
  unfold ChainOfThoughtPrompts.get_chain_of_thought_prompt. cbv zeta. intros Hne H.
  repeat (apply append_cancel_l in H).
  apply append_cancel_r in H.
  now apply Hne, reasoning_templates_distinct.
Qed.

(** * Further properties of the agents *)

Section EngineMore.

Variable lower : string -> string.
Variable strip : string -> string.
Variable completion : nat -> string -> Result string.
Variable retrieve_and_rank : string -> string * list string.
Variable score : string -> string -> QualityReport.
Variable max_attempts : AgentType.t -> nat.
Variable accept_threshold : AgentType.t -> Q.

Local Notation "'query'" :=
  (process_query lower strip completion score max_attempts accept_threshold).
Local Notation "'prompt_of'" := (full_prompt_of lower).
Local Notation "'consult'" :=
  (process_consultation lower strip completion retrieve_and_rank score
                        max_attempts accept_threshold).
Local Notation "'consensus'" :=
  (get_multi_agent_consensus lower strip completion retrieve_and_rank score
                             max_attempts accept_threshold).

(** X6: the first prompt of a consultation is the persona of the routed
    agent followed by the chain-of-thought prompt of the classified
    category (for a Procedure question: the Treatment specialization with
    the Procedure response format); the base persona block occurs in it
    twice, once from each part. *)
Theorem consultation_prompt_composition (user_question : string) (log : list Event) :
  let category := QueryClassifier.classify_query lower user_question in
  let agent := route_query lower user_question in
  let context := fst (retrieve_and_rank user_question) in
  exists resp calls prompt rest,
    consult user_question log
    = (Ok resp,
       (log ++ Retrieved user_question
            :: AgentRun agent user_question context
            :: map Completion (prompt :: calls))%list)
    /\ prompt
       = ChainOfThoughtPrompts.base_persona
         ++ (BaseAgent.specializations agent ++ Str.newline ++ Str.newline)
         ++ ChainOfThoughtPrompts.base_persona ++ rest
    /\ ChainOfThoughtPrompts.get_chain_of_thought_prompt category user_question context
       = ChainOfThoughtPrompts.base_persona ++ rest
    /\ Str.Substring user_question rest
    /\ Str.Substring (ChainOfThoughtPrompts.reasoning_templates category) rest.
Proof.
  intros category agent context.
  destruct (process_query_log lower strip completion score max_attempts accept_threshold
              agent user_question context None
              (log ++ [Retrieved user_question])%list)
    as (resp & calls & E & _ & _).
  exists resp, calls, (prompt_of agent user_question context None).
  assert (Hcot : exists rest,
             ChainOfThoughtPrompts.get_chain_of_thought_prompt
               category user_question context
             = ChainOfThoughtPrompts.base_persona ++ rest
             /\ Str.Substring user_question rest
             /\ Str.Substring (ChainOfThoughtPrompts.reasoning_templates category) rest).
  { unfold ChainOfThoughtPrompts.get_chain_of_thought_prompt. cbv zeta.
    eexists. split; [reflexivity|]. split.
    - apply substring_app_r, substring_app_l, substring_self.
    - do 5 apply substring_app_r. apply substring_app_l, substring_self. }
  destruct Hcot as (rest & Hcot & Hq & Ht).
  exists rest.
  split.
  { rewrite consult_run. fold agent context. rewrite E, <- app_assoc. reflexivity. }
  split.
  { unfold full_prompt_of. fold category. rewrite Hcot.
    unfold BaseAgent.get_specialist_persona.
    change ChainOfThoughtPrompts._get_base_persona with ChainOfThoughtPrompts.base_persona.
    generalize ChainOfThoughtPrompts.base_persona as base.
    intros base. rewrite !append_assoc. reflexivity. }
  split; [exact Hcot|]. split; assumption.
Qed.

(** X7: when the question is routed to the General agent, the consensus
    is the plain consultation: same response, same calls. *)
Theorem consensus_of_general_is_consultation (user_question : string) (log : list Event) :
  route_query lower user_question = AgentType.GENERAL ->
  consensus user_question log = consult user_question log.
Proof.
  intros Hg. rewrite consensus_run, consult_run, Hg. simpl.
  destruct (process_query _ _ _ _ _ _ _ _ _ _ _) as [[p|e] log2]; reflexivity.
Qed.

(** X8: for a question routed to a specialist, the consensus retrieves
    the context once, then runs the specialist and then the General agent;
    both are prompted with the same chain-of-thought prompt (the one of
    the classified category) under their own personas, and the response
    returned carries the type of one of the two. *)
Theorem consensus_runs_two_agents_on_one_prompt
        (user_question : string) (log : list Event) :
  let category := QueryClassifier.classify_query lower user_question in
  let primary := route_query lower user_question in
  let context := fst (retrieve_and_rank user_question) in
  let cot :=
    ChainOfThoughtPrompts.get_chain_of_thought_prompt category user_question context in
  primary <> AgentType.GENERAL ->
  exists best calls1 calls2,
    consensus user_question log
    = (Ok best,
       (log ++ Retrieved user_question
            :: AgentRun primary user_question context
            :: map Completion
                 ((BaseAgent.get_specialist_persona primary
                   ++ Str.newline ++ Str.newline ++ cot)%string :: calls1)
            ++ AgentRun AgentType.GENERAL user_question context
            :: map Completion
                 ((BaseAgent.get_specialist_persona AgentType.GENERAL
                   ++ Str.newline ++ Str.newline ++ cot)%string :: calls2))%list)
    /\ (agent_type best = primary \/ agent_type best = AgentType.GENERAL).
Proof.
  intros category primary context cot Hother.
  destruct (process_query_log lower strip completion score max_attempts accept_threshold
              primary user_question context None
              (log ++ [Retrieved user_question])%list)
    as (p & calls1 & Ep & Hp & _).
  match type of Ep with
  | _ = (_, ?l) =>
      destruct (process_query_log lower strip completion score max_attempts
                  accept_threshold AgentType.GENERAL user_question context None l)
        as (s & calls2 & Es & Hs & _)
  end.
  exists (max_by consensus_key p [s]), calls1, calls2.
  split.
  - rewrite consensus_run. fold primary context. rewrite Ep.
    destruct (AgentType.eqb primary AgentType.GENERAL) eqn:Eg;
      [apply AgentType_eqb_eq in Eg; contradiction|].
    rewrite Es. f_equal. rewrite <- !app_assoc. simpl. reflexivity.
  - simpl. destruct (Qlt_bool _ _); [right; exact Hs | left; exact Hp].
Qed.

Lemma fallback_key_zero (self : AgentType.t) :
  consensus_key (BaseAgent.fallback_response self) == 0.
Proof. reflexivity. Qed.

(** X9: when the first completion call of the General agent raises during
    a consensus, the response of the specialist is returned unless its
    product of quality score and confidence is negative. *)
Theorem consensus_with_failed_secondary
        (user_question : string) (log log2 : list Event)
        (p : AgentResponse) (e : ProviderError) :
  let primary := route_query lower user_question in
  let context := fst (retrieve_and_rank user_question) in
  primary <> AgentType.GENERAL ->
  query primary user_question context None (log ++ [Retrieved user_question])%list
  = (Ok p, log2) ->
  completion (completion_calls log2)
             (prompt_of AgentType.GENERAL user_question context None) = Raise e ->
  exists best log3,
    consensus user_question log = (Ok best, log3)
    /\ (0 <= consensus_key p -> best = p)
    /\ (consensus_key p < 0 -> best = BaseAgent.fallback_response AgentType.GENERAL).
Proof.
  intros primary context Hother Ep Hfail.
  pose proof (process_query_run lower strip completion score max_attempts accept_threshold
                AgentType.GENERAL user_question context None log2) as Es.
  cbv zeta in Es. rewrite Hfail in Es.
  exists (max_by consensus_key p [BaseAgent.fallback_response AgentType.GENERAL]).
  eexists. split.
  - rewrite consensus_run. fold primary context. rewrite Ep.
    destruct (AgentType.eqb primary AgentType.GENERAL) eqn:Eg;
      [apply AgentType_eqb_eq in Eg; contradiction|].
    rewrite Es. reflexivity.
  - simpl.
    destruct (Qlt_bool (consensus_key p)
                (consensus_key (BaseAgent.fallback_response AgentType.GENERAL))) eqn:Ek.
    + apply Qlt_bool_true in Ek. rewrite fallback_key_zero in Ek.
      split; [intros H; exfalso; exact (Qlt_not_le _ _ Ek H) | reflexivity].
    + apply Qlt_bool_false in Ek. rewrite fallback_key_zero in Ek.
      split; [reflexivity | intros H; exfalso; exact (Qlt_not_le _ _ H Ek)].
Qed.

(** X10: when the first completion call of the routed specialist raises
    during a consensus, the General agent still runs; its response is
    returned when its product of quality score and confidence is positive,
    and otherwise the fallback of the specialist is returned. *)
Theorem consensus_with_failed_primary
        (user_question : string) (log : list Event) (e : ProviderError) :
  let primary := route_query lower user_question in
  let context := fst (retrieve_and_rank user_question) in
  primary <> AgentType.GENERAL ->
  completion (completion_calls log)
             (prompt_of primary user_question context None) = Raise e ->
  exists s best log3,
    query AgentType.GENERAL user_question context None
          (log ++ [Retrieved user_question;
                   AgentRun primary user_question context;
                   Completion (prompt_of primary user_question context None)])%list
    = (Ok s, log3)
    /\ consensus user_question log = (Ok best, log3)
    /\ (0 < consensus_key s -> best = s)
    /\ (consensus_key s <= 0 -> best = BaseAgent.fallback_response primary).
Proof.
  intros primary context Hother Hfail.
  pose proof (process_query_run lower strip completion score max_attempts accept_threshold
                primary user_question context None
                (log ++ [Retrieved user_question])%list) as Ep.
  cbv zeta in Ep. rewrite completion_calls_app in Ep. simpl in Ep.
  rewrite Nat.add_0_r, Hfail, <- !app_assoc in Ep. simpl in Ep.
  destruct (process_query_log lower strip completion score max_attempts accept_threshold
              AgentType.GENERAL user_question context None
              (log ++ [Retrieved user_question;
                       AgentRun primary user_question context;
                       Completion (prompt_of primary user_question context None)])%list)
    as (s & calls & Es & _ & _).
  exists s, (max_by consensus_key (BaseAgent.fallback_response primary) [s]).
  eexists. split; [exact Es|]. split.
  - rewrite consensus_run. fold primary context. rewrite Ep.
    destruct (AgentType.eqb primary AgentType.GENERAL) eqn:Eg;
      [apply AgentType_eqb_eq in Eg; contradiction|].
    rewrite Es. reflexivity.
  - simpl.
    destruct (Qlt_bool (consensus_key (BaseAgent.fallback_response primary))
                       (consensus_key s)) eqn:Ek.
    + apply Qlt_bool_true in Ek. rewrite fallback_key_zero in Ek.
      split; [reflexivity | intros H; exfalso; exact (Qlt_not_le _ _ Ek H)].
    + apply Qlt_bool_false in Ek. rewrite fallback_key_zero in Ek.
      split; [intros H; exfalso; exact (Qlt_not_le _ _ H Ek) | reflexivity].
Qed.

End EngineMore.

(** X11: with a final score of at most 100 and up to nine attempts, the
    confidence is at most the float [1.0 - (attempts - 1) * 0.1]; from the
    tenth attempt on it is the floor, the float 0.1, whatever the score,
    and already [1.0 - 9 * 0.1] is a float below 0.1; when the unclamped
    value lies between the float 0.1 and 1 it is the confidence. *)
Theorem confidence_attempt_ceiling (qs : list QualityReport) (final : QualityReport) :
  BaseAgent.last_report qs = Some final ->
  overall_score final <= 100 ->
  let attempts := List.length qs in
  let raw := unclamped_confidence (overall_score final) attempts in
  ((attempts <= 9)%nat ->
   BaseAgent._calculate_confidence qs <= Float.sub 1 (attempt_penalty attempts))
  /\ ((10 <= attempts)%nat -> BaseAgent._calculate_confidence qs == Float.tenth)
  /\ Float.sub 1 (attempt_penalty 10) < Float.tenth
  /\ (Float.tenth <= raw -> raw <= 1 -> BaseAgent._calculate_confidence qs == raw).
Proof.
  intros Hlast Hscore attempts raw.
  rewrite (confidence_nonempty _ _ Hlast). fold attempts. fold raw.
  pose proof (base_confidence_le_one _ Hscore) as Hb.
  pose proof tenth_bounds as [Ht0 Ht8].
  assert (Hceil : forall n, attempts = n -> raw <= Float.sub 1 (attempt_penalty n)).
  { intros n <-. unfold raw, unclamped_confidence, Float.sub.
    apply round_monotone. lra. }
  assert (Hten : Float.sub 1 (attempt_penalty 10) < Float.tenth)
    by (vm_compute; reflexivity).
  split; [|split; [|split; [exact Hten|]]].
  - intros Hle. pose proof (Hceil attempts eq_refl) as Hraw.
    assert (Hnine : Float.tenth <= Float.sub 1 (attempt_penalty attempts)).
    { apply Qle_trans with (Float.sub 1 (attempt_penalty 9)); [vm_compute; discriminate|].
      unfold Float.sub. apply round_monotone.
      pose proof (attempt_penalty_monotone attempts 9 Hle). lra. }
    unfold clamp.
    destruct (py_min_cases 1 raw) as [[H1 ->]|[H1 ->]];
      [destruct (py_max_cases Float.tenth raw) as [[H2 ->]|[H2 ->]]
      |destruct (py_max_cases Float.tenth 1) as [[H2 ->]|[H2 ->]]]; lra.
  - intros Hge.
    assert (Hraw : raw <= Float.sub 1 (attempt_penalty 10)).
    { eapply Qle_trans; [apply (Hceil attempts eq_refl)|].
      unfold Float.sub. apply round_monotone.
      pose proof (attempt_penalty_monotone 10 attempts Hge). lra. }
    unfold clamp.
    destruct (py_min_cases 1 raw) as [[H1 ->]|[H1 ->]];
      [destruct (py_max_cases Float.tenth raw) as [[H2 ->]|[H2 ->]]
      |destruct (py_max_cases Float.tenth 1) as [[H2 ->]|[H2 ->]]]; lra.
  - intros Hlo Hhi. unfold clamp.
    destruct (py_min_cases 1 raw) as [[H1 ->]|[H1 ->]];
      [destruct (py_max_cases Float.tenth raw) as [[H2 ->]|[H2 ->]]
      |destruct (py_max_cases Float.tenth 1) as [[H2 ->]|[H2 ->]]]; lra.
Qed.

(** * Properties of the data scripts *)

Module DataFacts.

Import DataScripts.

(** ** Chunking *)

Lemma range_from_spec (step : nat) :
  (0 < step)%nat ->
  forall fuel start stop,
    (stop - start <= fuel)%nat ->
    range_from fuel start stop step
    = map (fun k => start + k * step)%nat (seq 0 ((stop - start + step - 1) / step)).
Proof.
  intros Hstep. induction fuel as [|fuel IH]; intros start stop Hfuel.
  - simpl. replace (stop - start + step - 1)%nat with (step - 1)%nat by lia.
    rewrite Nat.div_small by lia. reflexivity.
  - simpl. destruct (Nat.ltb_spec start stop) as [Hlt|Hge].
    + rewrite IH by lia.
      assert (Hceil : ((stop - start + step - 1) / step
                       = S ((stop - (start + step) + step - 1) / step))%nat).
      { destruct (Nat.le_gt_cases step (stop - start)) as [Hbig|Hsmall].
        - replace (stop - start + step - 1)%nat
            with ((stop - (start + step) + step - 1) + 1 * step)%nat by lia.
          rewrite Nat.div_add by lia. lia.
        - replace (stop - (start + step) + step - 1)%nat with (step - 1)%nat by lia.
          rewrite (Nat.div_small (step - 1)) by lia.
          symmetry. apply (Nat.div_unique _ _ _ (stop - start - 1)); lia. }
      rewrite Hceil. simpl. f_equal; [lia|].
      rewrite <- seq_shift, map_map. apply map_ext. intros k. lia.
    + replace (stop - start + step - 1)%nat with (step - 1)%nat by lia.
      rewrite Nat.div_small by lia. reflexivity.
Qed.

Lemma ceil_div (m step : nat) :
  (0 < step)%nat ->
  ((m + step - 1) / step = m / step + (if (0 <? m mod step) then 1 else 0))%nat.
Proof.
  intros Hstep.
  pose proof (Nat.div_mod_eq m step) as Hm.
  pose proof (Nat.mod_upper_bound m step ltac:(lia)) as Hr.
  destruct (Nat.ltb_spec 0 (m mod step)) as [Hpos|Hzero].
  - symmetry. apply (Nat.div_unique _ _ _ (m mod step - 1)); lia.
  - symmetry. apply (Nat.div_unique _ _ _ (step - 1)); lia.
Qed.

Lemma py_range_length (stop step : nat) :
  (0 < step)%nat ->
  List.length (py_range 0 stop step)
  = (stop / step + (if (0 <? stop mod step) then 1 else 0))%nat.
Proof.
  intros Hstep. unfold py_range.
  rewrite (range_from_spec step Hstep) by lia.
  rewrite length_map, length_seq, Nat.sub_0_r. now apply ceil_div.
Qed.

Lemma chunk_count_matches_expectation_aux (words : list string) :
  List.length (make_chunks words) = total_chunks words.
Proof.
  unfold make_chunks, total_chunks. rewrite length_map.
  apply py_range_length. unfold chunk_size. lia.
Qed.

(** X12: the loader produces exactly the number of chunks that
    [check_data_chunks] expects for the same words. *)
Theorem chunk_count_matches_expectation (words : list string) :
  List.length (make_chunks words) = total_chunks words.
Proof.
  unfold make_chunks, total_chunks. rewrite length_map.
  apply py_range_length. unfold chunk_size. lia.
Qed.

Lemma make_chunks_slices (words : list string) :
  make_chunks words = map (Str.join " ") (chunk_slices words).
Proof. unfold make_chunks, chunk_slices. now rewrite map_map. Qed.

Lemma slices_concat {A} (l : list A) (step : nat) :
  (0 < step)%nat ->
  forall fuel start,
    (List.length l - start <= fuel)%nat ->
    List.concat (map (fun i => slice l i (i + step))
                (range_from fuel start (List.length l) step))
    = skipn start l.
Proof.
  intros Hstep. induction fuel as [|fuel IH]; intros start Hfuel; simpl.
  - symmetry. apply skipn_all2. lia.
  - destruct (Nat.ltb_spec start (List.length l)) as [Hlt|Hge].
    + simpl. rewrite IH by lia. unfold slice.
      replace (start + step - start)%nat with step by lia.
      rewrite Nat.add_comm, <- skipn_skipn. apply firstn_skipn.
    + symmetry. apply skipn_all2. lia.
Qed.

Lemma chunk_slices_nth (words : list string) (k : nat) (sl : list string) :
  nth_error (chunk_slices words) k = Some sl ->
  sl = slice words (k * chunk_size) (k * chunk_size + chunk_size)
  /\ (k * chunk_size < List.length words)%nat.
Proof.
  unfold chunk_slices, py_range.
  rewrite (range_from_spec chunk_size) by (unfold chunk_size; lia).
  rewrite map_map, Nat.sub_0_r, nth_error_map. intros H.
  destruct (nth_error (seq 0 ((List.length words + chunk_size - 1) / chunk_size)) k)
    as [i|] eqn:Hi; [|discriminate].
  injection H as <-.
  assert (Hk : (k < List.length
                      (seq 0 ((List.length words + chunk_size - 1) / chunk_size)))%nat)
    by (apply nth_error_Some; congruence).
  rewrite length_seq in Hk.
  assert (i = k).
  { pose proof (nth_error_nth _ _ 0%nat Hi) as Hn. rewrite seq_nth in Hn by exact Hk.
    simpl in Hn. congruence. }
  subst i. simpl. split; [reflexivity|].
  assert (Hc : (0 < chunk_size)%nat) by (unfold chunk_size; lia).
  pose proof (Nat.div_mod_eq (List.length words + chunk_size - 1) chunk_size) as Hd.
  pose proof (Nat.mod_upper_bound (List.length words + chunk_size - 1) chunk_size
                ltac:(lia)) as Hr.
  nia.
Qed.

Lemma chunk_slices_concat (words : list string) :
  List.concat (chunk_slices words) = words.
Proof.
  unfold chunk_slices, py_range.
  rewrite (slices_concat words chunk_size) by (unfold chunk_size; lia).
  reflexivity.
Qed.

(** X13: the chunks partition the words: their word lists, in order, make
    up the word list again; the chunk at position [k] holds the words from
    position [300 k] on, 300 of them or as many as are left, and at least
    one. *)
Theorem chunks_partition_words (words : list string) :
  List.concat (chunk_slices words) = words
  /\ make_chunks words = map (Str.join " ") (chunk_slices words)
  /\ forall k sl,
      nth_error (chunk_slices words) k = Some sl ->
      sl = firstn 300 (skipn (300 * k) words)
      /\ List.length sl = Nat.min 300 (List.length words - 300 * k)
      /\ (0 < List.length sl)%nat.
Proof.
  split; [|split].
  - apply chunk_slices_concat.
  - apply make_chunks_slices.
  - intros k sl H. apply chunk_slices_nth in H. destruct H as [-> Hk].
    unfold slice, chunk_size in *.
    replace (k * 300 + 300 - k * 300)%nat with 300%nat by lia.
    replace (k * 300)%nat with (300 * k)%nat by lia.
    split; [reflexivity|].
    rewrite length_firstn, length_skipn. split; lia.
Qed.

Lemma join_cons (sep x : string) (rest : list string) :
  rest <> [] -> Str.join sep (x :: rest) = x ++ sep ++ Str.join sep rest.
Proof. destruct rest; [congruence | reflexivity]. Qed.

Lemma join_app (sep : string) (l1 l2 : list string) :
  l1 <> [] -> l2 <> [] ->
  Str.join sep (l1 ++ l2) = Str.join sep l1 ++ sep ++ Str.join sep l2.
Proof.
  intros H1 H2. induction l1 as [|x l1 IH]; [congruence|].
  destruct l1 as [|y l1].
  - simpl app. now rewrite join_cons.
  - change ((x :: y :: l1) ++ l2)%list with (x :: ((y :: l1) ++ l2))%list.
    rewrite join_cons by discriminate.
    rewrite IH by discriminate.
    rewrite (join_cons sep x (y :: l1)) by discriminate.
    now rewrite !append_assoc.
Qed.

Lemma join_groups (sep : string) (groups : list (list string)) :
  (forall g, In g groups -> g <> []) ->
  Str.join sep (map (Str.join sep) groups) = Str.join sep (List.concat groups).
Proof.
  induction groups as [|g groups IH]; intros Hne; [reflexivity|].
  destruct groups as [|g' groups].
  - simpl. now rewrite app_nil_r.
  - change (map (Str.join sep) (g :: g' :: groups))
      with (Str.join sep g :: map (Str.join sep) (g' :: groups)).
    rewrite join_cons by discriminate.
    rewrite IH by (intros x Hx; apply Hne; now right).
    change (List.concat (g :: g' :: groups)) with (g ++ List.concat (g' :: groups))%list.
    rewrite join_app; [reflexivity | apply Hne; now left |].
    assert (Hg' : g' <> []) by (apply Hne; right; now left).
    simpl. destruct g'; [congruence | discriminate].
Qed.

(** X14: no text is lost or reordered by the chunking: the chunks joined
    by single spaces are the words joined by single spaces. *)
Theorem chunks_join_to_text (words : list string) :
  Str.join " " (make_chunks words) = Str.join " " words.
Proof.
  rewrite make_chunks_slices, join_groups.
  - now rewrite chunk_slices_concat.
  - intros g Hg Hnil. apply In_nth_error in Hg. destruct Hg as [k Hk].
    apply chunk_slices_nth in Hk. destruct Hk as [Hg Hk]. subst g.
    apply (f_equal (@List.length string)) in Hnil.
    unfold slice, chunk_size in *. rewrite length_firstn, length_skipn in Hnil.
    simpl in Hnil. lia.
Qed.

(** ** Vector ids *)

Lemma uint_string_no_underscore (d : Decimal.uint) :
  Str.contains "_" (NilEmpty.string_of_uint d) = false.
Proof. induction d; simpl; auto. Qed.

Lemma decimal_no_underscore (n : nat) : ~ Str.Substring "_" (decimal n).
Proof. apply contains_false, uint_string_no_underscore. Qed.

Lemma decimal_injective (n m : nat) : decimal n = decimal m -> n = m.
Proof.
  unfold decimal. intros H.
  assert (Hu : Nat.to_uint n = Nat.to_uint m).
  { pose proof (NilEmpty.usu (Nat.to_uint n)) as Hn.
    pose proof (NilEmpty.usu (Nat.to_uint m)) as Hm.
    rewrite H in Hn. congruence. }
  rewrite <- (DecimalNat.Unsigned.of_to n), <- (DecimalNat.Unsigned.of_to m).
  now rewrite Hu.
Qed.

Lemma substring_tail (k : string) (c : ascii) (s : string) :
  Str.Substring k s -> Str.Substring k (String c s).
Proof. intros (a & b & ->). now exists (String c a), b. Qed.

Lemma split_at_underscore (x y a b : string) :
  ~ Str.Substring "_" x -> ~ Str.Substring "_" y ->
  x ++ "_" ++ a = y ++ "_" ++ b -> x = y.
Proof.
  revert y. induction x as [|c x IH]; intros y Hx Hy H.
  - destruct y as [|d y]; [reflexivity|].
    simpl in H. injection H as <- _.
    exfalso. apply Hy. now exists EmptyString, y.
  - destruct y as [|d y].
    + simpl in H. injection H as -> _.
      exfalso. apply Hx. now exists EmptyString, x.
    + simpl in H. injection H as -> H. f_equal.
      apply IH; [| |exact H]; intros Hs; [apply Hx|apply Hy]; now apply substring_tail.
Qed.

(** X15: the ids of two chunks at different positions differ, whatever
    their texts and hashes. *)
Theorem unique_ids_distinct (hash : string -> Z) (i j : nat) (chunk chunk' : string) :
  i <> j -> unique_id hash i chunk <> unique_id hash j chunk'.
Proof.
  intros Hne H. unfold unique_id in H.
  apply append_cancel_l in H.
  apply split_at_underscore in H; try apply decimal_no_underscore.
  now apply Hne, decimal_injective.
Qed.

(** ** The embedding loop *)

Section ScriptFacts.

Variable split_words : string -> list string.
Variable hash : string -> Z.
Variable new_openai : nat -> bool.
Variable new_pinecone : nat -> bool.
Variable list_indexes : nat -> option (list string).
Variable create_index : nat -> bool.
Variable open_index : nat -> bool.
Variable file_exists : nat -> bool.
Variable read_file : nat -> option string.
Variable embed : nat -> option Embedding.
Variable upsert : nat -> bool.
Variable total_vector_count : nat -> option nat.
Variable getenv : string -> option string.
Variable importable : string -> bool.
Variable test_completion : nat -> bool.
Variable setup_logging : nat -> bool.
Variable mkdir : nat -> bool.
Variable serve : nat -> ServeOutcome.

Local Notation "'store'" := (store_chunks hash embed upsert).
Local Notation "'load'" :=
  (load_data_properly split_words hash new_openai new_pinecone list_indexes
                      create_index open_index read_file embed upsert
                      total_vector_count).
Local Notation "'load_to_pinecone'" :=
  (load_data_to_pinecone split_words hash new_openai new_pinecone list_indexes
                         create_index open_index read_file embed upsert
                         total_vector_count).
Local Notation "'check_chunks'" :=
  (check_data_chunks split_words new_pinecone list_indexes open_index read_file
                     total_vector_count).
Local Notation "'setup'" :=
  (setup_data split_words hash new_openai new_pinecone list_indexes create_index
              open_index file_exists read_file embed upsert total_vector_count).

Lemma store_chunks_run (chunks : list string) :
  forall i trace,
  exists calls,
    store i chunks trace = (Some tt, (trace ++ calls)%list)
    /\ filter is_embed calls = map Embed chunks
    /\ (List.length (filter is_upsert calls) <= List.length chunks)%nat
    /\ (forall id values text chunk_id,
          In (Upsert id values text chunk_id) calls ->
          (i <= chunk_id)%nat
          /\ nth_error chunks (chunk_id - i) = Some text
          /\ id = unique_id hash chunk_id text)
    /\ ((forall n, embed n <> None) -> (forall n, upsert n = true) ->
        List.length (filter is_upsert calls) = List.length chunks)
    /\ ((forall n, embed n = None) -> calls = map Embed chunks).
Proof.
  induction chunks as [|chunk rest IH]; intros i trace.
  - exists []. simpl. rewrite app_nil_r. unfold ret.
    repeat split; auto; try contradiction; try (simpl; lia).
  - simpl.
    unfold bind at 1, try_except, store_chunk, bind, call, check, call, ret.
    destruct (embed (List.length trace)) as [values|] eqn:Ee.
    + destruct (upsert (List.length (trace ++ [Embed chunk]))) eqn:Eu.
      * destruct (IH (S i) ((trace ++ [Embed chunk])
                             ++ [Upsert (unique_id hash i chunk) values chunk i])%list)
          as (calls & E & Hemb & Hkind & Hups & Hall & Hnone).
        exists (Embed chunk :: Upsert (unique_id hash i chunk) values chunk i :: calls).
        rewrite E, <- !app_assoc. simpl.
        split; [reflexivity|]. split; [now rewrite Hemb|].
        split; [simpl; lia|].
        split.
        { intros id v text cid [Hc|[Hc|Hc]]; [discriminate| |].
          - injection Hc as <- <- <- <-. rewrite Nat.sub_diag. simpl. auto.
          - destruct (Hups _ _ _ _ Hc) as (Hle & Hnth & Hid).
            split; [lia|]. split; [|exact Hid].
            replace (cid - i)%nat with (S (cid - S i)) by lia. exact Hnth. }
        split.
        { intros He Hu. simpl. now rewrite Hall. }
        intros He. rewrite He in Ee. discriminate.
      * destruct (IH (S i) ((trace ++ [Embed chunk])
                             ++ [Upsert (unique_id hash i chunk) values chunk i])%list)
          as (calls & E & Hemb & Hkind & Hups & Hall & Hnone).
        exists (Embed chunk :: Upsert (unique_id hash i chunk) values chunk i :: calls).
        rewrite E, <- !app_assoc. simpl.
        split; [reflexivity|]. split; [now rewrite Hemb|].
        split; [simpl; lia|].
        split.
        { intros id v text cid [Hc|[Hc|Hc]]; [discriminate| |].
          - injection Hc as <- <- <- <-. rewrite Nat.sub_diag. simpl. auto.
          - destruct (Hups _ _ _ _ Hc) as (Hle & Hnth & Hid).
            split; [lia|]. split; [|exact Hid].
            replace (cid - i)%nat with (S (cid - S i)) by lia. exact Hnth. }
        split.
        { intros He Hu. rewrite Hu in Eu. discriminate. }
        intros He. rewrite He in Ee. discriminate.
    + destruct (IH (S i) (trace ++ [Embed chunk])%list)
        as (calls & E & Hemb & Hkind & Hups & Hall & Hnone).
      exists (Embed chunk :: calls).
      rewrite E, <- !app_assoc. simpl.
      split; [reflexivity|]. split; [now rewrite Hemb|].
      split; [simpl; lia|].
      split.
      { intros id v text cid [Hc|Hc]; [discriminate|].
        destruct (Hups _ _ _ _ Hc) as (Hle & Hnth & Hid).
        split; [lia|]. split; [|exact Hid].
        replace (cid - i)%nat with (S (cid - S i)) by lia. exact Hnth. }
      split.
      { intros He. exfalso. now apply (He (List.length trace)). }
      intros He. now rewrite (Hnone He).
Qed.

(** X16: the embedding loop never raises and sends every chunk for
    embedding exactly once, in order, whatever fails on the way; each
    vector it stores carries the text of the chunk at its [chunk_id] and
    the id built from that position; when no call fails, one vector is
    stored per chunk. *)
Theorem embedding_loop_isolates_failures (chunks : list string) (trace : list Call) :
  exists calls,
    store 0 chunks trace = (Some tt, (trace ++ calls)%list)
    /\ filter is_embed calls = map Embed chunks
    /\ (forall id values text chunk_id,
          In (Upsert id values text chunk_id) calls ->
          nth_error chunks chunk_id = Some text
          /\ id = unique_id hash chunk_id text)
    /\ (List.length (filter is_upsert calls) <= List.length chunks)%nat
    /\ ((forall n, embed n <> None) -> (forall n, upsert n = true) ->
        List.length (filter is_upsert calls) = List.length chunks).
Proof.
  destruct (store_chunks_run chunks 0 trace)
    as (calls & E & Hemb & Hkind & Hups & Hall & _).
  exists calls. split; [exact E|]. split; [exact Hemb|].
  split.
  { intros id v text cid Hc. destruct (Hups _ _ _ _ Hc) as (_ & Hnth & Hid).
    rewrite Nat.sub_0_r in Hnth. now split. }
  split; [exact Hkind | exact Hall].
Qed.

(** ** Loading *)

Lemma load_data_properly_run (trace : list Call) :
  exists b calls, load trace = (Some b, (trace ++ calls)%list).
Proof.
  unfold load_data_properly, try_except.
  unfold bind at 1, check at 1, call at 1.
  destruct (new_openai (List.length trace));
    [|eexists _, [_]; unfold ret; reflexivity].
  unfold bind at 1, check at 1, call at 1.
  destruct (new_pinecone _);
    [|eexists _, [_; _]; unfold ret; rewrite <- app_assoc; reflexivity].
  unfold bind at 1, call at 1.
  destruct (list_indexes _) as [names|];
    [|eexists _, [_; _; _]; unfold ret; rewrite <- !app_assoc; reflexivity].
  set (t3 := (((trace ++ [NewOpenAI]) ++ [NewPinecone]) ++ [ListIndexes])%list).
  assert (Ht3 : exists c3, t3 = (trace ++ c3)%list)
    by (eexists; unfold t3; rewrite <- !app_assoc; reflexivity).
  destruct Ht3 as [c3 Ht3].
  unfold bind at 1.
  assert (Hcreate :
            exists r c4,
              (if negb (mem index_name names)
               then check (CreateIndex index_name) create_index
               else ret tt) t3 = (r, (trace ++ c4)%list)).
  { destruct (negb (mem index_name names)).
    - unfold check, call. eexists _, _. rewrite Ht3, <- app_assoc. reflexivity.
    - unfold ret. eexists _, _. rewrite Ht3. reflexivity. }
  destruct Hcreate as (r & c4 & ->).
  destruct r as [[]|]; [|eexists _, _; unfold ret; reflexivity].
  unfold bind at 1, check at 1, call at 1.
  destruct (open_index _);
    [|eexists _, _; unfold ret; rewrite <- app_assoc; reflexivity].
  unfold bind at 1, call at 1.
  destruct (read_file _) as [text|];
    [|eexists _, _; unfold ret; rewrite <- !app_assoc; reflexivity].
  unfold bind at 1.
  match goal with
  | |- context [store_chunks _ _ _ ?i ?cs ?t] =>
      destruct (store_chunks_run cs i t) as (calls & -> & _)
  end.
  unfold bind, call, ret.
  destruct (total_vector_count _);
    eexists _, _; rewrite <- !app_assoc; reflexivity.
Qed.

Lemma load_data_to_pinecone_run (trace : list Call) :
  exists v calls, load_to_pinecone trace = (Some v, (trace ++ calls)%list).
Proof.
  unfold load_data_to_pinecone, bind at 1.
  destruct (load_data_properly_run trace) as (b & calls & ->).
  destruct b; [|unfold ret; eauto].
  unfold try_except, bind, check, call, ret.
  destruct (new_pinecone _);
    [|eexists _, _; rewrite <- !app_assoc; reflexivity].
  destruct (open_index _);
    [|eexists _, _; rewrite <- !app_assoc; reflexivity].
  destruct (total_vector_count _);
    eexists _, _; rewrite <- !app_assoc; reflexivity.
Qed.

(** X17: [load_data_properly] never raises, whatever call fails: when
    the OpenAI client cannot be constructed it returns [False] after that
    one call.  And it reports success even when every embedding call failed
    and nothing was stored: with all other calls succeeding, it returns
    [True] after one embedding call per chunk and no upsert. *)
Theorem load_reports_success_without_storing (trace : list Call) :
  (exists b calls, load trace = (Some b, (trace ++ calls)%list))
  /\ (new_openai (List.length trace) = false ->
      load trace = (Some false, (trace ++ [NewOpenAI])%list))
  /\ forall (text : string) (names : list string) (count : nat),
      (forall n, new_openai n = true) ->
      (forall n, new_pinecone n = true) ->
      (forall n, list_indexes n = Some names) ->
      (forall n, create_index n = true) ->
      (forall n, open_index n = true) ->
      (forall n, read_file n = Some text) ->
      (forall n, total_vector_count n = Some count) ->
      (forall n, embed n = None) ->
      exists calls,
        load trace = (Some true, (trace ++ calls)%list)
        /\ filter is_upsert calls = []
        /\ List.length (filter is_embed calls) = total_chunks (split_words text).
Proof.
  split; [apply load_data_properly_run|].
  split.
  { intros Hfail. unfold load_data_properly, try_except, bind, check, call, ret.
    now rewrite Hfail. }
  intros text names count Hoa Hpc Hli Hci Hoi Hrf Htv Hem.
  unfold load_data_properly, try_except.
  unfold bind at 1, check at 1, call at 1. rewrite Hoa.
  unfold bind at 1, check at 1, call at 1. rewrite Hpc.
  unfold bind at 1, call at 1. rewrite Hli.
  unfold bind at 1.
  set (t3 := (((trace ++ [NewOpenAI]) ++ [NewPinecone]) ++ [ListIndexes])%list).
  assert (Hcreate :
            exists c4,
              (if negb (mem index_name names)
               then check (CreateIndex index_name) create_index
               else ret tt) t3 = (Some tt, (t3 ++ c4)%list)
              /\ filter is_upsert c4 = [] /\ filter is_embed c4 = []).
  { destruct (negb (mem index_name names)).
    - unfold check, call. rewrite Hci. eexists. split; [reflexivity|]. now split.
    - unfold ret. exists []. rewrite app_nil_r. now split. }
  destruct Hcreate as (c4 & -> & Hu4 & He4).
  unfold bind at 1, check at 1, call at 1. rewrite Hoi.
  unfold bind at 1, call at 1. rewrite Hrf.
  unfold bind at 1.
  match goal with
  | |- context [store_chunks _ _ _ ?i ?cs ?t] =>
      destruct (store_chunks_run cs i t) as (calls & -> & _ & _ & _ & _ & Hnone)
  end.
  specialize (Hnone Hem). subst calls.
  unfold bind, call, ret. rewrite Htv.
  eexists. split.
  { unfold t3. rewrite <- !app_assoc. reflexivity. }
  simpl. rewrite !filter_app, Hu4, He4. simpl.
  rewrite !filter_app. simpl. rewrite !app_nil_r.
  split.
  - induction (make_chunks (split_words text)); simpl; auto.
  - rewrite <- chunk_count_matches_expectation_aux.
    induction (make_chunks (split_words text)); simpl; auto.
Qed.

(** ** Checking and setting up *)

Lemma check_data_chunks_run (trace : list Call) :
  let n := List.length trace in
  exists counts calls,
    check_chunks trace = (Some counts, (trace ++ ReadFile data_file :: calls)%list)
    /\ filter is_load_call calls = []
    /\ (read_file n = None -> counts = (None, None) /\ calls = [])
    /\ (forall text,
          read_file n = Some text ->
          exists stored,
            counts = (Some (List.length (split_words text)), Some stored)
            /\ (stored <> 0%nat ->
                new_pinecone (1 + n) = true
                /\ (exists names, list_indexes (2 + n) = Some names
                                  /\ mem index_name names = true)
                /\ open_index (3 + n) = true
                /\ total_vector_count (4 + n) = Some stored)).
Proof.
  intros n. subst n. unfold check_data_chunks.
  unfold bind at 1, try_except at 1, bind at 1, call at 1, ret.
  destruct (read_file (List.length trace)) as [text|] eqn:Er.
  - unfold try_except, bind, check, call, ret.
    rewrite !length_app. simpl List.length.
    replace (List.length trace + 1 + 1)%nat with (2 + List.length trace)%nat by lia.
    replace (List.length trace + 1)%nat with (1 + List.length trace)%nat by lia.
    destruct (new_pinecone (1 + List.length trace)) eqn:Ep.
    + destruct (list_indexes (2 + List.length trace)) as [names|] eqn:El.
      * destruct (mem index_name names) eqn:Em.
        -- rewrite !length_app. simpl List.length.
           replace (List.length trace + 1 + 1 + 1 + 1)%nat
             with (4 + List.length trace)%nat by lia.
           replace (List.length trace + 1 + 1 + 1)%nat
             with (3 + List.length trace)%nat by lia.
           destruct (open_index (3 + List.length trace)) eqn:Eo.
           ++ destruct (total_vector_count (4 + List.length trace)) as [stored|] eqn:Et.
              ** eexists _, _. rewrite <- !app_assoc. simpl.
                 split; [reflexivity|]. split; [reflexivity|].
                 split; [discriminate|]. intros text' Ht. injection Ht as <-.
                 exists stored. split; [reflexivity|]. intros _.
                 repeat split; auto. now exists names.
              ** eexists _, _. rewrite <- !app_assoc. simpl.
                 split; [reflexivity|]. split; [reflexivity|].
                 split; [discriminate|]. intros text' Ht. injection Ht as <-.
                 exists 0%nat. split; [reflexivity|]. congruence.
           ++ eexists _, _. rewrite <- !app_assoc. simpl.
              split; [reflexivity|]. split; [reflexivity|].
              split; [discriminate|]. intros text' Ht. injection Ht as <-.
              exists 0%nat. split; [reflexivity|]. congruence.
        -- eexists _, _. rewrite <- !app_assoc. simpl.
           split; [reflexivity|]. split; [reflexivity|].
           split; [discriminate|]. intros text' Ht. injection Ht as <-.
           exists 0%nat. split; [reflexivity|]. congruence.
      * eexists _, _. rewrite <- !app_assoc. simpl.
        split; [reflexivity|]. split; [reflexivity|].
        split; [discriminate|]. intros text' Ht. injection Ht as <-.
        exists 0%nat. split; [reflexivity|]. congruence.
    + eexists _, _. rewrite <- !app_assoc. simpl.
      split; [reflexivity|]. split; [reflexivity|].
      split; [discriminate|]. intros text' Ht. injection Ht as <-.
      exists 0%nat. split; [reflexivity|]. congruence.
  - exists (None, None), []. split; [reflexivity|]. split; [reflexivity|].
    split; [auto | discriminate].
Qed.

(** X18: [check_data_chunks] never raises and never loads anything.  It
    returns [(None, None)] when the file cannot be read; otherwise the
    exact word count, and a stored count that is nonzero only if Pinecone
    was reached, listed the index, opened it and reported that count. *)
Theorem check_data_chunks_outcome (trace : list Call) :
  let n := List.length trace in
  exists counts calls,
    check_chunks trace = (Some counts, (trace ++ ReadFile data_file :: calls)%list)
    /\ filter is_load_call calls = []
    /\ (read_file n = None -> counts = (None, None) /\ calls = [])
    /\ (forall text,
          read_file n = Some text ->
          exists stored,
            counts = (Some (List.length (split_words text)), Some stored)
            /\ (stored <> 0%nat ->
                new_pinecone (1 + n) = true
                /\ (exists names, list_indexes (2 + n) = Some names
                                  /\ mem index_name names = true)
                /\ open_index (3 + n) = true
                /\ total_vector_count (4 + n) = Some stored)).
Proof. exact (check_data_chunks_run trace). Qed.

Lemma setup_data_run (trace : list Call) :
  let n := List.length trace in
  let trace0 := (trace ++ [FileExists data_file])%list in
  setup trace =
  if file_exists n
  then match check_chunks trace0 with
       | (Some (word_count, chunk_count), trace1) =>
           if truthy word_count && truthy chunk_count
           then match chunk_count with
                | Some stored =>
                    if (stored <? 100)%nat
                    then match load_to_pinecone trace1 with
                         | (Some _, trace2) => (Some true, trace2)
                         | (None, trace2) => (Some false, trace2)
                         end
                    else (Some true, trace1)
                | None => (Some true, trace1)
                end
           else (Some false, trace1)
       | (None, trace1) => (Some false, trace1)
       end
  else (Some false, trace0).
Proof.
  cbv zeta. unfold setup_data, bind at 1, call at 1.
  destruct (file_exists (List.length trace)); simpl; [|reflexivity].
  unfold try_except, bind at 1.
  destruct (check_data_chunks _ _ _ _ _ _ _) as [[[wc cc]|] trace1]; [|reflexivity].
  destruct (truthy wc && truthy cc); [|reflexivity].
  destruct cc as [stored|]; [|reflexivity].
  destruct (stored <? 100)%nat; [|reflexivity].
  unfold bind.
  destruct (load_data_to_pinecone _ _ _ _ _ _ _ _ _ _ _ _) as [[v|] trace2];
    reflexivity.
Qed.

(** X19: [setup_data] never raises.  It succeeds exactly when the data
    file exists and [check_data_chunks] reports a nonzero word count and a
    nonzero stored count; it then loads the data when fewer than 100
    vectors are stored, and succeeds whatever the load returns. *)
Theorem setup_data_decision (trace : list Call) :
  let n := List.length trace in
  let trace0 := (trace ++ [FileExists data_file])%list in
  exists counts trace1,
    check_chunks trace0 = (Some counts, trace1)
    /\ (file_exists n = false -> setup trace = (Some false, trace0))
    /\ (file_exists n = true ->
        truthy (fst counts) && truthy (snd counts) = false ->
        setup trace = (Some false, trace1))
    /\ (forall stored,
          file_exists n = true ->
          truthy (fst counts) = true ->
          snd counts = Some stored ->
          (0 < stored)%nat ->
          exists v trace2,
            load_to_pinecone trace1 = (Some v, trace2)
            /\ setup trace = (Some true, if (stored <? 100)%nat then trace2 else trace1)).
Proof.
  intros n trace0.
  destruct (check_data_chunks_run trace0) as (counts & calls & E & _).
  exists counts. eexists. split; [exact E|].
  pose proof (setup_data_run trace) as Hs. cbv zeta in Hs.
  fold n trace0 in Hs. rewrite E in Hs. destruct counts as [wc cc].
  split; [|split].
  - intros Hf. now rewrite Hf in Hs.
  - intros Hf Ht. simpl in Ht. now rewrite Hf, Ht in Hs.
  - intros stored Hf Hw Hc Hpos. simpl in Hw, Hc. subst cc.
    assert (Htr : truthy (Some stored) = true) by (destruct stored; [lia|reflexivity]).
    rewrite Hf, Hw, Htr in Hs. simpl in Hs.
    destruct (load_data_to_pinecone_run
                (trace0 ++ ReadFile data_file :: calls)%list) as (v & calls2 & El).
    exists v. eexists. split; [exact El|].
    rewrite El in Hs. destruct (stored <? 100)%nat; exact Hs.
Qed.

(** X20: an index that is unreachable, missing or empty is never
    populated by [setup_data]: when the file exists and is readable but
    the check cannot find a nonzero stored count, [setup_data] returns
    [False] without creating an index, embedding or storing anything. *)
Theorem setup_data_never_populates_empty_index (trace : list Call) (text : string) :
  let n := List.length trace in
  file_exists n = true ->
  read_file (1 + n) = Some text ->
  (new_pinecone (2 + n) = false
   \/ list_indexes (3 + n) = None
   \/ (exists names, list_indexes (3 + n) = Some names /\ mem index_name names = false)
   \/ open_index (4 + n) = false
   \/ total_vector_count (5 + n) = None
   \/ total_vector_count (5 + n) = Some 0%nat) ->
  exists calls,
    setup trace = (Some false, (trace ++ calls)%list)
    /\ filter is_load_call calls = [].
Proof.
  intros n Hf Hr Hbad.
  set (trace0 := (trace ++ [FileExists data_file])%list).
  assert (Hn0 : List.length trace0 = (1 + n)%nat)
    by (unfold trace0; rewrite length_app; simpl; lia).
  destruct (check_data_chunks_run trace0) as (counts & calls & E & Hload & _ & Hsome).
  cbv zeta in Hsome. rewrite Hn0 in Hsome.
  destruct (Hsome text Hr) as (stored & -> & Hstored).
  assert (Hz : stored = 0%nat).
  { destruct stored as [|s]; [reflexivity|]. exfalso.
    destruct Hstored as (Hp & (names & Hl & Hm) & Ho & Ht); [discriminate|].
    replace (1 + (1 + n))%nat with (2 + n)%nat in * by lia.
    replace (2 + (1 + n))%nat with (3 + n)%nat in * by lia.
    replace (3 + (1 + n))%nat with (4 + n)%nat in * by lia.
    replace (4 + (1 + n))%nat with (5 + n)%nat in * by lia.
    destruct Hbad as [H|[H|[(names' & H & Hm')|[H|[H|H]]]]]; try congruence. }
  subst stored.
  pose proof (setup_data_run trace) as Hs. cbv zeta in Hs.
  fold n trace0 in Hs. rewrite E, Hf in Hs.
  replace (truthy (Some (List.length (split_words text))) && truthy (Some 0%nat))
    with false in Hs by (now rewrite andb_false_r).
  exists (FileExists data_file :: ReadFile data_file :: calls).
  split.
  - rewrite Hs. unfold trace0. rewrite <- app_assoc. reflexivity.
  - simpl. exact Hload.
Qed.

(** ** Starting up *)

Lemma emits_ret {A} (P : Call -> Prop) (a : A) : Emits P (ret a).
Proof. intros trace. exists (Some a), []. rewrite app_nil_r. now split. Qed.

Lemma emits_bind {A B} (P : Call -> Prop) (c : Run A) (k : A -> Run B) :
  Emits P c -> (forall a, Emits P (k a)) -> Emits P (bind c k).
Proof.
  intros Hc Hk trace. unfold bind.
  destruct (Hc trace) as (r & calls & -> & Hcalls).
  destruct r as [a|].
  - destruct (Hk a (trace ++ calls)%list) as (r' & calls' & -> & Hcalls').
    exists r', (calls ++ calls')%list. rewrite app_assoc.
    split; [reflexivity | now apply Forall_app].
  - now exists None, calls.
Qed.

Lemma emits_try {A} (P : Call -> Prop) (body handler : Run A) :
  Emits P body -> Emits P handler -> Emits P (try_except body handler).
Proof.
  intros Hb Hh trace. unfold try_except.
  destruct (Hb trace) as (r & calls & -> & Hcalls).
  destruct r as [a|].
  - now exists (Some a), calls.
  - destruct (Hh (trace ++ calls)%list) as (r' & calls' & -> & Hcalls').
    exists r', (calls ++ calls')%list. rewrite app_assoc.
    split; [reflexivity | now apply Forall_app].
Qed.

Lemma emits_call {A} (P : Call -> Prop) (c : Call) (oracle : nat -> option A) :
  P c -> Emits P (call c oracle).
Proof.
  intros Hc trace. unfold call. eexists _, [c]. split; [reflexivity|].
  now constructor.
Qed.

Lemma emits_check (P : Call -> Prop) (c : Call) (oracle : nat -> bool) :
  P c -> Emits P (check c oracle).
Proof. intros Hc. now apply emits_call. Qed.

Ltac emits :=
  repeat first
    [ apply emits_ret
    | apply emits_check; unfold not_start; discriminate
    | apply emits_call; unfold not_start; discriminate
    | apply emits_bind; [|intros ?]
    | apply emits_try
    | match goal with
      | |- Emits _ (if ?b then _ else _) => destruct b
      | |- Emits _ (match ?x with _ => _ end) => destruct x
      end ].

Lemma emits_store_chunks (chunks : list string) :
  forall i, Emits not_start (store i chunks).
Proof.
  induction chunks as [|chunk rest IH]; intros i; simpl.
  - apply emits_ret.
  - apply emits_bind; [|intros _; apply IH].
    unfold store_chunk. emits.
Qed.

Lemma emits_load : Emits not_start load.
Proof.
  unfold load_data_properly. emits. apply emits_store_chunks.
Qed.

Lemma emits_load_to_pinecone : Emits not_start load_to_pinecone.
Proof.
  unfold load_data_to_pinecone. apply emits_bind; [apply emits_load|].
  intros b. emits.
Qed.

Lemma emits_check_chunks : Emits not_start check_chunks.
Proof. unfold check_data_chunks. emits. Qed.

Lemma emits_setup : Emits not_start setup.
Proof.
  unfold setup_data. apply emits_bind; [emits|]. intros e.
  destruct (negb e); [apply emits_ret|].
  apply emits_try; [|apply emits_ret].
  apply emits_bind; [apply emits_check_chunks|]. intros [wc cc].
  destruct (truthy wc && truthy cc); [|apply emits_ret].
  destruct cc as [stored|]; [|apply emits_ret].
  destruct (stored <? 100)%nat; [|apply emits_ret].
  apply emits_bind; [apply emits_load_to_pinecone | intros; apply emits_ret].
Qed.

Local Notation "'check_env'" :=
  (check_environment new_openai new_pinecone list_indexes getenv test_completion).
Local Notation "'run_main'" :=
  (main split_words hash new_openai new_pinecone list_indexes create_index open_index
        file_exists read_file embed upsert total_vector_count getenv importable
        test_completion setup_logging mkdir serve).

Lemma no_missing_vars :
  filter (is_missing getenv) required_vars = [] <->
  forall var, In var required_vars ->
              exists value, getenv var = Some value /\ value <> EmptyString.
Proof.
  split.
  - intros Hnone var Hin.
    assert (Hm : is_missing getenv var = false).
    { destruct (is_missing getenv var) eqn:E; [|reflexivity].
      assert (Hf : In var (filter (is_missing getenv) required_vars))
        by (apply filter_In; now split).
      rewrite Hnone in Hf. contradiction. }
    unfold is_missing in Hm. destruct (getenv var) as [[|c v]|]; try discriminate.
    exists (String c v). split; [reflexivity | discriminate].
  - intros Hall.
    destruct (filter (is_missing getenv) required_vars) as [|var rest] eqn:E;
      [reflexivity|].
    assert (Hf : In var (filter (is_missing getenv) required_vars))
      by (rewrite E; now left).
    apply filter_In in Hf. destruct Hf as [Hin Hm].
    destruct (Hall var Hin) as (value & Hv & Hne).
    unfold is_missing in Hm. rewrite Hv in Hm. destruct value; [congruence|discriminate].
Qed.

(** The run of [check_environment] from any trace: its result, the calls
    it adds, and what each result says about the variables. *)
Lemma check_environment_run (trace : list Call) :
  exists b calls,
    check_env trace = (Some b, (trace ++ calls)%list)
    /\ ((exists var, In var required_vars
                     /\ (getenv var = None \/ getenv var = Some EmptyString)) ->
        b = false /\ calls = [])
    /\ (b = true ->
        (forall var, In var required_vars ->
                     exists value, getenv var = Some value /\ value <> EmptyString)
        /\ calls = [NewOpenAI; TestCompletion; NewPinecone; ListIndexes]).
Proof.
  unfold check_environment.
  destruct (filter (is_missing getenv) required_vars) as [|var rest] eqn:E.
  - assert (Hall := proj1 no_missing_vars E).
    assert (Hno : (exists var, In var required_vars
                     /\ (getenv var = None \/ getenv var = Some EmptyString)) -> False).
    { intros (var & Hin & Hbad). destruct (Hall var Hin) as (value & Hv & Hne).
      destruct Hbad as [Hbad|Hbad]; congruence. }
    unfold bind, try_except, check, call, ret. cbv beta.
    destruct (new_openai (List.length trace)).
    + destruct (test_completion (List.length (trace ++ [NewOpenAI]))).
      * cbv beta iota delta [negb].
        destruct (new_pinecone
                    (List.length ((trace ++ [NewOpenAI]) ++ [TestCompletion]))).
        -- cbv beta iota delta [negb].
           destruct (list_indexes
                       (List.length
                          (((trace ++ [NewOpenAI]) ++ [TestCompletion])
                             ++ [NewPinecone]))).
           ++ eexists _, _. rewrite <- !app_assoc. split; [reflexivity|].
              split; [intros H; destruct (Hno H)|].
              intros _. split; [exact Hall | reflexivity].
           ++ eexists _, _. rewrite <- !app_assoc. split; [reflexivity|].
              split; [intros H; destruct (Hno H) | intros H; discriminate H].
        -- eexists _, _. rewrite <- !app_assoc. split; [reflexivity|].
           split; [intros H; destruct (Hno H) | intros H; discriminate H].
      * eexists _, _. rewrite <- !app_assoc. split; [reflexivity|].
        split; [intros H; destruct (Hno H) | intros H; discriminate H].
    + eexists _, _. split; [reflexivity|].
      split; [intros H; destruct (Hno H) | intros H; discriminate H].
  - exists false, []. unfold ret. rewrite app_nil_r.
    split; [reflexivity|]. split; [auto | discriminate].
Qed.

(** X21: [check_environment] never raises.  When one of the three
    variables, [PINECONE_ENVIRONMENT] included, is unset or empty it
    returns [False] without any call; it returns [True] only after the
    OpenAI test completion and the Pinecone listing have both been made,
    in that order. *)
Theorem check_environment_outcome (trace : list Call) :
  exists b calls,
    check_env trace = (Some b, (trace ++ calls)%list)
    /\ ((exists var, In var required_vars
                     /\ (getenv var = None \/ getenv var = Some EmptyString)) ->
        b = false /\ calls = [])
    /\ (b = true ->
        (forall var, In var required_vars ->
                     exists value, getenv var = Some value /\ value <> EmptyString)
        /\ calls = [NewOpenAI; TestCompletion; NewPinecone; ListIndexes]).
Proof. exact (check_environment_run trace). Qed.

Lemma emits_check_env : Emits not_start check_env.
Proof. unfold check_environment. emits. Qed.

Lemma emits_make_directories (directories : list string) :
  Emits not_start (make_directories mkdir directories).
Proof.
  induction directories as [|d rest IH]; simpl; [apply emits_ret|].
  apply emits_bind; [emits | intros _; exact IH].
Qed.

Lemma dependencies_available :
  check_advanced_dependencies importable = true <->
  forall package, In package required_packages -> importable package = true.
Proof.
  unfold check_advanced_dependencies. split.
  - intros H package Hin.
    destruct (filter _ required_packages) as [|p rest] eqn:E; [|discriminate].
    destruct (importable package) eqn:Ei; [reflexivity|].
    assert (Hf : In package (filter (fun package => negb (importable package))
                                    required_packages))
      by (apply filter_In; split; [exact Hin | now rewrite Ei]).
    rewrite E in Hf. contradiction.
  - intros Hall.
    destruct (filter _ required_packages) as [|p rest] eqn:E; [reflexivity|].
    assert (Hf : In p (filter (fun package => negb (importable package))
                              required_packages))
      by (rewrite E; now left).
    apply filter_In in Hf. destruct Hf as [Hin Hm].
    rewrite (Hall p Hin) in Hm. discriminate.
Qed.

(** What a successful [setup_data] has seen. *)
Lemma setup_data_success (trace : list Call) (trace' : list Call) :
  setup trace = (Some true, trace') ->
  exists position stored names listing,
    total_vector_count position = Some stored /\ stored <> 0%nat
    /\ list_indexes listing = Some names /\ mem index_name names = true.
Proof.
  intros Hs.
  pose proof (setup_data_run trace) as Hrun. cbv zeta in Hrun. rewrite Hs in Hrun.
  destruct (file_exists (List.length trace)); [|discriminate].
  set (trace0 := (trace ++ [FileExists data_file])%list) in *.
  destruct (check_data_chunks_run trace0) as (counts & calls & E & _ & Hnone & Hsome).
  rewrite E in Hrun. destruct counts as [wc cc].
  destruct (truthy wc && truthy cc) eqn:Et; [|discriminate].
  apply andb_true_iff in Et. destruct Et as [Hw Hc].
  destruct (read_file (List.length trace0)) as [text|] eqn:Er.
  - destruct (Hsome text eq_refl) as (stored & Hcounts & Hstored).
    injection Hcounts as -> ->.
    destruct stored as [|stored]; [discriminate|].
    destruct Hstored as (_ & (names & Hl & Hm) & _ & Ht); [discriminate|].
    eauto 8.
  - destruct (Hnone eq_refl) as [Hcounts _]. injection Hcounts as -> ->.
    discriminate.
Qed.

(** X22: [main] starts the server at most once, as its last call, and
    only when every required package can be imported, the three variables
    are set and not empty, and the vector index was listed and reported a
    nonzero number of vectors; it ends normally only if the server was
    started. *)
Theorem main_starts_server_only_after_checks (trace : list Call) :
  exists r calls,
    run_main trace = (r, (trace ++ calls)%list)
    /\ (In StartServer calls ->
        (forall package, In package required_packages -> importable package = true)
        /\ (forall var, In var required_vars ->
                        exists value, getenv var = Some value /\ value <> EmptyString)
        /\ (exists position stored names listing,
              total_vector_count position = Some stored /\ stored <> 0%nat
              /\ list_indexes listing = Some names /\ mem index_name names = true)
        /\ exists front, calls = (front ++ [StartServer])%list
                         /\ ~ In StartServer front)
    /\ (r = Some Finished -> In StartServer calls).
Proof.
  assert (Hnot : forall calls, Forall not_start calls -> ~ In StartServer calls).
  { intros calls Hf Hin. rewrite Forall_forall in Hf. now apply (Hf _ Hin). }
  unfold main.
  unfold bind at 1.
  destruct (emits_check not_start SetupLogging setup_logging
              ltac:(unfold not_start; discriminate) trace)
    as (r1 & c1 & -> & H1).
  destruct r1 as [[]|];
    [|exists None, c1; split; [reflexivity|]; split;
      [intros H; destruct (Hnot _ H1 H) | discriminate]].
  unfold bind at 1, create_directories.
  destruct (emits_make_directories ["logs"; "conversation_memory"; "temp"]
              (trace ++ c1)%list) as (r2 & c2 & -> & H2).
  assert (H12 : Forall not_start (c1 ++ c2)) by now apply Forall_app.
  destruct r2 as [[]|];
    [|exists None, (c1 ++ c2)%list; rewrite app_assoc; split; [reflexivity|]; split;
      [intros H; destruct (Hnot _ H12 H) | discriminate]].
  destruct (check_advanced_dependencies importable) eqn:Ed;
    [|exists (Some (Exit 1)), (c1 ++ c2)%list; unfold ret; rewrite app_assoc;
      split; [reflexivity|]; split;
      [intros H; destruct (Hnot _ H12 H) | discriminate]].
  cbv beta iota delta [negb]. unfold bind at 1.
  destruct (check_environment_run ((trace ++ c1) ++ c2)%list)
    as (b3 & c3 & E3 & _ & Htrue3).
  destruct (emits_check_env ((trace ++ c1) ++ c2)%list) as (r3 & c3' & E3' & H3).
  rewrite E3 in E3'. injection E3' as <- Hc3. apply app_inv_head in Hc3. subst c3'.
  rewrite E3.
  assert (H123 : Forall not_start ((c1 ++ c2) ++ c3))
    by (apply Forall_app; now split).
  destruct b3;
    [|exists (Some (Exit 1)), ((c1 ++ c2) ++ c3)%list; unfold ret; rewrite !app_assoc;
      split; [reflexivity|]; split;
      [intros H; destruct (Hnot _ H123 H) | discriminate]].
  cbv beta iota delta [negb]. unfold bind at 1.
  destruct (emits_setup (((trace ++ c1) ++ c2) ++ c3)%list) as (r4 & c4 & E4 & H4).
  rewrite E4.
  assert (H1234 : Forall not_start (((c1 ++ c2) ++ c3) ++ c4))
    by (apply Forall_app; now split).
  destruct r4 as [b4|];
    [|exists None, (((c1 ++ c2) ++ c3) ++ c4)%list; rewrite !app_assoc;
      split; [reflexivity|]; split;
      [intros H; destruct (Hnot _ H1234 H) | discriminate]].
  destruct b4;
    [|exists (Some (Exit 1)), (((c1 ++ c2) ++ c3) ++ c4)%list; unfold ret;
      rewrite !app_assoc; split; [reflexivity|]; split;
      [intros H; destruct (Hnot _ H1234 H) | discriminate]].
  cbv beta iota delta [negb]. unfold bind, call, ret.
  exists (match serve (List.length ((((trace ++ c1) ++ c2) ++ c3) ++ c4)%list) with
          | Crashed => Some (Exit 1)
          | _ => Some Finished
          end),
         ((((c1 ++ c2) ++ c3) ++ c4) ++ [StartServer])%list.
  split.
  { rewrite !app_assoc.
    destruct (serve _); reflexivity. }
  split.
  - intros _.
    split; [now apply dependencies_available|].
    split; [exact (proj1 (Htrue3 eq_refl))|].
    split; [exact (setup_data_success _ _ E4)|].
    eexists. split; [reflexivity | now apply Hnot].
  - intros _. apply in_or_app. right. now left.
Qed.

Local Notation "'launcher'" :=
  (setup_and_run split_words hash new_openai new_pinecone list_indexes create_index
                 open_index read_file embed upsert total_vector_count serve).

Lemma load_then_unit_run (trace : list Call) :
  exists calls,
    bind load (fun _ => ret tt) trace = (Some tt, (trace ++ calls)%list)
    /\ Forall not_start calls.
Proof.
  unfold bind. destruct (load_data_properly_run trace) as (b & calls & E).
  destruct (emits_load trace) as (r & calls' & E' & Hc).
  rewrite E in E'. injection E' as <- Heq. apply app_inv_head in Heq. subst calls'.
  rewrite E. now exists calls.
Qed.

(** X23: the launcher script always reaches the start of the server,
    exactly once and as its last call, whatever the checks and the load
    return or raise before. *)
Theorem launcher_always_starts_server (trace : list Call) :
  exists r front,
    launcher trace = (r, (trace ++ front ++ [StartServer])%list)
    /\ ~ In StartServer front.
Proof.
  assert (Hnot : forall calls, Forall not_start calls -> ~ In StartServer calls).
  { intros calls Hf Hin. rewrite Forall_forall in Hf. now apply (Hf _ Hin). }
  unfold setup_and_run. unfold bind at 1.
  destruct (check_data_chunks_run trace) as (counts & c1 & E1 & _).
  destruct (emits_check_chunks trace) as (r1 & c1' & E1' & H1).
  rewrite E1 in E1'. injection E1' as _ Heq. apply app_inv_head in Heq. subst c1'.
  rewrite E1. unfold bind at 1.
  set (trace1 := (trace ++ ReadFile data_file :: c1)%list).
  assert (Hblock :
            exists c2,
              try_except
                (bind (check NewPinecone new_pinecone)
                   (fun _ =>
                      bind (call ListIndexes list_indexes)
                        (fun names =>
                           if mem index_name names
                           then bind (check (OpenIndex index_name) open_index)
                                  (fun _ =>
                                     bind (call DescribeStats total_vector_count)
                                       (fun vector_count =>
                                          if (0 <? vector_count)%nat then ret tt
                                          else bind load (fun _ => ret tt)))
                           else bind load (fun _ => ret tt))))
                (bind load (fun _ => ret tt)) trace1
              = (Some tt, (trace1 ++ c2)%list)
              /\ Forall not_start c2).
  { unfold try_except.
    match goal with
    | |- context [match ?body trace1 with _ => _ end] =>
        assert (Hbody : Emits not_start body)
    end.
    { emits; apply emits_store_chunks. }
    destruct (Hbody trace1) as (r & c & -> & Hc).
    destruct r as [[]|].
    - now exists c.
    - destruct (load_then_unit_run (trace1 ++ c)%list) as (c' & -> & Hc').
      exists (c ++ c')%list. rewrite app_assoc. split; [reflexivity|].
      now apply Forall_app. }
  destruct Hblock as (c2 & -> & H2).
  unfold bind, call, ret, raise.
  exists (match serve (List.length (trace1 ++ c2)%list) with
          | Stopped => Some tt
          | _ => None
          end),
         ((ReadFile data_file :: c1) ++ c2)%list.
  split.
  - unfold trace1. rewrite <- !app_assoc. simpl.
    destruct (serve _); reflexivity.
  - apply Hnot, Forall_app. split; [exact H1 | exact H2].
Qed.

End ScriptFacts.

End DataFacts.

(** * The further properties at concrete inputs *)

Lemma classified_category_has_keyword_witness :
  QueryClassifier.classify_query Str.ascii_lower "How can I prevent cavities?"
  = QueryType.PREVENTION
  /\ exists k, In k (QueryClassifier.keywords_of QueryType.PREVENTION)
               /\ Str.Substring k (Str.ascii_lower "How can I prevent cavities?").
Proof.
  split; [reflexivity|].
  apply (classified_category_has_keyword Str.ascii_lower
           "How can I prevent cavities?" QueryType.PREVENTION);
    [reflexivity | discriminate].
Defined.

Lemma procedure_needs_more_than_surgery_witness :
  QueryClassifier.classify_query Str.ascii_lower "Can you explain how a root canal works?"
  = QueryType.PROCEDURE
  /\ exists k, In k (QueryClassifier.keywords_of QueryType.PROCEDURE)
               /\ k <> "surgery"
               /\ Str.Substring k (Str.ascii_lower "Can you explain how a root canal works?").
Proof.
  split; [reflexivity|].
  apply (procedure_needs_more_than_surgery Str.ascii_lower). reflexivity.
Defined.

Lemma emergency_survives_surrounding_text_witness :
  QueryClassifier.classify_query Str.ascii_lower "my tooth is broken"
  = QueryType.EMERGENCY
  /\ QueryClassifier.classify_query
       Str.ascii_lower
       ("Hello doctor, " ++ "my tooth is broken" ++ ", what treatment options fix it?")
     = QueryType.EMERGENCY.
Proof.
  split; [reflexivity|].
  apply (emergency_survives_surrounding_text Str.ascii_lower); reflexivity.
Defined.

Lemma prompt_determines_query_type_witness :
  QueryType.PROCEDURE <> QueryType.TREATMENT
  /\ ChainOfThoughtPrompts.get_chain_of_thought_prompt
       QueryType.PROCEDURE "Is implant surgery safe?" EmptyString
     <> ChainOfThoughtPrompts.get_chain_of_thought_prompt
          QueryType.TREATMENT "Is implant surgery safe?" EmptyString.
Proof.
  assert (H : QueryType.PROCEDURE <> QueryType.TREATMENT) by discriminate.
  split; [exact H|].
  exact (prompt_determines_query_type _ _ "Is implant surgery safe?" EmptyString H).
Defined.

Lemma consensus_of_general_is_consultation_witness :
  route_query Str.ascii_lower "Where can I park?" = AgentType.GENERAL
  /\ Demo.flat_consensus "Where can I park?" [] = Demo.flat_consult "Where can I park?" [].
Proof.
  split; [reflexivity|].
  apply (consensus_of_general_is_consultation
           Str.ascii_lower Str.ascii_strip Demo.completion Demo.retrieve_and_rank
           Demo.flat_score Demo.max_attempts Demo.accept_threshold).
  reflexivity.
Defined.

Lemma consensus_runs_two_agents_on_one_prompt_witness :
  let question := "What are my options for replacing a missing tooth?" in
  let cot :=
    ChainOfThoughtPrompts.get_chain_of_thought_prompt
      QueryType.TREATMENT question EmptyString in
  route_query Str.ascii_lower question <> AgentType.GENERAL
  /\ exists best calls1 calls2,
      Demo.flat_consensus question []
      = (Ok best,
         Retrieved question
           :: AgentRun AgentType.TREATMENT question EmptyString
           :: map Completion
                ((BaseAgent.get_specialist_persona AgentType.TREATMENT
                  ++ Str.newline ++ Str.newline ++ cot)%string :: calls1)
           ++ AgentRun AgentType.GENERAL question EmptyString
           :: map Completion
                ((BaseAgent.get_specialist_persona AgentType.GENERAL
                  ++ Str.newline ++ Str.newline ++ cot)%string :: calls2))%list
      /\ (agent_type best = AgentType.TREATMENT \/ agent_type best = AgentType.GENERAL).
Proof.
  intros question cot.
  assert (H : route_query Str.ascii_lower question <> AgentType.GENERAL)
    by (vm_compute; discriminate).
  split; [exact H|].
  exact (consensus_runs_two_agents_on_one_prompt
           Str.ascii_lower Str.ascii_strip Demo.completion Demo.retrieve_and_rank
           Demo.flat_score Demo.max_attempts Demo.accept_threshold question [] H).
Defined.

Lemma consensus_with_failed_primary_witness :
  let question := "What are my options for replacing a missing tooth?" in
  route_query Str.ascii_lower question <> AgentType.GENERAL
  /\ Scenario.fail_first 0
       (full_prompt_of Str.ascii_lower AgentType.TREATMENT question EmptyString None)
     = Raise transient
  /\ exists s best log3,
      Scenario.query Scenario.fail_first AgentType.GENERAL question EmptyString None
        [Retrieved question;
         AgentRun AgentType.TREATMENT question EmptyString;
         Completion (full_prompt_of Str.ascii_lower AgentType.TREATMENT
                                    question EmptyString None)]
      = (Ok s, log3)
      /\ Scenario.consensus Scenario.fail_first question [] = (Ok best, log3)
      /\ (0 < consensus_key s -> best = s)
      /\ (consensus_key s <= 0 -> best = BaseAgent.fallback_response AgentType.TREATMENT).
Proof.
  intros question.
  assert (H : route_query Str.ascii_lower question <> AgentType.GENERAL)
    by (vm_compute; discriminate).
  split; [exact H|]. split; [reflexivity|].
  exact (consensus_with_failed_primary
           Str.ascii_lower Str.ascii_strip Scenario.fail_first Demo.retrieve_and_rank
           Demo.flat_score Demo.max_attempts Demo.accept_threshold
           question [] transient H eq_refl).
Defined.

Lemma consensus_with_failed_secondary_witness :
  let question := "What are my options for replacing a missing tooth?" in
  exists p log2 best log3,
    Scenario.query Scenario.fail_later AgentType.TREATMENT question EmptyString None
                   [Retrieved question]
    = (Ok p, log2)
    /\ Scenario.fail_later (completion_calls log2)
         (full_prompt_of Str.ascii_lower AgentType.GENERAL question EmptyString None)
       = Raise rate_limited
    /\ Scenario.consensus Scenario.fail_later question [] = (Ok best, log3)
    /\ (0 <= consensus_key p -> best = p)
    /\ (consensus_key p < 0 -> best = BaseAgent.fallback_response AgentType.GENERAL).
Proof.
  intros question.
  destruct (Scenario.query Scenario.fail_later AgentType.TREATMENT question
                           EmptyString None [Retrieved question])
    as [[p|e] log2] eqn:Ep.
  - assert (Hcalls : completion_calls log2 = 1%nat).
    { pose proof Ep as Ep'. vm_compute in Ep'. injection Ep' as _ <-. reflexivity. }
    assert (Hfail : Scenario.fail_later (completion_calls log2)
                      (full_prompt_of Str.ascii_lower AgentType.GENERAL
                                      question EmptyString None)
                    = Raise rate_limited)
      by (rewrite Hcalls; reflexivity).
    assert (H : route_query Str.ascii_lower question <> AgentType.GENERAL)
      by (vm_compute; discriminate).
    destruct (consensus_with_failed_secondary
                Str.ascii_lower Str.ascii_strip Scenario.fail_later
                Demo.retrieve_and_rank Demo.flat_score Demo.max_attempts
                Demo.accept_threshold question [] log2 p rate_limited H Ep Hfail)
      as (best & log3 & Ec & Hp & Hn).
    exists p, log2, best, log3. repeat split; assumption.
  - exfalso. vm_compute in Ep. discriminate.
Defined.

(** Scores 60 and then 80: the confidence is the float
    0.7000000000000001, under the ceiling 0.9 of a second attempt. *)
Lemma confidence_attempt_ceiling_witness :
  let r60 := mkQualityReport 60 [] in
  let r80 := mkQualityReport 80 [] in
  BaseAgent.last_report [r60; r80] = Some r80
  /\ overall_score r80 <= 100
  /\ BaseAgent._calculate_confidence [r60; r80] <= Float.sub 1 (attempt_penalty 2)
  /\ BaseAgent._calculate_confidence [r60; r80] == unclamped_confidence 80 2
  /\ unclamped_confidence 80 2 = 6305039478318695 # 9007199254740992.
Proof.
  intros r60 r80.
  assert (Hs : overall_score r80 <= 100) by (vm_compute; discriminate).
  destruct (confidence_attempt_ceiling [r60; r80] r80 eq_refl Hs)
    as (Hceil & _ & _ & Hraw).
  split; [reflexivity|]. split; [exact Hs|]. split; [|split].
  - apply Hceil. simpl. lia.
  - apply Hraw; vm_compute; discriminate.
  - vm_compute. reflexivity.
Defined.

Lemma unique_ids_distinct_witness :
  let hash := fun chunk : string => if String.eqb chunk "a" then 23%Z else 3%Z in
  1%nat <> 12%nat
  /\ DataScripts.unique_id hash 1 "a" = "dental_chunk_1_23"
  /\ DataScripts.unique_id hash 12 "b" = "dental_chunk_12_3"
  /\ DataScripts.unique_id hash 1 "a" <> DataScripts.unique_id hash 12 "b".
Proof.
  intros hash.
  assert (H : 1%nat <> 12%nat) by discriminate.
  split; [exact H|]. split; [reflexivity|]. split; [reflexivity|].
  exact (DataFacts.unique_ids_distinct hash 1 12 "a" "b" H).
Defined.

Lemma chunks_partition_words_witness :
  let words := ["clean"; "teeth"; "daily"] in
  nth_error (DataScripts.chunk_slices words) 0 = Some words
  /\ DataScripts.make_chunks words = ["clean teeth daily"]
  /\ List.length words = Nat.min 300 (List.length words - 300 * 0).
Proof.
  intros words.
  assert (H : nth_error (DataScripts.chunk_slices words) 0 = Some words)
    by reflexivity.
  split; [exact H|]. split; [reflexivity|].
  destruct (DataFacts.chunks_partition_words words) as (_ & _ & Hnth).
  exact (proj1 (proj2 (Hnth 0%nat words H))).
Defined.

(** Two chunks, the embedding of the first one fails: the second one is
    still embedded and stored, under its own position. *)
Lemma embedding_loop_isolates_failures_witness :
  let hash := fun _ : string => 7%Z in
  let embed := fun n : nat => match n with O => None | S _ => Some [1 # 2] end in
  let upsert := fun _ : nat => true in
  exists calls,
    DataScripts.store_chunks hash embed upsert 0 ["first"; "second"] []
    = (Some tt, calls)
    /\ calls = [DataScripts.Embed "first"; DataScripts.Embed "second";
                DataScripts.Upsert "dental_chunk_1_7" [1 # 2] "second" 1]
    /\ nth_error ["first"; "second"] 1 = Some "second".
Proof.
  intros hash embed upsert.
  destruct (DataFacts.embedding_loop_isolates_failures
              hash embed upsert ["first"; "second"] [])
    as (calls & E & _ & Hups & _).
  exists calls. split; [exact E|].
  assert (Hc : calls = [DataScripts.Embed "first"; DataScripts.Embed "second";
                        DataScripts.Upsert "dental_chunk_1_7" [1 # 2] "second" 1]).
  { vm_compute in E. injection E as <-. reflexivity. }
  split; [exact Hc|].
  apply (Hups "dental_chunk_1_7" [1 # 2] "second" 1%nat).
  rewrite Hc. simpl. auto.
Defined.

Lemma load_reports_success_without_storing_witness :
  exists calls,
    DataScripts.load_data_properly
      Scenario.two_words (fun _ => 7%Z)
      (fun _ => true) (fun _ => true) (fun _ => Some ["rag-index"]) (fun _ => true)
      (fun _ => true) (fun _ => Some "clean teeth") (fun _ => None) (fun _ => true)
      (fun _ => Some 0%nat) []
    = (Some true, calls)
    /\ filter DataScripts.is_upsert calls = []
    /\ List.length (filter DataScripts.is_embed calls) = 1%nat.
Proof.
  destruct (DataFacts.load_reports_success_without_storing
              Scenario.two_words (fun _ => 7%Z)
              (fun _ => true) (fun _ => true) (fun _ => Some ["rag-index"])
              (fun _ => true) (fun _ => true) (fun _ => Some "clean teeth")
              (fun _ => None) (fun _ => true) (fun _ => Some 0%nat)
              [])
    as (_ & _ & H).
  destruct (H "clean teeth" ["rag-index"] 0%nat
              (fun _ => eq_refl) (fun _ => eq_refl) (fun _ => eq_refl)
              (fun _ => eq_refl) (fun _ => eq_refl) (fun _ => eq_refl)
              (fun _ => eq_refl) (fun _ => eq_refl))
    as (calls & E & Hu & He).
  exists calls. split; [exact E|]. split; [exact Hu|exact He].
Defined.

(** The file is there and readable, Pinecone answers, but the index is
    not listed: the setup fails and loads nothing. *)
Lemma setup_data_never_populates_empty_index_witness :
  exists calls,
    DataScripts.setup_data
      Scenario.two_words (fun _ => 7%Z)
      (fun _ => true) (fun _ => true) (fun _ => Some []) (fun _ => true)
      (fun _ => true) (fun _ => true) (fun _ => Some "clean teeth")
      (fun _ => Some [1 # 2]) (fun _ => true) (fun _ => Some 5%nat) []
    = (Some false, calls)
    /\ filter DataScripts.is_load_call calls = [].
Proof.
  destruct (DataFacts.setup_data_never_populates_empty_index
              Scenario.two_words (fun _ => 7%Z)
              (fun _ => true) (fun _ => true) (fun _ => Some []) (fun _ => true)
              (fun _ => true) (fun _ => true) (fun _ => Some "clean teeth")
              (fun _ => Some [1 # 2]) (fun _ => true) (fun _ => Some 5%nat)
              [] "clean teeth" eq_refl eq_refl
              (or_intror (or_intror (or_introl
                 (ex_intro _ [] (conj eq_refl eq_refl))))))
    as (calls & E & Hl).
  exists calls. split; [exact E | exact Hl].
Defined.

(** Three vectors are stored: the setup loads the data again and succeeds. *)
Lemma setup_data_decision_witness :
  exists trace,
    DataScripts.setup_data
      Scenario.two_words (fun _ => 7%Z)
      (fun _ => true) (fun _ => true) (fun _ => Some ["rag-index"]) (fun _ => true)
      (fun _ => true) (fun _ => true) (fun _ => Some "clean teeth")
      (fun _ => Some [1 # 2]) (fun _ => true) (fun _ => Some 3%nat) []
    = (Some true, trace)
    /\ List.length (filter DataScripts.is_upsert trace) = 1%nat.
Proof.
  destruct (DataFacts.setup_data_decision
              Scenario.two_words (fun _ => 7%Z)
              (fun _ => true) (fun _ => true) (fun _ => Some ["rag-index"])
              (fun _ => true) (fun _ => true) (fun _ => true)
              (fun _ => Some "clean teeth") (fun _ => Some [1 # 2]) (fun _ => true)
              (fun _ => Some 3%nat) [])
    as (counts & trace1 & Ec & _ & _ & Hload).
  vm_compute in Ec. injection Ec as <- <-.
  destruct (Hload 3%nat eq_refl eq_refl eq_refl ltac:(lia)) as (v & trace2 & El & Es).
  simpl Nat.ltb in Es. cbv iota in Es.
  exists trace2. split; [exact Es|].
  vm_compute in El. injection El as _ <-. reflexivity.
Defined.

Lemma check_data_chunks_outcome_witness :
  DataScripts.check_data_chunks
    Scenario.two_words (fun _ => false) (fun _ => Some ["rag-index"]) (fun _ => true)
    (fun _ => Some "clean teeth") (fun _ => Some 3%nat) []
  = (Some (Some 2%nat, Some 0%nat),
     [DataScripts.ReadFile DataScripts.data_file; DataScripts.NewPinecone]).
Proof.
  destruct (DataFacts.check_data_chunks_outcome
              Scenario.two_words (fun _ => false) (fun _ => Some ["rag-index"])
              (fun _ => true) (fun _ => Some "clean teeth") (fun _ => Some 3%nat) [])
    as (counts & calls & E & _ & _ & Hsome).
  destruct (Hsome "clean teeth" eq_refl) as (stored & Hc & Hstored).
  destruct stored as [|stored].
  - rewrite E, Hc. f_equal. vm_compute in E. now injection E as _ <-.
  - exfalso. destruct Hstored as (Hp & _); [discriminate|discriminate].
Defined.

(** [PINECONE_ENVIRONMENT] is set but empty: the check fails without a call. *)
Lemma check_environment_outcome_witness :
  let getenv := fun var : string =>
                  if String.eqb var "PINECONE_ENVIRONMENT" then Some EmptyString
                  else Some "key" in
  DataScripts.check_environment
    (fun _ => true) (fun _ => true) (fun _ => Some ["rag-index"]) getenv
    (fun _ => true) []
  = (Some false, []).
Proof.
  intros getenv.
  destruct (DataFacts.check_environment_outcome
              (fun _ => true) (fun _ => true) (fun _ => Some ["rag-index"]) getenv
              (fun _ => true) [])
    as (b & calls & E & Hmissing & _).
  destruct Hmissing as [-> ->].
  - exists "PINECONE_ENVIRONMENT". split; [vm_compute; tauto | right; reflexivity].
  - exact E.
Defined.

(** Everything is in place except that the index holds no vector: [main]
    exits with code 1 and the server is not started. *)
Lemma main_starts_server_only_after_checks_witness :
  let run :=
    DataScripts.main
      Scenario.two_words (fun _ => 7%Z)
      (fun _ => true) (fun _ => true) (fun _ => Some ["rag-index"]) (fun _ => true)
      (fun _ => true) (fun _ => true) (fun _ => Some "clean teeth")
      (fun _ => Some [1 # 2]) (fun _ => true) (fun _ => Some 0%nat)
      (fun _ => Some "key") (fun _ => true) (fun _ => true) (fun _ => true)
      (fun _ => true) (fun _ => DataScripts.Stopped) [] in
  fst run = Some (DataScripts.Exit 1) /\ ~ In DataScripts.StartServer (snd run).
Proof.
  intros run.
  destruct (DataFacts.main_starts_server_only_after_checks
              Scenario.two_words (fun _ => 7%Z)
              (fun _ => true) (fun _ => true) (fun _ => Some ["rag-index"])
              (fun _ => true) (fun _ => true) (fun _ => true)
              (fun _ => Some "clean teeth") (fun _ => Some [1 # 2]) (fun _ => true)
              (fun _ => Some 0%nat) (fun _ => Some "key") (fun _ => true)
              (fun _ => true) (fun _ => true) (fun _ => true)
              (fun _ => DataScripts.Stopped) [])
    as (r & calls & E & Hstart & _).
  fold run in E. rewrite E. simpl. split.
  - vm_compute in E. now injection E as <- _.
  - intros Hin. destruct (Hstart Hin) as (_ & _ & (pos & stored & _ & _ & Hs & Hne & _) & _).
    injection Hs as <-. now apply Hne.
Defined.

Lemma general_iff_no_keyword_witness :
  QueryClassifier.classify_query Str.ascii_lower "Where can I park?" = QueryType.GENERAL
  /\ ~ Str.Substring "care" (Str.ascii_lower "Where can I park?").
Proof.
  assert (H : QueryClassifier.classify_query Str.ascii_lower "Where can I park?"
              = QueryType.GENERAL) by reflexivity.
  split; [exact H|].
  apply (proj1 (general_iff_no_keyword Str.ascii_lower "Where can I park?") H
               QueryType.PREVENTION "care").
  vm_compute. tauto.
Defined.
